(** * Entity extraction of the voice-based loan enquiry form

    A shallow embedding of [extract_loan_entities] (loan_enquiry_form.py,
    lines 134-329) together with the parts of the Python runtime the function
    relies on: [str] values as sequences of code points, [str.lower], the
    [in] operator on strings, [float] and the [,.0f] format, and the
    backtracking search of the [re] module. *)

From Stdlib Require Import String Ascii NArith ZArith Bool Arith Lia List.
From Stdlib Require DecimalN.
Import ListNotations.

(** ** Strings

    A Python [str] is a sequence of Unicode code points. *)

Definition char := N.
Definition ustring := list char.

(** Source literals are written as they are in the Python file; [str] decodes
    the UTF-8 bytes of the literal into code points. *)

Fixpoint utf8_decode (bs : list N) : ustring :=
  match bs with
  | [] => []
  | b :: r =>
      if (b <? 128)%N then b :: utf8_decode r
      else if (b <? 224)%N then
        match r with
        | b1 :: r' => ((b - 192) * 64 + (b1 - 128))%N :: utf8_decode r'
        | _ => []
        end
      else if (b <? 240)%N then
        match r with
        | b1 :: b2 :: r' =>
            ((b - 224) * 4096 + (b1 - 128) * 64 + (b2 - 128))%N :: utf8_decode r'
        | _ => []
        end
      else
        match r with
        | b1 :: b2 :: b3 :: r' =>
            ((b - 240) * 262144 + (b1 - 128) * 4096 + (b2 - 128) * 64 + (b3 - 128))%N
              :: utf8_decode r'
        | _ => []
        end
  end.

Definition str (s : string) : ustring :=
  utf8_decode (map N_of_ascii (list_ascii_of_string s)).

Definition chr (a : ascii) : char := N_of_ascii a.

Definition ustring_eqb (a b : ustring) : bool :=
  if list_eq_dec N.eq_dec a b then true else false.

(** ** The Unicode character database (version 14.0.0, as shipped with
    CPython 3.11) *)

Module Unicode.

Definition in_ranges (tbl : list (N * N)) (c : char) : bool :=
  existsb (fun r => (fst r <=? c)%N && (c <=? snd r)%N) tbl.

(** Characters with the decimal-digit property: every block holds the ten
    digits 0..9 of one script, in order, starting at the listed code point. *)
Definition decimal_blocks : list N :=
  [48; 1632; 1776; 1984; 2406; 2534; 2662; 2790; 2918; 3046; 3174; 3302;
   3430; 3558; 3664; 3792; 3872; 4160; 4240; 6112; 6160; 6470; 6608; 6784;
   6800; 6992; 7088; 7232; 7248; 42528; 43216; 43264; 43472; 43504; 43600;
   44016; 65296; 66720; 68912; 69734; 69872; 69942; 70096; 70384; 70736;
   70864; 71248; 71360; 71472; 71904; 72016; 72784; 73040; 73120; 92768;
   92864; 93008; 120782; 120792; 120802; 120812; 120822; 123200; 123632;
   125264; 130032]%N.

(** [Py_UNICODE_TODECIMAL] *)
Definition to_decimal (c : char) : option N :=
  match find (fun b => (b <=? c)%N && (c <? b + 10)%N) decimal_blocks with
  | Some b => Some (c - b)%N
  | None => None
  end.

(** [Py_UNICODE_ISDECIMAL]: the class [\d] of a [str] pattern *)
Definition is_decimal (c : char) : bool :=
  match to_decimal c with Some _ => true | None => false end.

(** [Py_UNICODE_ISSPACE]: the class [\s] of a [str] pattern *)
Definition is_space (c : char) : bool :=
  in_ranges [(9, 13); (28, 32); (133, 133); (160, 160); (5760, 5760);
             (8192, 8202); (8232, 8233); (8239, 8239); (8287, 8287);
             (12288, 12288)]%N c.

(** Simple lower-case mapping.  A row [(start, count, stride, target)] maps
    [start + i * stride] to [target + i * stride] for [i < count]. *)
Definition lowercase_table : list (N * N * N * N) :=
 [
  (65, 26, 1, 97); (192, 23, 1, 224); (216, 7, 1, 248); (256, 24, 2, 257);
  (304, 1, 1, 105); (306, 3, 2, 307); (313, 8, 2, 314); (330, 23, 2, 331);
  (376, 1, 1, 255); (377, 3, 2, 378); (385, 1, 1, 595); (386, 2, 2, 387);
  (390, 1, 1, 596); (391, 1, 1, 392); (393, 2, 1, 598); (395, 1, 1, 396);
  (398, 1, 1, 477); (399, 1, 1, 601); (400, 1, 1, 603); (401, 1, 1, 402);
  (403, 1, 1, 608); (404, 1, 1, 611); (406, 1, 1, 617); (407, 1, 1, 616);
  (408, 1, 1, 409); (412, 1, 1, 623); (413, 1, 1, 626); (415, 1, 1, 629);
  (416, 3, 2, 417); (422, 1, 1, 640); (423, 1, 1, 424); (425, 1, 1, 643);
  (428, 1, 1, 429); (430, 1, 1, 648); (431, 1, 1, 432); (433, 2, 1, 650);
  (435, 2, 2, 436); (439, 1, 1, 658); (440, 1, 1, 441); (444, 1, 1, 445);
  (452, 1, 1, 454); (453, 1, 1, 454); (455, 1, 1, 457); (456, 1, 1, 457);
  (458, 1, 1, 460); (459, 9, 2, 460); (478, 9, 2, 479); (497, 1, 1, 499);
  (498, 2, 2, 499); (502, 1, 1, 405); (503, 1, 1, 447); (504, 20, 2, 505);
  (544, 1, 1, 414); (546, 9, 2, 547); (570, 1, 1, 11365); (571, 1, 1, 572);
  (573, 1, 1, 410); (574, 1, 1, 11366); (577, 1, 1, 578); (579, 1, 1, 384);
  (580, 1, 1, 649); (581, 1, 1, 652); (582, 5, 2, 583); (880, 2, 2, 881);
  (886, 1, 1, 887); (895, 1, 1, 1011); (902, 1, 1, 940); (904, 3, 1, 941);
  (908, 1, 1, 972); (910, 2, 1, 973); (913, 17, 1, 945); (931, 9, 1, 963);
  (975, 1, 1, 983); (984, 12, 2, 985); (1012, 1, 1, 952); (1015, 1, 1, 1016);
  (1017, 1, 1, 1010); (1018, 1, 1, 1019); (1021, 3, 1, 891); (1024, 16, 1, 1104);
  (1040, 32, 1, 1072); (1120, 17, 2, 1121); (1162, 27, 2, 1163); (1216, 1, 1, 1231);
  (1217, 7, 2, 1218); (1232, 48, 2, 1233); (1329, 38, 1, 1377); (4256, 38, 1, 11520);
  (4295, 1, 1, 11559); (4301, 1, 1, 11565); (5024, 80, 1, 43888); (5104, 6, 1, 5112);
  (7312, 43, 1, 4304); (7357, 3, 1, 4349); (7680, 75, 2, 7681); (7838, 1, 1, 223);
  (7840, 48, 2, 7841); (7944, 8, 1, 7936); (7960, 6, 1, 7952); (7976, 8, 1, 7968);
  (7992, 8, 1, 7984); (8008, 6, 1, 8000); (8025, 4, 2, 8017); (8040, 8, 1, 8032);
  (8072, 8, 1, 8064); (8088, 8, 1, 8080); (8104, 8, 1, 8096); (8120, 2, 1, 8112);
  (8122, 2, 1, 8048); (8124, 1, 1, 8115); (8136, 4, 1, 8050); (8140, 1, 1, 8131);
  (8152, 2, 1, 8144); (8154, 2, 1, 8054); (8168, 2, 1, 8160); (8170, 2, 1, 8058);
  (8172, 1, 1, 8165); (8184, 2, 1, 8056); (8186, 2, 1, 8060); (8188, 1, 1, 8179);
  (8486, 1, 1, 969); (8490, 1, 1, 107); (8491, 1, 1, 229); (8498, 1, 1, 8526);
  (8544, 16, 1, 8560); (8579, 1, 1, 8580); (9398, 26, 1, 9424); (11264, 48, 1, 11312);
  (11360, 1, 1, 11361); (11362, 1, 1, 619); (11363, 1, 1, 7549); (11364, 1, 1, 637);
  (11367, 3, 2, 11368); (11373, 1, 1, 593); (11374, 1, 1, 625); (11375, 1, 1, 592);
  (11376, 1, 1, 594); (11378, 1, 1, 11379); (11381, 1, 1, 11382); (11390, 2, 1, 575);
  (11392, 50, 2, 11393); (11499, 2, 2, 11500); (11506, 1, 1, 11507); (42560, 23, 2, 42561);
  (42624, 14, 2, 42625); (42786, 7, 2, 42787); (42802, 31, 2, 42803); (42873, 2, 2, 42874);
  (42877, 1, 1, 7545); (42878, 5, 2, 42879); (42891, 1, 1, 42892); (42893, 1, 1, 613);
  (42896, 2, 2, 42897); (42902, 10, 2, 42903); (42922, 1, 1, 614); (42923, 1, 1, 604);
  (42924, 1, 1, 609); (42925, 1, 1, 620); (42926, 1, 1, 618); (42928, 1, 1, 670);
  (42929, 1, 1, 647); (42930, 1, 1, 669); (42931, 1, 1, 43859); (42932, 8, 2, 42933);
  (42948, 1, 1, 42900); (42949, 1, 1, 642); (42950, 1, 1, 7566); (42951, 2, 2, 42952);
  (42960, 1, 1, 42961); (42966, 2, 2, 42967); (42997, 1, 1, 42998); (65313, 26, 1, 65345);
  (66560, 40, 1, 66600); (66736, 36, 1, 66776); (66928, 11, 1, 66967); (66940, 15, 1, 66979);
  (66956, 7, 1, 66995); (66964, 2, 1, 67003); (68736, 51, 1, 68800); (71840, 32, 1, 71872);
  (93760, 32, 1, 93792); (125184, 34, 1, 125218)
 ]%N.

Definition case_ignorable_table : list (N * N) :=
 [
  (39, 39); (46, 46); (58, 58); (94, 94); (96, 96); (168, 168);
  (173, 173); (175, 175); (180, 180); (183, 184); (688, 879); (884, 885);
  (890, 890); (900, 901); (903, 903); (1155, 1161); (1369, 1369); (1375, 1375);
  (1425, 1469); (1471, 1471); (1473, 1474); (1476, 1477); (1479, 1479); (1524, 1524);
  (1536, 1541); (1552, 1562); (1564, 1564); (1600, 1600); (1611, 1631); (1648, 1648);
  (1750, 1757); (1759, 1768); (1770, 1773); (1807, 1807); (1809, 1809); (1840, 1866);
  (1958, 1968); (2027, 2037); (2042, 2042); (2045, 2045); (2070, 2093); (2137, 2139);
  (2184, 2184); (2192, 2193); (2200, 2207); (2249, 2306); (2362, 2362); (2364, 2364);
  (2369, 2376); (2381, 2381); (2385, 2391); (2402, 2403); (2417, 2417); (2433, 2433);
  (2492, 2492); (2497, 2500); (2509, 2509); (2530, 2531); (2558, 2558); (2561, 2562);
  (2620, 2620); (2625, 2626); (2631, 2632); (2635, 2637); (2641, 2641); (2672, 2673);
  (2677, 2677); (2689, 2690); (2748, 2748); (2753, 2757); (2759, 2760); (2765, 2765);
  (2786, 2787); (2810, 2815); (2817, 2817); (2876, 2876); (2879, 2879); (2881, 2884);
  (2893, 2893); (2901, 2902); (2914, 2915); (2946, 2946); (3008, 3008); (3021, 3021);
  (3072, 3072); (3076, 3076); (3132, 3132); (3134, 3136); (3142, 3144); (3146, 3149);
  (3157, 3158); (3170, 3171); (3201, 3201); (3260, 3260); (3263, 3263); (3270, 3270);
  (3276, 3277); (3298, 3299); (3328, 3329); (3387, 3388); (3393, 3396); (3405, 3405);
  (3426, 3427); (3457, 3457); (3530, 3530); (3538, 3540); (3542, 3542); (3633, 3633);
  (3636, 3642); (3654, 3662); (3761, 3761); (3764, 3772); (3782, 3782); (3784, 3789);
  (3864, 3865); (3893, 3893); (3895, 3895); (3897, 3897); (3953, 3966); (3968, 3972);
  (3974, 3975); (3981, 3991); (3993, 4028); (4038, 4038); (4141, 4144); (4146, 4151);
  (4153, 4154); (4157, 4158); (4184, 4185); (4190, 4192); (4209, 4212); (4226, 4226);
  (4229, 4230); (4237, 4237); (4253, 4253); (4348, 4348); (4957, 4959); (5906, 5908);
  (5938, 5939); (5970, 5971); (6002, 6003); (6068, 6069); (6071, 6077); (6086, 6086);
  (6089, 6099); (6103, 6103); (6109, 6109); (6155, 6159); (6211, 6211); (6277, 6278);
  (6313, 6313); (6432, 6434); (6439, 6440); (6450, 6450); (6457, 6459); (6679, 6680);
  (6683, 6683); (6742, 6742); (6744, 6750); (6752, 6752); (6754, 6754); (6757, 6764);
  (6771, 6780); (6783, 6783); (6823, 6823); (6832, 6862); (6912, 6915); (6964, 6964);
  (6966, 6970); (6972, 6972); (6978, 6978); (7019, 7027); (7040, 7041); (7074, 7077);
  (7080, 7081); (7083, 7085); (7142, 7142); (7144, 7145); (7149, 7149); (7151, 7153);
  (7212, 7219); (7222, 7223); (7288, 7293); (7376, 7378); (7380, 7392); (7394, 7400);
  (7405, 7405); (7412, 7412); (7416, 7417); (7468, 7530); (7544, 7544); (7579, 7679);
  (8125, 8125); (8127, 8129); (8141, 8143); (8157, 8159); (8173, 8175); (8189, 8190);
  (8203, 8207); (8216, 8217); (8228, 8228); (8231, 8231); (8234, 8238); (8288, 8292);
  (8294, 8303); (8305, 8305); (8319, 8319); (8336, 8348); (8400, 8432); (11388, 11389);
  (11503, 11505); (11631, 11631); (11647, 11647); (11744, 11775); (11823, 11823); (12293, 12293);
  (12330, 12333); (12337, 12341); (12347, 12347); (12441, 12446); (12540, 12542); (40981, 40981);
  (42232, 42237); (42508, 42508); (42607, 42610); (42612, 42621); (42623, 42623); (42652, 42655);
  (42736, 42737); (42752, 42785); (42864, 42864); (42888, 42890); (42994, 42996); (43000, 43001);
  (43010, 43010); (43014, 43014); (43019, 43019); (43045, 43046); (43052, 43052); (43204, 43205);
  (43232, 43249); (43263, 43263); (43302, 43309); (43335, 43345); (43392, 43394); (43443, 43443);
  (43446, 43449); (43452, 43453); (43471, 43471); (43493, 43494); (43561, 43566); (43569, 43570);
  (43573, 43574); (43587, 43587); (43596, 43596); (43632, 43632); (43644, 43644); (43696, 43696);
  (43698, 43700); (43703, 43704); (43710, 43711); (43713, 43713); (43741, 43741); (43756, 43757);
  (43763, 43764); (43766, 43766); (43867, 43871); (43881, 43883); (44005, 44005); (44008, 44008);
  (44013, 44013); (64286, 64286); (64434, 64450); (65024, 65039); (65043, 65043); (65056, 65071);
  (65106, 65106); (65109, 65109); (65279, 65279); (65287, 65287); (65294, 65294); (65306, 65306);
  (65342, 65342); (65344, 65344); (65392, 65392); (65438, 65439); (65507, 65507); (65529, 65531);
  (66045, 66045); (66272, 66272); (66422, 66426); (67456, 67461); (67463, 67504); (67506, 67514);
  (68097, 68099); (68101, 68102); (68108, 68111); (68152, 68154); (68159, 68159); (68325, 68326);
  (68900, 68903); (69291, 69292); (69446, 69456); (69506, 69509); (69633, 69633); (69688, 69702);
  (69744, 69744); (69747, 69748); (69759, 69761); (69811, 69814); (69817, 69818); (69821, 69821);
  (69826, 69826); (69837, 69837); (69888, 69890); (69927, 69931); (69933, 69940); (70003, 70003);
  (70016, 70017); (70070, 70078); (70089, 70092); (70095, 70095); (70191, 70193); (70196, 70196);
  (70198, 70199); (70206, 70206); (70367, 70367); (70371, 70378); (70400, 70401); (70459, 70460);
  (70464, 70464); (70502, 70508); (70512, 70516); (70712, 70719); (70722, 70724); (70726, 70726);
  (70750, 70750); (70835, 70840); (70842, 70842); (70847, 70848); (70850, 70851); (71090, 71093);
  (71100, 71101); (71103, 71104); (71132, 71133); (71219, 71226); (71229, 71229); (71231, 71232);
  (71339, 71339); (71341, 71341); (71344, 71349); (71351, 71351); (71453, 71455); (71458, 71461);
  (71463, 71467); (71727, 71735); (71737, 71738); (71995, 71996); (71998, 71998); (72003, 72003);
  (72148, 72151); (72154, 72155); (72160, 72160); (72193, 72202); (72243, 72248); (72251, 72254);
  (72263, 72263); (72273, 72278); (72281, 72283); (72330, 72342); (72344, 72345); (72752, 72758);
  (72760, 72765); (72767, 72767); (72850, 72871); (72874, 72880); (72882, 72883); (72885, 72886);
  (73009, 73014); (73018, 73018); (73020, 73021); (73023, 73029); (73031, 73031); (73104, 73105);
  (73109, 73109); (73111, 73111); (73459, 73460); (78896, 78904); (92912, 92916); (92976, 92982);
  (92992, 92995); (94031, 94031); (94095, 94111); (94176, 94177); (94179, 94180); (110576, 110579);
  (110581, 110587); (110589, 110590); (113821, 113822); (113824, 113827); (118528, 118573); (118576, 118598);
  (119143, 119145); (119155, 119170); (119173, 119179); (119210, 119213); (119362, 119364); (121344, 121398);
  (121403, 121452); (121461, 121461); (121476, 121476); (121499, 121503); (121505, 121519); (122880, 122886);
  (122888, 122904); (122907, 122913); (122915, 122916); (122918, 122922); (123184, 123197); (123566, 123566);
  (123628, 123631); (125136, 125142); (125252, 125259); (127995, 127999); (917505, 917505); (917536, 917631);
  (917760, 917999)
 ]%N.

Definition cased_table : list (N * N) :=
 [
  (65, 90); (97, 122); (170, 170); (181, 181); (186, 186); (192, 214);
  (216, 246); (248, 442); (444, 447); (452, 659); (661, 696); (704, 705);
  (736, 740); (837, 837); (880, 883); (886, 887); (890, 893); (895, 895);
  (902, 902); (904, 906); (908, 908); (910, 929); (931, 1013); (1015, 1153);
  (1162, 1327); (1329, 1366); (1376, 1416); (4256, 4293); (4295, 4295); (4301, 4301);
  (4304, 4346); (4349, 4351); (5024, 5109); (5112, 5117); (7296, 7304); (7312, 7354);
  (7357, 7359); (7424, 7615); (7680, 7957); (7960, 7965); (7968, 8005); (8008, 8013);
  (8016, 8023); (8025, 8025); (8027, 8027); (8029, 8029); (8031, 8061); (8064, 8116);
  (8118, 8124); (8126, 8126); (8130, 8132); (8134, 8140); (8144, 8147); (8150, 8155);
  (8160, 8172); (8178, 8180); (8182, 8188); (8305, 8305); (8319, 8319); (8336, 8348);
  (8450, 8450); (8455, 8455); (8458, 8467); (8469, 8469); (8473, 8477); (8484, 8484);
  (8486, 8486); (8488, 8488); (8490, 8493); (8495, 8500); (8505, 8505); (8508, 8511);
  (8517, 8521); (8526, 8526); (8544, 8575); (8579, 8580); (9398, 9449); (11264, 11492);
  (11499, 11502); (11506, 11507); (11520, 11557); (11559, 11559); (11565, 11565); (42560, 42605);
  (42624, 42653); (42786, 42887); (42891, 42894); (42896, 42954); (42960, 42961); (42963, 42963);
  (42965, 42969); (42997, 42998); (43000, 43002); (43824, 43866); (43868, 43880); (43888, 43967);
  (64256, 64262); (64275, 64279); (65313, 65338); (65345, 65370); (66560, 66639); (66736, 66771);
  (66776, 66811); (66928, 66938); (66940, 66954); (66956, 66962); (66964, 66965); (66967, 66977);
  (66979, 66993); (66995, 67001); (67003, 67004); (67456, 67456); (67459, 67461); (67463, 67504);
  (67506, 67514); (68736, 68786); (68800, 68850); (71840, 71903); (93760, 93823); (119808, 119892);
  (119894, 119964); (119966, 119967); (119970, 119970); (119973, 119974); (119977, 119980); (119982, 119993);
  (119995, 119995); (119997, 120003); (120005, 120069); (120071, 120074); (120077, 120084); (120086, 120092);
  (120094, 120121); (120123, 120126); (120128, 120132); (120134, 120134); (120138, 120144); (120146, 120485);
  (120488, 120512); (120514, 120538); (120540, 120570); (120572, 120596); (120598, 120628); (120630, 120654);
  (120656, 120686); (120688, 120712); (120714, 120744); (120746, 120770); (120772, 120779); (122624, 122633);
  (122635, 122654); (125184, 125251); (127280, 127305); (127312, 127337); (127344, 127369)
 ]%N.

Definition row_lower (c : char) (row : N * N * N * N) : option char :=
  let '(start, count, stride, target) := row in
  if (start <=? c)%N && (c <=? start + (count - 1) * stride)%N
     && ((c - start) mod stride =? 0)%N
  then Some (target + (c - start))%N
  else None.

Fixpoint lookup_lower (c : char) (tbl : list (N * N * N * N)) : char :=
  match tbl with
  | [] => c
  | row :: tbl' =>
      match row_lower c row with
      | Some l => l
      | None => lookup_lower c tbl'
      end
  end.

(** [_PyUnicode_ToLowercase] *)
Definition tolower (c : char) : char := lookup_lower c lowercase_table.

(** [_PyUnicode_ToLowerFull]: only U+0130 has a longer lower-case form. *)
Definition tolower_full (c : char) : ustring :=
  if (c =? 304)%N then [105; 775]%N else [tolower c].

Definition is_case_ignorable : char -> bool := in_ranges case_ignorable_table.
Definition is_cased : char -> bool := in_ranges cased_table.

(** Title-case mapping, on the ASCII range only: it is applied to the keys of
    the keyword tables, which are ASCII literals. *)
Definition totitle_ascii (c : char) : char :=
  if (97 <=? c)%N && (c <=? 122)%N then (c - 32)%N else c.

(** Case data of the [re] module: [_sre.unicode_iscased] and the extra
    case equivalences of re/_casefix.py. *)
Definition iscased_table : list (N * N) :=
 [
  (65, 90); (97, 122); (181, 181); (192, 214); (216, 246); (248, 311);
  (313, 396); (398, 410); (412, 425); (428, 441); (444, 445); (447, 447);
  (452, 544); (546, 563); (570, 596); (598, 599); (601, 601); (603, 604);
  (608, 609); (611, 611); (613, 614); (616, 620); (623, 623); (625, 626);
  (629, 629); (637, 637); (640, 640); (642, 643); (647, 652); (658, 658);
  (669, 670); (837, 837); (880, 883); (886, 887); (891, 893); (895, 895);
  (902, 902); (904, 906); (908, 908); (910, 929); (931, 977); (981, 1013);
  (1015, 1019); (1021, 1153); (1162, 1327); (1329, 1366); (1377, 1415); (4256, 4293);
  (4295, 4295); (4301, 4301); (4304, 4346); (4349, 4351); (5024, 5109); (5112, 5117);
  (7296, 7304); (7312, 7354); (7357, 7359); (7545, 7545); (7549, 7549); (7566, 7566);
  (7680, 7835); (7838, 7838); (7840, 7957); (7960, 7965); (7968, 8005); (8008, 8013);
  (8016, 8023); (8025, 8025); (8027, 8027); (8029, 8029); (8031, 8061); (8064, 8116);
  (8118, 8124); (8126, 8126); (8130, 8132); (8134, 8140); (8144, 8147); (8150, 8155);
  (8160, 8172); (8178, 8180); (8182, 8188); (8486, 8486); (8490, 8491); (8498, 8498);
  (8526, 8526); (8544, 8575); (8579, 8580); (9398, 9449); (11264, 11376); (11378, 11379);
  (11381, 11382); (11390, 11491); (11499, 11502); (11506, 11507); (11520, 11557); (11559, 11559);
  (11565, 11565); (42560, 42605); (42624, 42651); (42786, 42799); (42802, 42863); (42873, 42887);
  (42891, 42893); (42896, 42900); (42902, 42926); (42928, 42954); (42960, 42961); (42966, 42969);
  (42997, 42998); (43859, 43859); (43888, 43967); (64256, 64262); (64275, 64279); (65313, 65338);
  (65345, 65370); (66560, 66639); (66736, 66771); (66776, 66811); (66928, 66938); (66940, 66954);
  (66956, 66962); (66964, 66965); (66967, 66977); (66979, 66993); (66995, 67001); (67003, 67004);
  (68736, 68786); (68800, 68850); (71840, 71903); (93760, 93823); (125184, 125251)
 ]%N.

Definition extra_cases_table : list (N * list N) :=
 [
  (105, [305]); (115, [383]); (181, [956]); (305, [105]);
  (383, [115]); (837, [953; 8126]); (912, [8147]); (944, [8163]);
  (946, [976]); (949, [1013]); (952, [977]); (953, [837; 8126]);
  (954, [1008]); (956, [181]); (960, [982]); (961, [1009]);
  (962, [963]); (963, [962]); (966, [981]); (976, [946]);
  (977, [952]); (981, [966]); (982, [960]); (1008, [954]);
  (1009, [961]); (1013, [949]); (1074, [7296]); (1076, [7297]);
  (1086, [7298]); (1089, [7299]); (1090, [7300; 7301]); (1098, [7302]);
  (1123, [7303]); (7296, [1074]); (7297, [1076]); (7298, [1086]);
  (7299, [1089]); (7300, [1090; 7301]); (7301, [1090; 7300]); (7302, [1098]);
  (7303, [1123]); (7304, [42571]); (7777, [7835]); (7835, [7777]);
  (8126, [837; 953]); (8147, [912]); (8163, [944]); (42571, [7304]);
  (64261, [64262]); (64262, [64261])
 ]%N.

Definition sre_iscased : char -> bool := in_ranges iscased_table.

Definition extra_cases (c : char) : list char :=
  match find (fun row => (fst row =? c)%N) extra_cases_table with
  | Some row => snd row
  | None => []
  end.

End Unicode.

(** ** Exceptions *)

Inductive exn : Type :=
| ValueError | AttributeError | UnboundLocalError | ReError.

Inductive result (A : Type) : Type :=
| Ok (a : A)
| Raise (e : exn).

Arguments Ok {A} a.
Arguments Raise {A} e.

(** ** Built-in string and number operations *)

Module Py.

Import Unicode.

(** [s.startswith(p)] and [p in s] *)
Fixpoint startswith (p s : ustring) : bool :=
  match p, s with
  | [], _ => true
  | a :: p', b :: s' => (a =? b)%N && startswith p' s'
  | _ :: _, [] => false
  end.

Fixpoint contains (p s : ustring) : bool :=
  startswith p s
  || match s with
     | [] => false
     | _ :: s' => contains p s'
     end.

(** [str.lower]: every character is replaced by its full lower-case form;
    U+03A3 becomes the final sigma U+03C2 when it ends a word
    ([handle_capital_sigma] of unicodeobject.c). *)
Fixpoint first_not_ignorable (s : ustring) : option char :=
  match s with
  | [] => None
  | c :: r => if is_case_ignorable c then first_not_ignorable r else Some c
  end.

Definition handle_capital_sigma (before after : ustring) : char :=
  let final_sigma :=
    match first_not_ignorable before with
    | Some c => is_cased c
    | None => false
    end
    && match first_not_ignorable after with
       | Some c => negb (is_cased c)
       | None => true
       end in
  if final_sigma then 962%N else 963%N.

(** [before] holds the characters already passed, nearest first. *)
Definition lower_ucs4 (before : ustring) (c : char) (after : ustring) : ustring :=
  if (c =? 931)%N then [handle_capital_sigma before after] else tolower_full c.

Fixpoint lower_from (before s : ustring) : ustring :=
  match s with
  | [] => []
  | c :: after => lower_ucs4 before c after ++ lower_from (c :: before) after
  end.

Definition lower (s : ustring) : ustring := lower_from [] s.

(** [str.capitalize] and [str.title] *)
Definition capitalize (s : ustring) : ustring :=
  match s with
  | [] => []
  | c :: r => totitle_ascii c :: lower_from [c] r
  end.

Fixpoint title_from (previous_is_cased : bool) (before s : ustring) : ustring :=
  match s with
  | [] => []
  | c :: after =>
      (if previous_is_cased then lower_ucs4 before c after else [totitle_ascii c])
        ++ title_from (is_cased c) (c :: before) after
  end.

Definition title (s : ustring) : ustring := title_from false [] s.

(** [s.replace(old, new)] for a one-character [old] *)
Definition replace (old : char) (new s : ustring) : ustring :=
  flat_map (fun c => if (c =? old)%N then new else [c]) s.

(** [sep.join(parts)] *)
Fixpoint join (sep : ustring) (parts : list ustring) : ustring :=
  match parts with
  | [] => []
  | [p] => p
  | p :: ps => p ++ sep ++ join sep ps
  end.

(** Decimal rendering of a non-negative integer, [str(n)] *)
Fixpoint uint_digits (d : Decimal.uint) : ustring :=
  match d with
  | Decimal.Nil => []
  | Decimal.D0 d => 48%N :: uint_digits d
  | Decimal.D1 d => 49%N :: uint_digits d
  | Decimal.D2 d => 50%N :: uint_digits d
  | Decimal.D3 d => 51%N :: uint_digits d
  | Decimal.D4 d => 52%N :: uint_digits d
  | Decimal.D5 d => 53%N :: uint_digits d
  | Decimal.D6 d => 54%N :: uint_digits d
  | Decimal.D7 d => 55%N :: uint_digits d
  | Decimal.D8 d => 56%N :: uint_digits d
  | Decimal.D9 d => 57%N :: uint_digits d
  end.

Definition repr_int (n : N) : ustring := uint_digits (N.to_uint n).

(** The [,] option of the format mini-language: a comma between groups of
    three digits, counted from the right.  Works on the reversed digits. *)
Fixpoint group_rev (ds : ustring) : ustring :=
  match ds with
  | a :: b :: c :: ((_ :: _) as rest) => a :: b :: c :: 44%N :: group_rev rest
  | _ => ds
  end.

Definition group_thousands (ds : ustring) : ustring := rev (group_rev (rev ds)).

(** *** Floats

    A binary64 value that is not negative: the dyadic rational [n / 2^k] in
    lowest terms, the positive infinity, or a NaN. *)

Inductive float64 : Type :=
| Finite (n : N) (k : nat)
| Infinity
| NaN.

Definition round_half_even (num den : N) : N :=
  let q := (num / den)%N in
  let r := (num mod den)%N in
  if (2 * r <? den)%N then q
  else if (den <? 2 * r)%N then (q + 1)%N
  else if N.even q then q else (q + 1)%N.

Fixpoint reduce (n : N) (k : nat) : float64 :=
  match k with
  | O => Finite n 0
  | S k' => if N.even n then reduce (n / 2) k' else Finite n k
  end.

(** [floor (log2 (num / den))] for positive [num] and [den] *)
Definition floor_log2 (num den : N) : Z :=
  let e0 := (Z.of_N (N.log2 num) - Z.of_N (N.log2 den))%Z in
  let below :=
    if (0 <=? e0)%Z then (num <? den * 2 ^ Z.to_N e0)%N
    else (num * 2 ^ Z.to_N (- e0) <? den)%N in
  if below then (e0 - 1)%Z else e0.

(** The binary64 value nearest to [num / den], ties to even: 53 bits of
    precision, exponents from -1022 (gradual underflow below) to 1023
    (infinity above). *)
Definition of_ratio (num den : N) : float64 :=
  if (num =? 0)%N then Finite 0 0
  else
    let e := floor_log2 num den in
    if (1023 <? e)%Z then Infinity
    else
      let q := (Z.max e (-1022) - 52)%Z in
      let m :=
        if (0 <=? q)%Z then round_half_even num (den * 2 ^ Z.to_N q)
        else round_half_even (num * 2 ^ Z.to_N (- q)) den in
      if (e =? 1023)%Z && (m =? 2 ^ 53)%N then Infinity
      else if (0 <=? q)%Z then Finite (m * 2 ^ Z.to_N q) 0
      else reduce m (Z.to_nat (- q)).

(** [float(i)] for a small non-negative [int] *)
Definition float_of_int (i : N) : float64 := of_ratio i 1.

(** [x * y] *)
Definition fmul (x y : float64) : float64 :=
  match x, y with
  | NaN, _ | _, NaN => NaN
  | Finite n1 k1, Finite n2 k2 => of_ratio (n1 * n2) (2 ^ N.of_nat (k1 + k2))
  | Infinity, Finite n _ | Finite n _, Infinity =>
      if (n =? 0)%N then NaN else Infinity
  | Infinity, Infinity => Infinity
  end.

Definition digits_value (ds : ustring) : N :=
  fold_left
    (fun acc c => (acc * 10 + match to_decimal c with Some d => d | None => 0 end)%N)
    ds 0%N.

Fixpoint span_decimal (s : ustring) : ustring * ustring :=
  match s with
  | [] => ([], [])
  | c :: r =>
      if is_decimal c then let (a, b) := span_decimal r in (c :: a, b)
      else ([], s)
  end.

Definition is_nil (s : ustring) : bool :=
  match s with [] => true | _ => false end.

(** [float(s)] on unsigned decimal numerals: decimal digits of any script
    with an optional fraction.  The built-in accepts more (a sign, an
    exponent, underscores, surrounding blanks, [inf], [nan]); those forms are
    rejected here, which errs on the side of raising. *)
Definition float (s : ustring) : result float64 :=
  let (ip, rest) := span_decimal s in
  match rest with
  | [] => if is_nil ip then Raise ValueError else Ok (of_ratio (digits_value ip) 1)
  | c :: fp =>
      if (c =? 46)%N && forallb is_decimal fp && negb (is_nil ip && is_nil fp)
      then Ok (of_ratio (digits_value (ip ++ fp)) (10 ^ N.of_nat (length fp)))
      else Raise ValueError
  end.

(** [format(x, ',.0f')] *)
Definition format_comma_0f (x : float64) : ustring :=
  match x with
  | Finite n k => group_thousands (repr_int (round_half_even n (2 ^ N.of_nat k)))
  | Infinity => str "inf"
  | NaN => str "nan"
  end.

End Py.


(** ** The [re] module

    Patterns are parsed from their source text; matching is the backtracking
    search of [re]: alternatives left to right, greedy repetition, the first
    success at the leftmost starting position. *)

Module Re.

Import Unicode.

Inductive regex : Type :=
| Empty
| Lit (c : char)
| Digit
| Space
| Seq (a b : regex)
| Alt (a b : regex)
| Repeat (a : regex) (lo : nat) (hi : option nat)
| Group (i : nat) (a : regex).

(** *** Pattern syntax *)

Definition seq (a b : regex) : regex :=
  match b with
  | Empty => a
  | _ => Seq a b
  end.

Definition is_special (c : char) : bool :=
  existsb (N.eqb c) (str ".^$*+?{}[]\|()").

Definition is_ascii_digit (c : char) : bool := (48 <=? c)%N && (c <=? 57)%N.

Definition is_ascii_alnum (c : char) : bool :=
  is_ascii_digit c || ((65 <=? c)%N && (c <=? 90)%N) || ((97 <=? c)%N && (c <=? 122)%N).

Fixpoint parse_nat (acc : nat) (s : ustring) : nat * ustring :=
  match s with
  | c :: r => if is_ascii_digit c then parse_nat (acc * 10 + N.to_nat (c - 48)) r
              else (acc, s)
  | [] => (acc, [])
  end.

(** The quantifier that follows an atom, if any: [*], [+], [?], [{m}],
    [{m,}] or [{m,n}].  A quantifier followed by [?] or [+] (lazy and
    possessive forms) or by another quantifier is not part of the fragment. *)
Definition parse_quantifier (a : regex) (s : ustring) : option (regex * ustring) :=
  let quantified :=
    match s with
    | 42%N :: r => Some (Repeat a 0 None, r)
    | 43%N :: r => Some (Repeat a 1 None, r)
    | 63%N :: r => Some (Repeat a 0 (Some 1), r)
    | 123%N :: (c :: _) as r =>
        if is_ascii_digit c then
          let (m, r1) := parse_nat 0 r in
          match r1 with
          | 125%N :: r2 => Some (Repeat a m (Some m), r2)
          | 44%N :: 125%N :: r2 => Some (Repeat a m None, r2)
          | 44%N :: (c' :: _) as r2 =>
              if is_ascii_digit c' then
                let (n, r3) := parse_nat 0 r2 in
                match r3 with
                | 125%N :: r4 => Some (Repeat a m (Some n), r4)
                | _ => None
                end
              else None
          | _ => None
          end
        else None
    | 123%N :: [] => None
    | _ => Some (a, s)
    end in
  match quantified with
  | Some (Repeat _ _ _ as q, c :: r) =>
      if existsb (N.eqb c) (str "*+?{") then None else Some (q, c :: r)
  | other => other
  end.

(** [parse_alt] reads alternatives up to a closing parenthesis or the end;
    [parse_seq] reads one alternative; [parse_atom] one atom.  [next] is the
    number the next capturing group gets: groups are numbered by their
    opening parenthesis. *)
Fixpoint parse_alt (fuel next : nat) (s : ustring) : option (regex * nat * ustring) :=
  match fuel with
  | O => None
  | S fuel' =>
      match parse_seq fuel' next s with
      | Some (a, next1, 124%N :: r) =>
          match parse_alt fuel' next1 r with
          | Some (b, next2, r') => Some (Alt a b, next2, r')
          | None => None
          end
      | other => other
      end
  end

with parse_seq (fuel next : nat) (s : ustring) : option (regex * nat * ustring) :=
  match fuel with
  | O => None
  | S fuel' =>
      match s with
      | [] => Some (Empty, next, [])
      | 124%N :: _ | 41%N :: _ => Some (Empty, next, s)
      | _ =>
          match parse_atom fuel' next s with
          | Some (a, next1, r) =>
              match parse_quantifier a r with
              | Some (q, r1) =>
                  match parse_seq fuel' next1 r1 with
                  | Some (b, next2, r2) => Some (seq q b, next2, r2)
                  | None => None
                  end
              | None => None
              end
          | None => None
          end
      end
  end

with parse_atom (fuel next : nat) (s : ustring) : option (regex * nat * ustring) :=
  match fuel with
  | O => None
  | S fuel' =>
      match s with
      | 92%N :: 100%N :: r => Some (Digit, next, r)
      | 92%N :: 115%N :: r => Some (Space, next, r)
      | 92%N :: c :: r =>
          if is_ascii_alnum c then None else Some (Lit c, next, r)
      | 40%N :: 63%N :: 58%N :: r =>
          match parse_alt fuel' next r with
          | Some (a, next1, 41%N :: r') => Some (a, next1, r')
          | _ => None
          end
      | 40%N :: 63%N :: _ => None
      | 40%N :: r =>
          match parse_alt fuel' (S next) r with
          | Some (a, next1, 41%N :: r') => Some (Group next a, next1, r')
          | _ => None
          end
      | c :: r => if is_special c then None else Some (Lit c, next, r)
      | [] => None
      end
  end.

(** [re.compile(pattern)]; [None] stands for [re.error] and for syntax
    outside the fragment above. *)
Definition compile (pattern : ustring) : option regex :=
  match parse_alt (3 * S (length pattern)) 1 pattern with
  | Some (r, _, []) => Some r
  | _ => None
  end.

(** *** Matching *)

(** The capture store: the text of each group that took part in the match,
    the latest binding first. *)
Definition groups := list (nat * ustring).

Fixpoint lookup (i : nat) (g : groups) : option ustring :=
  match g with
  | [] => None
  | (j, w) :: g' => if Nat.eqb i j then Some w else lookup i g'
  end.

(** A matching state: the input still to be read and the captures so far. *)
Definition state := (ustring * groups)%type.

(** A literal of the pattern against a character of the text, with or
    without [re.IGNORECASE] (the three literal opcodes of re/_compiler.py). *)
Definition lit_matches (ignorecase : bool) (c t : char) : bool :=
  if ignorecase && sre_iscased c
  then let lo := tolower c in existsb (N.eqb (tolower t)) (lo :: extra_cases lo)
  else (t =? c)%N.

Definition read (p : char -> bool) (st : state) : list state :=
  match fst st with
  | t :: rest => if p t then [(rest, snd st)] else []
  | [] => []
  end.

(** The part of [before] read on the way to [after], a suffix of it. *)
Definition consumed (before after : ustring) : ustring :=
  firstn (length before - length after) before.

(** Greedy repetition of [step]: first one more round, then stopping.  A
    round that reads nothing is not repeated; [fuel] exceeds the length of
    the input left. *)
Fixpoint repeat (step : state -> list state) (fuel lo : nat) (hi : option nat)
    (st : state) : list state :=
  match fuel with
  | O => []
  | S fuel' =>
      (match hi with
       | Some O => []
       | _ =>
           flat_map
             (fun st' =>
                if length (fst st') <? length (fst st)
                then repeat step fuel' (pred lo) (option_map pred hi) st'
                else [])
             (step st)
       end)
      ++ (match lo with O => [st] | S _ => [] end)
  end.

(** All the ways [r] matches at the head of the input, in the order the
    backtracking matcher tries them. *)
Fixpoint exec (ignorecase : bool) (r : regex) (st : state) : list state :=
  match r with
  | Empty => [st]
  | Lit c => read (lit_matches ignorecase c) st
  | Digit => read is_decimal st
  | Space => read is_space st
  | Seq a b => flat_map (exec ignorecase b) (exec ignorecase a st)
  | Alt a b => exec ignorecase a st ++ exec ignorecase b st
  | Repeat a lo hi => repeat (exec ignorecase a) (S (length (fst st))) lo hi st
  | Group i a =>
      map (fun st' => (fst st', (i, consumed (fst st) (fst st')) :: snd st'))
          (exec ignorecase a st)
  end.

(** [pattern.search(text)]: group 0 is the whole match. *)
Fixpoint search_regex (ignorecase : bool) (r : regex) (text : ustring) : option groups :=
  match exec ignorecase (Group 0 r) (text, []) with
  | st :: _ => Some (snd st)
  | [] =>
      match text with
      | [] => None
      | _ :: rest => search_regex ignorecase r rest
      end
  end.

(** [re.search(pattern, text, flags)] *)
Definition search (pattern text : ustring) (ignorecase : bool) : result (option groups) :=
  match compile pattern with
  | Some r => Ok (search_regex ignorecase r text)
  | None => Raise ReError
  end.

(** [match.group(i)]: [None] for a group that took no part in the match, as
    in Python.  (An index that names no group of the pattern would raise
    IndexError; the indices used below are groups of their patterns.) *)
Definition group (m : groups) (i : nat) : option ustring := lookup i m.

End Re.

(** ** The interpreter state and the monad of the embedding

    What a call can see or change apart from its argument: the lines written
    to standard output and the globals of the module ([openai.api_key],
    [app.config], the files of the upload folder).  Standard output is a text
    stream that takes every string, as a UTF-8 terminal or file does: [print]
    does not fail. *)

Record world : Type := mkWorld {
  stdout : list ustring;
  openai_api_key : ustring;
  app_config : list (ustring * ustring);
  uploads : list ustring
}.

Definition M (A : Type) : Type := world -> result A * world.

Definition ret {A : Type} (a : A) : M A := fun w => (Ok a, w).

Definition raise {A : Type} (e : exn) : M A := fun w => (Raise e, w).

Definition lift {A : Type} (r : result A) : M A := fun w => (r, w).

Definition bind {A B : Type} (m : M A) (k : A -> M B) : M B :=
  fun w =>
    match m w with
    | (Ok a, w') => k a w'
    | (Raise e, w') => (Raise e, w')
    end.

Definition print (line : ustring) : M unit :=
  fun w =>
    (Ok tt, mkWorld (stdout w ++ [line]) (openai_api_key w) (app_config w) (uploads w)).

Declare Scope py_scope.
Delimit Scope py_scope with py.
Notation "x <- m ;; k" := (bind m (fun x => k))
  (at level 61, m at next level, right associativity) : py_scope.
Notation "m ;; k" := (bind m (fun _ => k))
  (at level 61, right associativity) : py_scope.
Open Scope py_scope.

(** ** Entities

    An entity is the dict [{'field': ..., 'value': ..., 'confidence': ...}]. *)

Record entity : Type := mkEntity {
  field : ustring;
  value : ustring;
  confidence : ustring
}.

(** ** The keyword tables (dicts, in insertion order) *)

Definition loan_types : list (ustring * list ustring) :=
  [ (str "personal", [str "personal loan"; str "personal"; str "individual loan"]);
    (str "home", [str "home loan"; str "housing loan"; str "mortgage"; str "house loan";
                  str "property loan"; str "purchase a home"; str "purchase a house"]);
    (str "auto", [str "auto loan"; str "car loan"; str "vehicle loan"; str "automobile loan"]);
    (str "business", [str "business loan"; str "commercial loan"; str "enterprise loan";
                      str "business expansion"; str "expand my business"; str "new business"]);
    (str "education", [str "education loan"; str "student loan"; str "study loan"]) ].

Definition purpose_keywords : list (ustring * list ustring) :=
  [ (str "home_purchase", [str "buy home"; str "purchase home"; str "buying house";
                           str "home purchase"; str "buy a house"; str "purchase a home";
                           str "purchase a house"]);
    (str "renovation", [str "renovation"; str "remodel"; str "home improvement"]);
    (str "debt_consolidation", [str "debt consolidation"; str "consolidate debt";
                                str "pay off debts"]);
    (str "business_expansion", [str "business expansion"; str "expand business";
                                str "grow business"]);
    (str "education", [str "education"; str "study"; str "tuition"; str "college";
                       str "tuition fees"; str "college fees"]);
    (str "vehicle_purchase", [str "buy car"; str "purchase vehicle"; str "buying car"]);
    (str "medical", [str "medical"; str "healthcare"; str "hospital"]);
    (str "wedding", [str "wedding"; str "marriage"]) ].

Definition relationship_keywords : list (ustring * list ustring) :=
  [ (str "yes", [str "existing customer"; str "current customer"; str "already have account";
                 str "have account"; str "yes"; str "i have account";
                 str "i have account in your bank"]);
    (str "no", [str "no account"; str "new customer"; str "first time"; str "no relationship";
                str "no"; str "i don't have account"; str "i don't have account in your bank"]) ].

Definition employed_keywords : list ustring :=
  [str "employed"; str "working"; str "job"; str "work as"; str "working as";
   str "employed as"; str "full time"; str "full-time"; str "part time"; str "part-time";
   str "am a employee"; str "working professional"].

Definition self_employed_keywords : list ustring :=
  [str "self-employed"; str "self employed"; str "business owner"; str "own business";
   str "freelancer"; str "entrepreneur"].

Definition unemployed_keywords : list ustring :=
  [str "unemployed"; str "not employed"; str "not working"; str "no job"; str "jobless";
   str "am not employee"].

(** ** The pattern tables *)

Definition amount_patterns : list (ustring * ustring) :=
  [ (str "₹\s*(\d{1,3}(?:,\d{3})*)", str "direct");
    (str "(\d+(?:,\d{3})*)\s*(?:rupees?|rs\.?|inr)", str "direct");
    (str "(\d+(?:\.\d+)?)\s*(?:k|thousand)\s*(?:rupees?|rs\.?)?", str "thousand");
    (str "(\d+(?:\.\d+)?)\s*(?:lakh|lakhs?)", str "lakh");
    (str "(\d+(?:\.\d+)?)\s*(?:crore|crores?)", str "crore") ].

Definition income_patterns : list (ustring * ustring) :=
  [ (str "(?:salary|income|earn(?:ing)?|make)\s*(?:of|is|around|about)?\s*₹\s*(\d{1,3}(?:,\d{3})*)",
     str "direct");
    (str "(?:salary|income|earn(?:ing)?|make)\s*(?:of|is|around|about)?\s*(\d+(?:,\d{3})*)\s*(?:rupees?|rs\.?|inr)",
     str "direct");
    (str "(?:salary|income|earn(?:ing)?|make)\s*(?:of|is|around|about)?\s*(\d+(?:\.\d+)?)\s*(?:k|thousand)\s*(?:rupees?|rs\.?)?",
     str "thousand");
    (str "(?:salary|income|earn(?:ing)?|make)\s*(?:of|is|around|about)?\s*(\d+(?:\.\d+)?)\s*(?:lakh|lakhs?)",
     str "lakh");
    (str "(?:salary|income|earn(?:ing)?|make)\s*(?:of|is|around|about)?\s*(\d+(?:\.\d+)?)\s*(?:crore|crores?)",
     str "crore") ].

Definition timeline_patterns : list (ustring * ustring) :=
  [ (str "(\d+)\s*(?:years?|yrs?)", str "years");
    (str "(\d+)\s*(?:months?|mos?)", str "months");
    (str "(\d+)\s*to\s*(\d+)\s*(?:years?|yrs?)", str "years_range") ].

(** ** Keyword detectors (lines 151-162, 176-188 and 315-326)

    The three loops over a keyword table differ in the field they fill, in
    how the key is rendered, in the confidence and in the line they print. *)

Section KeywordScan.

Variable field_name : ustring.
Variable display : ustring -> ustring.
Variable confidence_level : ustring.
Variable message : ustring.
Variable text_lower : ustring.

(** [for keyword in keywords: if keyword in text_lower: ...; break] *)
Fixpoint scan_keywords (key : ustring) (keywords : list ustring)
    (entities : list entity) : M (list entity) :=
  match keywords with
  | [] => ret entities
  | keyword :: rest =>
      if Py.contains keyword text_lower then
        let entities := entities ++ [mkEntity field_name (display key) confidence_level] in
        print (message ++ display key) ;;
        ret entities
      else scan_keywords key rest entities
  end.

(** [for key, keywords in table.items(): ...;
     if any(entity['field'] == field_name for entity in entities): break] *)
Fixpoint scan_table (table : list (ustring * list ustring))
    (entities : list entity) : M (list entity) :=
  match table with
  | [] => ret entities
  | (key, keywords) :: rest =>
      entities <- scan_keywords key keywords entities ;;
      if existsb (fun entity => ustring_eqb (field entity) field_name) entities
      then ret entities
      else scan_table rest entities
  end.

End KeywordScan.

Definition loan_type_display (loan_type : ustring) : ustring :=
  Py.capitalize loan_type ++ str " Loan".

Definition purpose_display (purpose : ustring) : ustring :=
  Py.title (Py.replace (chr "_") (str " ") purpose).

(** ** The extractor, over the [float] it calls *)

Section Extractor.

(** The callable bound to the name [float]. *)
Variable float : ustring -> result Py.float64.

(** Lines 206-213 and 255-262: the [if]/[elif] chain on [conversion_type];
    with no branch taken the name stays unbound. *)
Definition to_rupees (numeral conversion_type : ustring) : M Py.float64 :=
  if ustring_eqb conversion_type (str "direct") then
    lift (float numeral)
  else if ustring_eqb conversion_type (str "thousand") then
    x <- lift (float numeral) ;; ret (Py.fmul x (Py.float_of_int 1000))
  else if ustring_eqb conversion_type (str "lakh") then
    x <- lift (float numeral) ;; ret (Py.fmul x (Py.float_of_int 100000))
  else if ustring_eqb conversion_type (str "crore") then
    x <- lift (float numeral) ;; ret (Py.fmul x (Py.float_of_int 10000000))
  else raise UnboundLocalError.

(** [f"₹{amount:,.0f}"] *)
Definition format_rupees (amount : Py.float64) : ustring :=
  str "₹" ++ Py.format_comma_0f amount.

(** [match.group(1).replace(',', '')] *)
Definition numeral_of (m : Re.groups) : M ustring :=
  match Re.group m 1 with
  | Some g => ret (Py.replace (chr ",") [] g)
  | None => raise AttributeError
  end.

(** Lines 200-222 *)
Fixpoint detect_amount (patterns : list (ustring * ustring)) (text_lower : ustring)
    (entities : list entity) : M (list entity) :=
  match patterns with
  | [] => ret entities
  | (pattern, conversion_type) :: rest =>
      m <- lift (Re.search pattern text_lower true) ;;
      match m with
      | Some m =>
          amount_str <- numeral_of m ;;
          amount <- to_rupees amount_str conversion_type ;;
          let entities :=
            entities ++ [mkEntity (str "loan_amount") (format_rupees amount) (str "high")] in
          print (str "  ✓ Found Loan Amount: " ++ format_rupees amount) ;;
          ret entities
      | None => detect_amount rest text_lower entities
      end
  end.

(** Lines 233-238 *)
Definition detect_employment_status (text_lower : ustring) : option ustring :=
  if existsb (fun keyword => Py.contains keyword text_lower) self_employed_keywords
  then Some (str "Self-Employed")
  else if existsb (fun keyword => Py.contains keyword text_lower) unemployed_keywords
  then Some (str "Unemployed")
  else if existsb (fun keyword => Py.contains keyword text_lower) employed_keywords
  then Some (str "Employed")
  else None.

(** Lines 249-265 *)
Fixpoint detect_income (patterns : list (ustring * ustring)) (text_lower : ustring)
    : M (option ustring) :=
  match patterns with
  | [] => ret None
  | (pattern, conversion_type) :: rest =>
      m <- lift (Re.search pattern text_lower true) ;;
      match m with
      | Some m =>
          income_str <- numeral_of m ;;
          income <- to_rupees income_str conversion_type ;;
          ret (Some (format_rupees income))
      | None => detect_income rest text_lower
      end
  end.

(** Truth value of a name holding [None] or a string *)
Definition truthy (o : option ustring) : bool :=
  match o with
  | Some (_ :: _) => true
  | _ => false
  end.

Definition append_if_set (parts : list ustring) (o : option ustring) : list ustring :=
  match o with
  | Some s => if truthy o then parts ++ [s] else parts
  | None => parts
  end.

(** Lines 269-277 *)
Definition employment_text (employment_status income_info : option ustring) : ustring :=
  let employment_text_parts := [] in
  let employment_text_parts := append_if_set employment_text_parts employment_status in
  let employment_text_parts := append_if_set employment_text_parts income_info in
  match employment_text_parts with
  | [] => str "Employed"
  | _ => Py.join (str " | ") employment_text_parts
  end.

(** Lines 268-284 *)
Definition combine_employment (employment_status income_info : option ustring)
    (entities : list entity) : M (list entity) :=
  if truthy employment_status || truthy income_info then
    let employment_text := employment_text employment_status income_info in
    let entities :=
      entities ++ [mkEntity (str "employment_income") employment_text (str "medium")] in
    print (str "  ✓ Found Employment/Income: " ++ employment_text) ;;
    ret entities
  else ret entities.

(** A group inside an f-string: [None] prints as its name. *)
Definition format_group (o : option ustring) : ustring :=
  match o with
  | Some w => w
  | None => str "None"
  end.

(** Lines 296-299 *)
Definition render_timeline (m : Re.groups) (timeline_type : ustring) : ustring :=
  if ustring_eqb timeline_type (str "years_range")
  then format_group (Re.group m 1) ++ str "-" ++ format_group (Re.group m 2) ++ str " years"
  else format_group (Re.group m 1) ++ str " " ++ timeline_type.

(** Lines 293-307 *)
Fixpoint detect_timeline (patterns : list (ustring * ustring)) (text_lower : ustring)
    (entities : list entity) : M (list entity) :=
  match patterns with
  | [] => ret entities
  | (pattern, timeline_type) :: rest =>
      m <- lift (Re.search pattern text_lower false) ;;
      match m with
      | Some m =>
          let timeline_value := render_timeline m timeline_type in
          let entities :=
            entities ++ [mkEntity (str "repayment_timeline") timeline_value (str "high")] in
          print (str "  ✓ Found Repayment Timeline: " ++ timeline_value) ;;
          ret entities
      | None => detect_timeline rest text_lower entities
      end
  end.

(** Lines 134-329 *)
Definition extract_with (text : ustring) : M (list entity) :=
  let entities := [] in
  let text_lower := Py.lower text in
  (* 1. Extract Loan Type *)
  entities <- scan_table (str "loan_type") loan_type_display (str "high")
                (str "  ✓ Found Loan Type: ") text_lower loan_types entities ;;
  (* 2. Extract Loan Purpose *)
  entities <- scan_table (str "loan_purpose") purpose_display (str "high")
                (str "  ✓ Found Loan Purpose: ") text_lower purpose_keywords entities ;;
  (* 3. Extract Loan Amount *)
  entities <- detect_amount amount_patterns text_lower entities ;;
  (* 4. Extract Employment and Income Information *)
  let employment_status := detect_employment_status text_lower in
  income_info <- detect_income income_patterns text_lower ;;
  entities <- combine_employment employment_status income_info entities ;;
  (* 5. Extract Repayment Timeline *)
  entities <- detect_timeline timeline_patterns text_lower entities ;;
  (* 6. Extract Bank Relationship *)
  entities <- scan_table (str "bank_relationship") Py.capitalize (str "medium")
                (str "  ✓ Found Bank Relationship: ") text_lower relationship_keywords
                entities ;;
  print (str "  ✓ Total entities extracted: " ++ Py.repr_int (N.of_nat (length entities))) ;;
  ret entities.

End Extractor.

(** [extract_loan_entities(text)], with the built-in [float] *)
Definition extract_loan_entities (text : ustring) : M (list entity) :=
  extract_with Py.float text.

(** ** Specification vocabulary *)

(** *** The language of a pattern

    [matches ic r w]: the pattern [r] can read exactly the text [w]. *)

Inductive matches (ic : bool) : Re.regex -> ustring -> Prop :=
| M_empty : matches ic Re.Empty []
| M_lit c t : Re.lit_matches ic c t = true -> matches ic (Re.Lit c) [t]
| M_digit t : Unicode.is_decimal t = true -> matches ic Re.Digit [t]
| M_space t : Unicode.is_space t = true -> matches ic Re.Space [t]
| M_seq a b u v : matches ic a u -> matches ic b v -> matches ic (Re.Seq a b) (u ++ v)
| M_alt_l a b u : matches ic a u -> matches ic (Re.Alt a b) u
| M_alt_r a b u : matches ic b u -> matches ic (Re.Alt a b) u
| M_stop a hi : matches ic (Re.Repeat a 0 hi) []
| M_more a lo hi u v :
    hi <> Some 0 -> matches ic a u ->
    matches ic (Re.Repeat a (pred lo) (option_map pred hi)) v ->
    matches ic (Re.Repeat a lo hi) (u ++ v)
| M_group i a u : matches ic a u -> matches ic (Re.Group i a) u.

(** Every capturing group of [r] only ever captures texts that satisfy the
    property [P] gives for its number. *)
Fixpoint respects (P : nat -> ustring -> Prop) (ic : bool) (r : Re.regex) : Prop :=
  match r with
  | Re.Group i a => (forall w, matches ic a w -> P i w) /\ respects P ic a
  | Re.Seq a b | Re.Alt a b => respects P ic a /\ respects P ic b
  | Re.Repeat a _ _ => respects P ic a
  | _ => True
  end.

(** The groups every match of [r] sets. *)
Fixpoint defines (r : Re.regex) : list nat :=
  match r with
  | Re.Group i a => i :: defines a
  | Re.Seq a b => defines a ++ defines b
  | Re.Repeat a (S _) _ => defines a
  | _ => []
  end.

Definition captures_ok (P : nat -> ustring -> Prop) (g : Re.groups) : Prop :=
  forall i w, Re.lookup i g = Some w -> P i w.

Definition is_set (i : nat) (g : Re.groups) : Prop := Re.lookup i g <> None.

(** A pattern of a table is in the fragment [Re.compile] reads. *)
Definition compiles (p : ustring * ustring) : Prop := Re.compile (fst p) <> None.

(** [nullable r]: [r] can read the empty text; [productive r]: every
    repeated part of [r] reads at least one character in each round. *)
Fixpoint nullable (r : Re.regex) : bool :=
  match r with
  | Re.Empty => true
  | Re.Lit _ | Re.Digit | Re.Space => false
  | Re.Seq a b => nullable a && nullable b
  | Re.Alt a b => nullable a || nullable b
  | Re.Repeat a lo _ => Nat.eqb lo 0 || nullable a
  | Re.Group _ a => nullable a
  end.

Fixpoint productive (r : Re.regex) : bool :=
  match r with
  | Re.Seq a b | Re.Alt a b => productive a && productive b
  | Re.Repeat a _ _ => negb (nullable a) && productive a
  | Re.Group _ a => productive a
  | _ => true
  end.

(** The plain-years and the range pattern of [timeline_patterns], compiled. *)
Definition year_unit : Re.regex :=
  Re.Alt
    (Re.Seq (Re.Lit (chr "y")) (Re.Seq (Re.Lit (chr "e")) (Re.Seq (Re.Lit (chr "a"))
       (Re.Seq (Re.Lit (chr "r")) (Re.Repeat (Re.Lit (chr "s")) 0 (Some 1))))))
    (Re.Seq (Re.Lit (chr "y")) (Re.Seq (Re.Lit (chr "r"))
       (Re.Repeat (Re.Lit (chr "s")) 0 (Some 1)))).

Definition years_regex : Re.regex :=
  Re.Seq (Re.Group 1 (Re.Repeat Re.Digit 1 None))
    (Re.Seq (Re.Repeat Re.Space 0 None) year_unit).

Definition range_regex : Re.regex :=
  Re.Seq (Re.Group 1 (Re.Repeat Re.Digit 1 None))
    (Re.Seq (Re.Repeat Re.Space 0 None)
       (Re.Seq (Re.Lit (chr "t")) (Re.Seq (Re.Lit (chr "o"))
          (Re.Seq (Re.Repeat Re.Space 0 None)
             (Re.Seq (Re.Group 2 (Re.Repeat Re.Digit 1 None))
                (Re.Seq (Re.Repeat Re.Space 0 None) year_unit)))))).

(** *** Runs of a computation *)

Definition add_lines (w : world) (lines : list ustring) : world :=
  mkWorld (stdout w ++ lines) (openai_api_key w) (app_config w) (uploads w).

(** [yields m r]: from every world, [m] returns [r] and leaves the world as
    it was but for some lines, the same from every world, added to the
    standard output. *)
Definition yields {A : Type} (m : M A) (r : result A) : Prop :=
  exists lines, forall w, m w = (r, add_lines w lines).

(** *** Detections, as values *)

(** The entity a detector appends, if it appends one. *)
Definition ent (field_name confidence_level : ustring) (o : option ustring) : list entity :=
  match o with
  | Some v => [mkEntity field_name v confidence_level]
  | None => []
  end.

(** One of the keywords occurs in the text. *)
Definition keyword_hit (text_lower : ustring) (keywords : list ustring) : bool :=
  existsb (fun keyword => Py.contains keyword text_lower) keywords.

(** The key of the first row of a keyword table one of whose keywords occurs
    in the text. *)
Definition first_keyword_hit (text_lower : ustring) (table : list (ustring * list ustring))
    : option ustring :=
  option_map fst (find (fun row => keyword_hit text_lower (snd row)) table).

(** The match of the first pattern of a table that matches, with the tag of
    that pattern. *)
Fixpoint first_match (ignorecase : bool) (text_lower : ustring)
    (patterns : list (ustring * ustring)) : option (Re.groups * ustring) :=
  match patterns with
  | [] => None
  | (pattern, tag) :: rest =>
      match Re.search pattern text_lower ignorecase with
      | Ok (Some m) => Some (m, tag)
      | _ => first_match ignorecase text_lower rest
      end
  end.

Definition empty_world : world := mkWorld [] [] [] [].

(** The value of [to_rupees], which does not touch the world. *)
Definition rupees (float : ustring -> result Py.float64) (numeral conversion_type : ustring)
    : result Py.float64 :=
  fst (to_rupees float numeral conversion_type empty_world).

(** The value of [numeral_of]. *)
Definition numeral (m : Re.groups) : result ustring :=
  match Re.group m 1 with
  | Some g => Ok (Py.replace (chr ",") [] g)
  | None => Raise AttributeError
  end.

(** What the first matching pattern of an amount or income table converts
    to: nothing when no pattern matches, else a value or an exception. *)
Definition converted (float : ustring -> result Py.float64) (text_lower : ustring)
    (patterns : list (ustring * ustring)) : option (result Py.float64) :=
  match first_match true text_lower patterns with
  | None => None
  | Some (m, conversion_type) =>
      Some match numeral m with
           | Ok s => rupees float s conversion_type
           | Raise e => Raise e
           end
  end.

Definition amount_text (c : option (result Py.float64)) : option ustring :=
  match c with
  | Some (Ok x) => Some (format_rupees x)
  | _ => None
  end.

Definition employment_value (employment_status income_info : option ustring)
    : option ustring :=
  if truthy employment_status || truthy income_info
  then Some (employment_text employment_status income_info)
  else None.

Definition timeline_of (text_lower : ustring) : option ustring :=
  option_map (fun mt => render_timeline (fst mt) (snd mt))
    (first_match false text_lower timeline_patterns).

(** The result of the extractor as a value: the exception of the amount or
    of the income conversion if one is raised, else the detections in the
    order of the detectors. *)
Definition extract_spec (float : ustring -> result Py.float64) (text : ustring)
    : result (list entity) :=
  let text_lower := Py.lower text in
  let amount := converted float text_lower amount_patterns in
  let income := converted float text_lower income_patterns in
  match amount, income with
  | Some (Raise e), _ => Raise e
  | _, Some (Raise e) => Raise e
  | _, _ =>
      Ok (ent (str "loan_type") (str "high")
            (option_map loan_type_display (first_keyword_hit text_lower loan_types))
          ++ ent (str "loan_purpose") (str "high")
               (option_map purpose_display (first_keyword_hit text_lower purpose_keywords))
          ++ ent (str "loan_amount") (str "high") (amount_text amount)
          ++ ent (str "employment_income") (str "medium")
               (employment_value (detect_employment_status text_lower) (amount_text income))
          ++ ent (str "repayment_timeline") (str "high") (timeline_of text_lower)
          ++ ent (str "bank_relationship") (str "medium")
               (option_map Py.capitalize (first_keyword_hit text_lower relationship_keywords)))
  end.

Definition has_field (field_name : ustring) (entities : list entity) : bool :=
  existsb (fun entity => ustring_eqb (field entity) field_name) entities.

(** The six fields, in the order of their detectors. *)
Definition field_order : list ustring :=
  [str "loan_type"; str "loan_purpose"; str "loan_amount"; str "employment_income";
   str "repayment_timeline"; str "bank_relationship"].

(** [sub] keeps some elements of [full], in their order. *)
Fixpoint subsequence (sub full : list ustring) : bool :=
  match sub, full with
  | [], _ => true
  | _ :: _, [] => false
  | a :: sub', b :: full' =>
      if ustring_eqb a b then subsequence sub' full' else subsequence sub full'
  end.

(** *** Numerals

    A captured numeral is fine when [float] accepts it once its commas are
    removed. *)

Definition numeral_ok (w : ustring) : Prop :=
  exists x, Py.float (Py.replace (chr ",") [] w) = Ok x.

Definition numeral_group (i : nat) (w : ustring) : Prop := i = 1 -> numeral_ok w.

Definition known_tag (ct : ustring) : Prop :=
  In ct [str "direct"; str "thousand"; str "lakh"; str "crore"].

Definition numeric_pattern (p : ustring * ustring) : Prop :=
  exists r, Re.compile (fst p) = Some r /\ respects numeral_group true r
            /\ In 1 (defines r) /\ known_tag (snd p).

(** The entities of a run in which nothing is raised: one optional detection
    per field. *)
Definition detections (o1 o2 o3 o4 o5 o6 : option ustring) : list entity :=
  ent (str "loan_type") (str "high") o1
  ++ ent (str "loan_purpose") (str "high") o2
  ++ ent (str "loan_amount") (str "high") o3
  ++ ent (str "employment_income") (str "medium") o4
  ++ ent (str "repayment_timeline") (str "high") o5
  ++ ent (str "bank_relationship") (str "medium") o6.

Definition is_some {A : Type} (o : option A) : bool :=
  match o with
  | Some _ => true
  | None => false
  end.

(** *** More vocabulary for the detectors *)

(** The entity of a field in a result, if the result has one. *)
Definition entity_of (field_name : ustring) (entities : list entity) : option entity :=
  find (fun e => ustring_eqb (field e) field_name) entities.

(** An income pattern is an amount pattern behind an indicator word, blanks,
    an optional filler word and blanks: compiled, it is the compiled amount
    pattern with those four parts before it. *)
Definition income_extends (income amount : ustring * ustring) : Prop :=
  exists a b c d t,
    Re.compile (fst income) = Some (Re.Seq a (Re.Seq b (Re.Seq c (Re.Seq d t))))
    /\ Re.compile (fst amount) = Some t
    /\ productive t = true.

(** A non-empty run of decimal digits, which is what group 1 of a timeline
    pattern captures. *)
Definition digit_run (w : ustring) : Prop :=
  w <> [] /\ forallb Unicode.is_decimal w = true.



(** A text holds a decimal digit. *)
Definition has_digit (s : ustring) : bool := existsb Unicode.is_decimal s.

(** Every text of [r] holds a decimal digit. *)
Fixpoint needs_digit (r : Re.regex) : bool :=
  match r with
  | Re.Digit => true
  | Re.Seq a b => needs_digit a || needs_digit b
  | Re.Alt a b => needs_digit a && needs_digit b
  | Re.Repeat a (S _) _ => needs_digit a
  | Re.Group _ a => needs_digit a
  | _ => false
  end.

Definition digit_pattern (p : ustring * ustring) : Prop :=
  exists r, Re.compile (fst p) = Some r /\ needs_digit r = true.

(** A row of the lower-case table keeps clear of the decimal digits, on both
    sides. *)
Definition row_clear (row : N * N * N * N) : bool :=
  let '(start, count, stride, target) := row in
  forallb (fun b => (start + (count - 1) * stride <? b)%N || (b + 10 <=? start)%N)
    Unicode.decimal_blocks
  && forallb (fun b => (target + (count - 1) * stride <? b)%N || (b + 10 <=? target)%N)
       Unicode.decimal_blocks.

(** * The request handlers

    The functions around the extractor: [upload_audio] (lines 43-107) with
    [transcribe_audio] (110-131), [get_recordings] (332-356) and
    [submit_application] (400-460) with [_ensure_csv_header] (359-368) and
    [_ensure_db] (371-397).  They run in a state that holds, beside the
    standard output, the files of the upload folder, the clock, the
    applications table and what becomes of each input or output operation. *)

(** ** More of the Python runtime *)

(** [s.endswith(suffix)] *)
Definition endswith (suffix s : ustring) : bool := Py.startswith (rev suffix) (rev s).

(** [posixpath.join(a, b)] *)
Definition path_join (a b : ustring) : ustring :=
  if Py.startswith (str "/") b then b
  else if Py.is_nil a || endswith (str "/") a then a ++ b
  else a ++ str "/" ++ b.

(** [%0<width>d] of a non-negative integer *)
Definition zero_pad (width : nat) (n : N) : ustring :=
  let digits := Py.repr_int n in
  List.repeat 48%N (width - length digits) ++ digits.

(** [format(x, '.2f')] *)
Definition format_2f (x : Py.float64) : ustring :=
  match x with
  | Py.Finite n k =>
      let hundredths := Py.round_half_even (n * 100) (2 ^ N.of_nat k) in
      Py.repr_int (hundredths / 100) ++ str "." ++ zero_pad 2 (hundredths mod 100)
  | Py.Infinity => str "inf"
  | Py.NaN => str "nan"
  end.

(** [f'{file_size / 1024:.2f} KB']: the quotient of two [int]s is the
    nearest float. *)
Definition size_kb (file_size : N) : ustring :=
  format_2f (Py.of_ratio file_size 1024) ++ str " KB".

(** A naive [datetime] *)
Record datetime : Type := mkDatetime {
  year : N;
  month : N;
  day : N;
  hour : N;
  minute : N;
  second : N;
  microsecond : N
}.

(** [t.strftime('%Y%m%d_%H%M%S')]; [%Y] is the year as the C library prints
    it, without padding. *)
Definition strftime_compact (t : datetime) : ustring :=
  Py.repr_int (year t) ++ zero_pad 2 (month t) ++ zero_pad 2 (day t) ++ str "_"
  ++ zero_pad 2 (hour t) ++ zero_pad 2 (minute t) ++ zero_pad 2 (second t).

(** [t.strftime('%Y-%m-%d %H:%M:%S')] *)
Definition strftime_readable (t : datetime) : ustring :=
  Py.repr_int (year t) ++ str "-" ++ zero_pad 2 (month t) ++ str "-" ++ zero_pad 2 (day t)
  ++ str " " ++ zero_pad 2 (hour t) ++ str ":" ++ zero_pad 2 (minute t) ++ str ":"
  ++ zero_pad 2 (second t).

(** [t.isoformat()]: the microseconds are left out when they are zero. *)
Definition isoformat (t : datetime) : ustring :=
  zero_pad 4 (year t) ++ str "-" ++ zero_pad 2 (month t) ++ str "-" ++ zero_pad 2 (day t)
  ++ str "T" ++ zero_pad 2 (hour t) ++ str ":" ++ zero_pad 2 (minute t) ++ str ":"
  ++ zero_pad 2 (second t)
  ++ (if (microsecond t =? 0)%N then [] else str "." ++ zero_pad 6 (microsecond t)).

(** The UTF-8 encoding of a text without surrogates *)
Definition utf8_encode_char (c : char) : list N :=
  if (c <? 128)%N then [c]
  else if (c <? 2048)%N then [192 + c / 64; 128 + c mod 64]%N
  else if (c <? 65536)%N then [224 + c / 4096; 128 + (c / 64) mod 64; 128 + c mod 64]%N
  else [240 + c / 262144; 128 + (c / 4096) mod 64; 128 + (c / 64) mod 64;
        128 + c mod 64]%N.

Definition utf8_encode (s : ustring) : list N := flat_map utf8_encode_char s.

Definition is_surrogate (c : char) : bool := (55296 <=? c)%N && (c <=? 57343)%N.

(** ** Values, exceptions, requests and responses *)

(** The values a JSON body holds and a response is built from.  Of a float
    the handlers use the truth value and the text [repr] gives. *)
#[warnings="-register-all"]
Inductive pyvalue : Type :=
| VNone
| VBool (b : bool)
| VInt (z : Z)
| VFloat (nonzero : bool) (text : ustring)
| VStr (s : ustring)
| VList (items : list pyvalue)
| VDict (items : list (ustring * pyvalue)).

(** [bool(v)] *)
Definition py_truthy (v : pyvalue) : bool :=
  match v with
  | VNone => false
  | VBool b => b
  | VInt z => negb (z =? 0)%Z
  | VFloat nonzero _ => nonzero
  | VStr s => negb (Py.is_nil s)
  | VList [] | VDict [] => false
  | VList _ | VDict _ => true
  end.

(** [type(v).__name__] *)
Definition type_name (v : pyvalue) : ustring :=
  match v with
  | VNone => str "NoneType"
  | VBool _ => str "bool"
  | VInt _ => str "int"
  | VFloat _ _ => str "float"
  | VStr _ => str "str"
  | VList _ => str "list"
  | VDict _ => str "dict"
  end.

(** [str(z)] *)
Definition repr_Z (z : Z) : ustring :=
  if (z <? 0)%Z then str "-" ++ Py.repr_int (Z.to_N (- z)) else Py.repr_int (Z.to_N z).

(** An exception object, an instance of [Exception], as far as the handlers
    look at it: whether it is an instance of [openai.APIError], of
    [openai.AuthenticationError], and the text [str(e)]. *)
Record exception : Type := mkException {
  is_api_error : bool;
  is_authentication_error : bool;
  message : ustring
}.

Inductive outcome (A : Type) : Type :=
| Done (a : A)
| Fail (e : exception).

Arguments Done {A} a.
Arguments Fail {A} e.

(** [d[key]] and [key in d] on a dict in insertion order *)
Fixpoint item {A : Type} (key : ustring) (d : list (ustring * A)) : option A :=
  match d with
  | [] => None
  | (k, v) :: rest => if ustring_eqb k key then Some v else item key rest
  end.

(** A part of [request.files] (a werkzeug [FileStorage]) *)
Record file_storage : Type := mkFileStorage {
  filename : ustring;
  stream : list N
}.

(** The request a handler sees: [request.files] and
    [request.get_json(force=True)], each a value or the exception that
    reading it raises. *)
Record request : Type := mkRequest {
  request_files : outcome (list (ustring * file_storage));
  request_json : outcome pyvalue
}.

(** [(jsonify(body), status)] *)
Record response : Type := mkResponse {
  body : list (ustring * pyvalue);
  status : N
}.

(** ** The state of the server *)

Record file : Type := mkFile {
  content : list N;
  changed : datetime
}.

(** The regular files on disk, by path. *)
Definition filesystem : Type := list (ustring * file).

(** Writing a file replaces the one of that path, or adds one. *)
Fixpoint store (path : ustring) (f : file) (fs : filesystem) : filesystem :=
  match fs with
  | [] => [(path, f)]
  | (p, g) :: rest =>
      if ustring_eqb p path then (p, f) :: rest else (p, g) :: store path f rest
  end.

(** The part of [s] after the prefix [p] *)
Fixpoint strip_prefix (p s : ustring) : option ustring :=
  match p, s with
  | [], _ => Some s
  | a :: p', b :: s' => if (a =? b)%N then strip_prefix p' s' else None
  | _ :: _, [] => None
  end.

(** The names of the files directly in [folder], in the order of the disk
    (sub-folders are not modelled). *)
Definition names_in (folder : ustring) (fs : filesystem) : list ustring :=
  flat_map
    (fun entry =>
       match strip_prefix (folder ++ str "/") (fst entry) with
       | Some name => if existsb (N.eqb 47) name || Py.is_nil name then [] else [name]
       | None => []
       end)
    fs.

(** [console]: the standard output; [api_key]: [openai.api_key]; [disk]: the
    files, but for the database uploads/applications.db and what SQLite
    keeps beside it; [now]: what [datetime.now()] returns; [applications]:
    the database, as the rows of its table [applications] in the order of
    their ids, or [None] while the table does not exist; [fate]: what becomes
    of the input and output operations to come, in their order: each one
    either goes through ([None]) or raises the exception given.  When [fate]
    runs out, operations go through. *)
Record server : Type := mkServer {
  console : list ustring;
  api_key : ustring;
  disk : filesystem;
  now : datetime;
  applications : option (list (list pyvalue));
  fate : list (option exception)
}.

Definition UPLOAD_FOLDER : ustring := str "uploads".

(** [app.config], as lines 21-22 leave it *)
Definition app_config_value : list (ustring * ustring) :=
  [(str "UPLOAD_FOLDER", UPLOAD_FOLDER); (str "MAX_CONTENT_LENGTH", str "16777216")].

(** The state as the extractor sees it. *)
Definition world_of (s : server) : world :=
  mkWorld (console s) (api_key s) app_config_value (names_in UPLOAD_FOLDER (disk s)).

(** What the environment of the handlers supplies: the transcription
    service ([openai.audio.transcriptions.create] on the key and the bytes of
    the file: the text, or the exception raised), and the exceptions and
    texts of the runtime that are not spelled out here: [str(e)] of an
    exception of the extractor, [str(v)] of a list or dict, the
    [UnicodeEncodeError] for a text with a surrogate, the [sqlite3] error for
    a parameter it cannot bind, the [FileNotFoundError] for a path. *)
Record runtime : Type := mkRuntime {
  whisper : ustring -> list N -> outcome ustring;
  describe : exn -> ustring;
  container_text : pyvalue -> ustring;
  encode_error : ustring -> exception;
  bind_error : nat -> pyvalue -> exception;
  missing_file : ustring -> exception
}.

(** ** The monad of the handlers: state and exceptions *)

Module IO.

Definition t (A : Type) : Type := server -> outcome A * server.

Definition ret {A : Type} (a : A) : t A := fun s => (Done a, s).

Definition raise {A : Type} (e : exception) : t A := fun s => (Fail e, s).

Definition bind {A B : Type} (m : t A) (k : A -> t B) : t B :=
  fun s =>
    match m s with
    | (Done a, s') => k a s'
    | (Fail e, s') => (Fail e, s')
    end.

(** [try: body except Exception as e: handler(e)] *)
Definition try_except {A : Type} (body : t A) (handler : exception -> t A) : t A :=
  fun s =>
    match body s with
    | (Done a, s') => (Done a, s')
    | (Fail e, s') => handler e s'
    end.

Definition lift {A : Type} (o : outcome A) : t A := fun s => (o, s).

Definition get : t server := fun s => (Done s, s).

Definition set_console (lines : list ustring) (s : server) : server :=
  mkServer lines (api_key s) (disk s) (now s) (applications s) (fate s).

Definition set_api_key (key : ustring) (s : server) : server :=
  mkServer (console s) key (disk s) (now s) (applications s) (fate s).

Definition set_disk (fs : filesystem) (s : server) : server :=
  mkServer (console s) (api_key s) fs (now s) (applications s) (fate s).

Definition set_applications (rows : option (list (list pyvalue))) (s : server) : server :=
  mkServer (console s) (api_key s) (disk s) (now s) rows (fate s).

Definition set_fate (f : list (option exception)) (s : server) : server :=
  mkServer (console s) (api_key s) (disk s) (now s) (applications s) f.

Definition modify (f : server -> server) : t unit := fun s => (Done tt, f s).

(** [print(line)] *)
Definition print (line : ustring) : t unit :=
  modify (fun s => set_console (console s ++ [line]) s).

(** An input or output operation: the next entry of [fate] says whether it
    raises. *)
Definition attempt : t unit :=
  fun s =>
    match fate s with
    | Some e :: rest => (Fail e, set_fate rest s)
    | None :: rest => (Done tt, set_fate rest s)
    | [] => (Done tt, s)
    end.

End IO.

Declare Scope io_scope.
Delimit Scope io_scope with io.
Notation "x <- m ;; k" := (IO.bind m (fun x => k))
  (at level 61, m at next level, right associativity) : io_scope.
Notation "m ;; k" := (IO.bind m (fun _ => k))
  (at level 61, right associativity) : io_scope.

Section Handlers.

Local Open Scope io_scope.

Variable rt : runtime.

(** A call of a function of the extractor's monad: its lines go to the
    console, and an exception it raises becomes an exception object. *)
Definition call {A : Type} (m : M A) : IO.t A :=
  fun s =>
    let (r, w) := m (world_of s) in
    let s' := IO.set_api_key (openai_api_key w) (IO.set_console (stdout w) s) in
    match r with
    | Ok a => (Done a, s')
    | Raise e => (Fail (mkException false false (describe rt e)), s')
    end.

(** *** Files *)

(** [open(path, 'wb')] or [open(path, 'w')]: the file is there and empty. *)
Definition open_truncate (path : ustring) : IO.t unit :=
  IO.attempt ;;
  IO.modify (fun s => IO.set_disk (store path (mkFile [] (now s)) (disk s)) s).

(** [open(path, 'a')]: the file is there. *)
Definition open_append (path : ustring) : IO.t unit :=
  IO.attempt ;;
  IO.modify (fun s =>
               match item path (disk s) with
               | Some _ => s
               | None => IO.set_disk (store path (mkFile [] (now s)) (disk s)) s
               end).

(** Writing bytes at the end of an open file, up to closing it. *)
Definition write_bytes (path : ustring) (bytes : list N) : IO.t unit :=
  IO.attempt ;;
  IO.modify (fun s =>
               let before := match item path (disk s) with
                             | Some f => content f
                             | None => []
                             end in
               IO.set_disk (store path (mkFile (before ++ bytes) (now s)) (disk s)) s).

(** [open(path, 'rb')], read to the end *)
Definition read_bytes (path : ustring) : IO.t (list N) :=
  IO.attempt ;;
  s <- IO.get ;;
  match item path (disk s) with
  | Some f => IO.ret (content f)
  | None => IO.raise (missing_file rt path)
  end.

(** [audio_file.save(filepath)] *)
Definition save (audio_file : file_storage) (filepath : ustring) : IO.t unit :=
  open_truncate filepath ;;
  write_bytes filepath (stream audio_file).

(** [os.path.getsize(path)] and [os.path.getctime(path)] *)
Definition getsize (path : ustring) : IO.t N :=
  IO.attempt ;;
  s <- IO.get ;;
  match item path (disk s) with
  | Some f => IO.ret (N.of_nat (length (content f)))
  | None => IO.raise (missing_file rt path)
  end.

Definition getctime (path : ustring) : IO.t datetime :=
  IO.attempt ;;
  s <- IO.get ;;
  match item path (disk s) with
  | Some f => IO.ret (changed f)
  | None => IO.raise (missing_file rt path)
  end.

(** [os.listdir(folder)] *)
Definition listdir (folder : ustring) : IO.t (list ustring) :=
  IO.attempt ;;
  s <- IO.get ;;
  IO.ret (names_in folder (disk s)).

(** [os.path.exists(path)] *)
Definition path_exists (path : ustring) : IO.t bool :=
  s <- IO.get ;;
  IO.ret (match item path (disk s) with Some _ => true | None => false end).

(** [datetime.now()] *)
Definition datetime_now : IO.t datetime :=
  s <- IO.get ;;
  IO.ret (now s).

(** *** [csv.writer(f).writerow(row)], excel dialect *)

Definition csv_text (v : pyvalue) : ustring :=
  match v with
  | VNone => []
  | VBool true => str "True"
  | VBool false => str "False"
  | VInt z => repr_Z z
  | VFloat _ text => text
  | VStr s => s
  | VList _ | VDict _ => container_text rt v
  end.

Definition csv_special (c : char) : bool :=
  (c =? 44)%N || (c =? 34)%N || (c =? 13)%N || (c =? 10)%N.

(** A field with a comma, a quote or a line break goes between quotes, its
    quotes doubled. *)
Definition csv_field (s : ustring) : ustring :=
  if existsb csv_special s
  then 34%N :: flat_map (fun c => if (c =? 34)%N then [34; 34]%N else [c]) s ++ [34%N]
  else s.

Definition csv_line (fields : list ustring) : ustring :=
  match fields with
  | [[]] => [34; 34]%N
  | _ => Py.join [44%N] (map csv_field fields)
  end ++ [13; 10]%N.

(** The writer hands the whole line to [f.write], which encodes it. *)
Definition writerow (path : ustring) (row : list pyvalue) : IO.t unit :=
  let line := csv_line (map csv_text row) in
  if existsb is_surrogate line then IO.raise (encode_error rt line)
  else write_bytes path (utf8_encode line).

(** *** The applications table *)

(** What [sqlite3] binds to a parameter: [None], numbers that fit, strings
    that encode. *)
Definition bindable (v : pyvalue) : bool :=
  match v with
  | VNone | VBool _ | VFloat _ _ => true
  | VInt z => (- 2 ^ 63 <=? z)%Z && (z <? 2 ^ 63)%Z
  | VStr s => negb (existsb is_surrogate s)
  | VList _ | VDict _ => false
  end.

Fixpoint first_unbindable (i : nat) (row : list pyvalue) : option (nat * pyvalue) :=
  match row with
  | [] => None
  | v :: rest => if bindable v then first_unbindable (S i) rest else Some (i, v)
  end.

Definition no_such_table : exception :=
  mkException false false (str "no such table: applications").

(** [sqlite3.connect(db_path)], [conn.commit()], [conn.close()] *)
Definition db_connect (db_path : ustring) : IO.t unit := IO.attempt.

Definition db_close : IO.t unit := IO.attempt.

(** [CREATE TABLE IF NOT EXISTS applications ...]: takes effect as it is
    executed. *)
Definition db_create_table : IO.t unit :=
  IO.attempt ;;
  IO.modify (fun s =>
               match applications s with
               | Some _ => s
               | None => IO.set_applications (Some []) s
               end).

(** [INSERT INTO applications (...) VALUES (?, ...)]: the row is pending
    until the commit. *)
Definition db_insert (row : list pyvalue) : IO.t (list pyvalue) :=
  s <- IO.get ;;
  match applications s with
  | None => IO.raise no_such_table
  | Some _ =>
      match first_unbindable 0 row with
      | Some (i, v) => IO.raise (bind_error rt i v)
      | None => IO.attempt ;; IO.ret row
      end
  end.

Definition db_commit (pending : list (list pyvalue)) : IO.t unit :=
  IO.attempt ;;
  IO.modify (fun s =>
               match applications s with
               | Some rows => IO.set_applications (Some (rows ++ pending)) s
               | None => s
               end).

(** *** Lines 110-131 *)

Definition transcribe_audio (filepath : ustring) : IO.t ustring :=
  IO.try_except
    (audio_file <- read_bytes filepath ;;
     s <- IO.get ;;
     transcript <- IO.lift (whisper rt (api_key s) audio_file) ;;
     IO.ret transcript)
    (fun e =>
       if is_api_error e then
         let error_msg := str "OpenAI API error: " ++ message e in
         IO.print (str "✗ " ++ error_msg) ;;
         IO.ret error_msg
       else if is_authentication_error e then
         let error_msg := str "Authentication failed. Please check your API key." in
         IO.print (str "✗ " ++ error_msg) ;;
         IO.ret error_msg
       else
         let error_msg := str "Transcription failed: " ++ message e in
         IO.print (str "✗ " ++ error_msg) ;;
         IO.ret error_msg).

(** *** Lines 43-107 *)

Definition entity_value (e : entity) : pyvalue :=
  VDict [(str "field", VStr (field e)); (str "value", VStr (value e));
         (str "confidence", VStr (confidence e))].

(** [for entity in entities: print(f"  - {entity['field']}: {entity['value']}")] *)
Fixpoint print_entities (entities : list entity) : IO.t unit :=
  match entities with
  | [] => IO.ret tt
  | entity :: rest =>
      IO.print (str "  - " ++ field entity ++ str ": " ++ value entity) ;;
      print_entities rest
  end.

Definition upload_audio (request : request) : IO.t response :=
  IO.try_except
    (IO.print ([10%N] ++ List.repeat 61%N 50) ;;
     IO.print (str "📥 Received audio upload request") ;;
     files <- IO.lift (request_files request) ;;
     match item (str "audio") files with
     | None =>
         IO.print (str "✗ No audio file in request") ;;
         IO.ret (mkResponse [(str "error", VStr (str "No audio file provided"));
                             (str "success", VBool false)] 400)
     | Some audio_file =>
         if ustring_eqb (filename audio_file) [] then
           IO.print (str "✗ Empty filename") ;;
           IO.ret (mkResponse [(str "error", VStr (str "Empty file"));
                               (str "success", VBool false)] 400)
         else
           timestamp <- datetime_now ;;
           let timestamp := strftime_compact timestamp in
           let filename := str "recording_" ++ timestamp ++ str ".wav" in
           let filepath := path_join UPLOAD_FOLDER filename in
           save audio_file filepath ;;
           file_size <- getsize filepath ;;
           IO.print (str "✓ Audio saved: " ++ filename ++ str " (" ++ size_kb file_size
                     ++ str ")") ;;
           IO.print (str "→ Starting transcription...") ;;
           transcription <- transcribe_audio filepath ;;
           IO.print (str "✓ Transcription: " ++ transcription) ;;
           IO.print (str "→ Extracting loan entities...") ;;
           entities <- call (extract_loan_entities transcription) ;;
           IO.print (str "✓ Found " ++ Py.repr_int (N.of_nat (length entities))
                     ++ str " entities") ;;
           print_entities entities ;;
           let response_data :=
             [(str "message", VStr (str "Audio uploaded and transcribed successfully"));
              (str "filename", VStr filename);
              (str "size", VStr (size_kb file_size));
              (str "transcription", VStr transcription);
              (str "entities", VList (map entity_value entities));
              (str "success", VBool true)] in
           IO.print (str "✓ Sending response with "
                     ++ Py.repr_int (N.of_nat (length entities)) ++ str " entities") ;;
           IO.print (List.repeat 61%N 50 ++ [10%N]) ;;
           IO.ret (mkResponse response_data 200)
     end)
    (fun e =>
       IO.print (str "✗ Error uploading audio: " ++ message e) ;;
       IO.ret (mkResponse [(str "error", VStr (message e)); (str "success", VBool false)]
                 500)).

(** *** Lines 332-356 *)

Fixpoint collect_recordings (files : list ustring) (recordings : list pyvalue)
    : IO.t (list pyvalue) :=
  match files with
  | [] => IO.ret recordings
  | file :: rest =>
      if endswith (str ".wav") file then
        let filepath := path_join UPLOAD_FOLDER file in
        file_size <- getsize filepath ;;
        created <- getctime filepath ;;
        collect_recordings rest
          (recordings ++ [VDict [(str "filename", VStr file);
                                 (str "size", VStr (size_kb file_size));
                                 (str "created", VStr (strftime_readable created))]])
      else collect_recordings rest recordings
  end.

Definition get_recordings : IO.t response :=
  IO.try_except
    (files <- listdir UPLOAD_FOLDER ;;
     recordings <- collect_recordings files [] ;;
     IO.ret (mkResponse [(str "count", VInt (Z.of_nat (length recordings)));
                         (str "recordings", VList recordings)] 200))
    (fun e =>
       IO.print (str "✗ Error fetching recordings: " ++ message e) ;;
       IO.ret (mkResponse [(str "error", VStr (message e))] 500)).

(** *** Lines 359-368 *)

Definition _ensure_csv_header (csv_path : ustring) (headers : list ustring) : IO.t unit :=
  present <- path_exists csv_path ;;
  if negb present then
    IO.try_except
      (open_truncate csv_path ;;
       writerow csv_path (map VStr headers) ;;
       IO.print (str "✓ Created CSV with headers: " ++ csv_path))
      (fun e => IO.print (str "✗ Failed to create CSV: " ++ message e))
  else IO.ret tt.

(** *** Lines 371-397 *)

Definition _ensure_db (db_path : ustring) : IO.t unit :=
  conn <- IO.try_except
            (db_connect db_path ;; IO.ret true)
            (fun e =>
               IO.print (str "✗ Failed to ensure DB/table: " ++ message e) ;;
               IO.ret false) ;;
  if conn then
    IO.try_except
      (db_create_table ;; db_commit [])
      (fun e => IO.print (str "✗ Failed to ensure DB/table: " ++ message e)) ;;
    (* finally: try: conn.close() except: pass *)
    IO.try_except db_close (fun _ => IO.ret tt)
  else
    (* [conn] is not bound: [conn.close()] raises a NameError, passed over *)
    IO.ret tt.

(** *** Lines 400-460 *)

(** [data.get(key, '') if data else ''] *)
Definition field_or_empty (data : pyvalue) (key : ustring) : IO.t pyvalue :=
  if py_truthy data then
    match data with
    | VDict items =>
        IO.ret match item key items with
               | Some v => v
               | None => VStr []
               end
    | _ =>
        IO.raise (mkException false false
                    (str "'" ++ type_name data ++ str "' object has no attribute 'get'"))
    end
  else IO.ret (VStr []).

Definition headers : list ustring :=
  [str "timestamp"; str "loanType"; str "loanPurpose"; str "loanAmount";
   str "employmentIncome"; str "repaymentTimeline"; str "bankRelationship";
   str "transcription"; str "filename"].

(** [[record[h] for h in headers]] *)
Fixpoint record_row (record : list (ustring * pyvalue)) (hs : list ustring)
    : IO.t (list pyvalue) :=
  match hs with
  | [] => IO.ret []
  | h :: rest =>
      match item h record with
      | Some v => row <- record_row record rest ;; IO.ret (v :: row)
      | None => IO.raise (mkException false false (str "'" ++ h ++ str "'"))
      end
  end.

Definition submit_application (request : request) : IO.t response :=
  IO.try_except
    (data <- IO.lift (request_json request) ;;
     timestamp <- datetime_now ;;
     loanType <- field_or_empty data (str "loanType") ;;
     loanPurpose <- field_or_empty data (str "loanPurpose") ;;
     loanAmount <- field_or_empty data (str "loanAmount") ;;
     employmentIncome <- field_or_empty data (str "employmentIncome") ;;
     repaymentTimeline <- field_or_empty data (str "repaymentTimeline") ;;
     bankRelationship <- field_or_empty data (str "bankRelationship") ;;
     transcription <- field_or_empty data (str "transcription") ;;
     filename <- field_or_empty data (str "filename") ;;
     let record :=
       [(str "timestamp", VStr (isoformat timestamp));
        (str "loanType", loanType);
        (str "loanPurpose", loanPurpose);
        (str "loanAmount", loanAmount);
        (str "employmentIncome", employmentIncome);
        (str "repaymentTimeline", repaymentTimeline);
        (str "bankRelationship", bankRelationship);
        (str "transcription", transcription);
        (str "filename", filename)] in
     let csv_path := path_join UPLOAD_FOLDER (str "applications.csv") in
     _ensure_csv_header csv_path headers ;;
     open_append csv_path ;;
     row <- record_row record headers ;;
     writerow csv_path row ;;
     IO.print (str "✓ Application saved to CSV: " ++ csv_path) ;;
     let db_path := path_join UPLOAD_FOLDER (str "applications.db") in
     db_saved <-
       IO.try_except
         (_ensure_db db_path ;;
          db_connect db_path ;;
          values <- record_row record headers ;;
          pending <- db_insert values ;;
          db_commit [pending] ;;
          db_close ;;
          IO.print (str "✓ Application saved to DB: " ++ db_path) ;;
          IO.ret true)
         (fun e =>
            IO.print (str "✗ Error saving to DB: " ++ message e) ;;
            IO.ret false) ;;
     IO.ret (mkResponse [(str "success", VBool true);
                         (str "message", VStr (str "Application saved"));
                         (str "csv", VStr csv_path);
                         (str "db_saved", VBool db_saved);
                         (str "db", VStr db_path)] 200))
    (fun e =>
       IO.print (str "✗ Error saving application: " ++ message e) ;;
       IO.ret (mkResponse [(str "success", VBool false); (str "error", VStr (message e))]
                 500)).

End Handlers.

(** *** Vocabulary for the handlers *)

(** [leads m s P]: from the state [s], [m] returns a value, and the value
    and the state it leaves satisfy [P]. *)
Definition leads {A : Type} (m : IO.t A) (s : server) (P : A -> server -> Prop) : Prop :=
  exists a s', m s = (Done a, s') /\ P a s'.

(** [like d a s s']: the state [s'] has the files [d] and the applications
    table [a], and apart from these and the console it is as [s]. *)
Definition like (d : filesystem) (a : option (list (list pyvalue))) (s s' : server)
    : Prop :=
  disk s' = d /\ applications s' = a /\ api_key s' = api_key s /\ now s' = now s
  /\ fate s' = fate s.

(** [quiet s s']: only the console has changed. *)
Definition quiet (s s' : server) : Prop := like (disk s) (applications s) s s'.

(** The text [transcribe_audio] returns for an exception. *)
Definition failure_text (e : exception) : ustring :=
  if is_api_error e then str "OpenAI API error: " ++ message e
  else if is_authentication_error e
  then str "Authentication failed. Please check your API key."
  else str "Transcription failed: " ++ message e.

(** The name and the path of the recording saved at a time. *)
Definition recording_name (t : datetime) : ustring :=
  str "recording_" ++ strftime_compact t ++ str ".wav".

Definition recording_path (t : datetime) : ustring :=
  str "uploads/" ++ recording_name t.

(** What [transcribe_audio] makes of the answer of the service. *)
Definition transcript_of (answer : outcome ustring) : ustring :=
  match answer with
  | Done transcript => transcript
  | Fail e => failure_text e
  end.

(** The clock moves. *)
Definition set_now (t : datetime) (s : server) : server :=
  mkServer (console s) (api_key s) (disk s) t (applications s) (fate s).

(** The dict [get_recordings] makes for a file of the upload folder. *)
Definition recording_entry (fs : filesystem) (file_name : ustring) : pyvalue :=
  match item (path_join UPLOAD_FOLDER file_name) fs with
  | Some f =>
      VDict [(str "filename", VStr file_name);
             (str "size", VStr (size_kb (N.of_nat (length (content f)))));
             (str "created", VStr (strftime_readable (changed f)))]
  | None => VNone
  end.

(** The response to a successful upload. *)
Definition upload_response (t : datetime) (audio_file : file_storage)
    (transcription : ustring) (entities : list entity) : response :=
  mkResponse
    [(str "message", VStr (str "Audio uploaded and transcribed successfully"));
     (str "filename", VStr (recording_name t));
     (str "size", VStr (size_kb (N.of_nat (length (stream audio_file)))));
     (str "transcription", VStr transcription);
     (str "entities", VList (map entity_value entities));
     (str "success", VBool true)] 200.





(** The values a [datetime] takes. *)
Definition valid_datetime (t : datetime) : bool :=
  (1 <=? year t)%N && (year t <=? 9999)%N && (1 <=? month t)%N && (month t <=? 12)%N
  && (1 <=? day t)%N && (day t <=? 31)%N && (hour t <? 24)%N && (minute t <? 60)%N
  && (second t <? 60)%N && (microsecond t <? 1000000)%N.

(** Two times in the same second. *)
Definition same_second (t1 t2 : datetime) : Prop :=
  year t1 = year t2 /\ month t1 = month t2 /\ day t1 = day t2 /\ hour t1 = hour t2
  /\ minute t1 = minute t2 /\ second t1 = second t2.

(** The applications file, and what a submission puts in a column: the
    value of the key in a body that is an object, the empty string for a
    key that is not there and for a body that counts as false. *)
Definition applications_csv : ustring := str "uploads/applications.csv".







(** [keeps R m]: whatever [m] does, value or exception, the state it leaves
    is related by [R] to the one it starts from. *)
Definition keeps {A : Type} (R : server -> server -> Prop) (m : IO.t A) : Prop :=
  forall s, R s (snd (m s)).

(** The files and the table are as before. *)
Definition untouched (s s' : server) : Prop :=
  disk s' = disk s /\ applications s' = applications s /\ now s' = now s
  /\ api_key s' = api_key s.

(** Only the file of one path may have changed, and the table has not. *)
Definition only_file (path : ustring) (s s' : server) : Prop :=
  (forall p, p <> path -> item p (disk s') = item p (disk s))
  /\ applications s' = applications s /\ now s' = now s /\ api_key s' = api_key s.

(** No file has changed. *)
Definition same_files (s s' : server) : Prop :=
  disk s' = disk s /\ now s' = now s /\ api_key s' = api_key s.

(** Every file is still there, the file of [path] with its bytes followed
    by more, the others as they were. *)
Definition grown (path : ustring) (s s' : server) : Prop :=
  (forall p, p <> path -> item p (disk s') = item p (disk s))
  /\ (forall f, item path (disk s) = Some f ->
        exists f' more, item path (disk s') = Some f' /\ content f' = content f ++ more)
  /\ now s' = now s /\ api_key s' = api_key s.

(** What an upload may change: the file of the recording named after the
    clock. *)
Definition upload_frame (s s' : server) : Prop := only_file (recording_path (now s)) s s'.

(** *** A runtime, a server and requests to run the handlers on *)

(** A runtime whose transcription service gives one answer, and that
    renders every list or dict as "[5]". *)
Definition sample_runtime (answer : outcome ustring) : runtime :=
  mkRuntime (fun _ _ => answer) (fun _ => []) (fun _ => str "[5]")
    (fun _ => mkException false false []) (fun _ _ => mkException false false [])
    (fun _ => mkException false false []).

(** A server with an empty upload folder, on 17 May 2024 at 9:30:15. *)
Definition sample_server : server :=
  mkServer [] [] [] (mkDatetime 2024 5 17 9 30 15 120000) None [].

(** An upload of four bytes under the client's name "voice.webm". *)
Definition sample_upload : request :=
  mkRequest (Done [(str "audio", mkFileStorage (str "voice.webm") [82; 73; 70; 70]%N)])
    (Done VNone).


(** * Facts *)

(** ** The matcher is sound for the language of the pattern *)

Section MatcherSoundness.

Variable ic : bool.

Lemma read_inv (p : char -> bool) (st st' : Re.state) :
  In st' (Re.read p st) ->
  exists t, fst st = t :: fst st' /\ p t = true /\ snd st' = snd st.
Proof.
  unfold Re.read. destruct (fst st) as [|t rest] eqn:E; [intros []|].
  destruct (p t) eqn:Ep; [|intros []].
  intros [<-|[]]. exists t. simpl. auto.
Qed.

(** What [repeat] returns, once [step] is known to read texts of [a]. *)
Lemma repeat_sound (a : Re.regex) (step : Re.state -> list Re.state) :
  (forall st st', In st' (step st) ->
     exists w, fst st = w ++ fst st' /\ matches ic a w) ->
  forall fuel lo hi st st',
    In st' (Re.repeat step fuel lo hi st) ->
    exists w, fst st = w ++ fst st' /\ matches ic (Re.Repeat a lo hi) w.
Proof.
  intros Hstep. induction fuel as [|fuel IH]; intros lo hi st st' Hin; [destruct Hin|].
  simpl in Hin. apply in_app_or in Hin. destruct Hin as [Hmore|Hstop].
  - assert (Hhi : hi <> Some 0 /\
       In st' (flat_map (fun st1 =>
          if length (fst st1) <? length (fst st)
          then Re.repeat step fuel (pred lo) (option_map pred hi) st1 else [])
          (step st))).
    { destruct hi as [[|n]|]; [destruct Hmore| |]; split; auto; discriminate. }
    destruct Hhi as [Hhi Hin]. apply in_flat_map in Hin.
    destruct Hin as [st1 [H1 H2]].
    destruct (length (fst st1) <? length (fst st)); [|destruct H2].
    destruct (Hstep _ _ H1) as [u [Eu Mu]].
    destruct (IH _ _ _ _ H2) as [v [Ev Mv]].
    exists (u ++ v). split.
    + rewrite Eu, Ev. now rewrite app_assoc.
    + now apply M_more.
  - destruct lo; [|destruct Hstop]. destruct Hstop as [<-|[]].
    exists []. split; [reflexivity|constructor].
Qed.

Lemma exec_sound (r : Re.regex) :
  forall st st', In st' (Re.exec ic r st) ->
    exists w, fst st = w ++ fst st' /\ matches ic r w.
Proof.
  induction r as [|c| | |a IHa b IHb|a IHa b IHb|a IHa lo hi|i a IHa];
    intros st st' Hin; cbn [Re.exec] in Hin.
  - destruct Hin as [<-|[]]. exists []. split; [reflexivity|constructor].
  - apply read_inv in Hin. destruct Hin as [t [E [Hp _]]].
    exists [t]. split; [exact E|now constructor].
  - apply read_inv in Hin. destruct Hin as [t [E [Hp _]]].
    exists [t]. split; [exact E|now constructor].
  - apply read_inv in Hin. destruct Hin as [t [E [Hp _]]].
    exists [t]. split; [exact E|now constructor].
  - apply in_flat_map in Hin. destruct Hin as [st1 [H1 H2]].
    destruct (IHa _ _ H1) as [u [Eu Mu]]. destruct (IHb _ _ H2) as [v [Ev Mv]].
    exists (u ++ v). split; [rewrite Eu, Ev; now rewrite app_assoc|now constructor].
  - apply in_app_or in Hin. destruct Hin as [Hin|Hin].
    + destruct (IHa _ _ Hin) as [u [Eu Mu]]. exists u. split; [exact Eu|now apply M_alt_l].
    + destruct (IHb _ _ Hin) as [u [Eu Mu]]. exists u. split; [exact Eu|now apply M_alt_r].
  - eapply repeat_sound; [exact IHa|exact Hin].
  - apply in_map_iff in Hin. destruct Hin as [st1 [<- H1]].
    destruct (IHa _ _ H1) as [u [Eu Mu]]. exists u. split; [exact Eu|now constructor].
Qed.

Lemma consumed_app (w rest : ustring) : Re.consumed (w ++ rest) rest = w.
Proof.
  unfold Re.consumed. rewrite length_app.
  replace (length w + length rest - length rest) with (length w) by lia.
  rewrite firstn_app, Nat.sub_diag, firstn_all. simpl. now rewrite app_nil_r.
Qed.

(** *** Captures *)

Variable P : nat -> ustring -> Prop.

Lemma captures_ok_nil : captures_ok P [].
Proof. intros i w H. discriminate H. Qed.

Lemma captures_ok_cons (i : nat) (w : ustring) (g : Re.groups) :
  P i w -> captures_ok P g -> captures_ok P ((i, w) :: g).
Proof.
  intros Hw Hg j v. simpl. destruct (Nat.eqb j i) eqn:E.
  - apply Nat.eqb_eq in E. subst j. intros [= <-]. exact Hw.
  - apply Hg.
Qed.

Lemma repeat_captures (step : Re.state -> list Re.state) :
  (forall st st', captures_ok P (snd st) -> In st' (step st) -> captures_ok P (snd st')) ->
  forall fuel lo hi st st',
    captures_ok P (snd st) -> In st' (Re.repeat step fuel lo hi st) ->
    captures_ok P (snd st').
Proof.
  intros Hstep. induction fuel as [|fuel IH]; intros lo hi st st' Hg Hin; [destruct Hin|].
  simpl in Hin. apply in_app_or in Hin. destruct Hin as [Hmore|Hstop].
  - assert (Hin : In st' (flat_map (fun st1 =>
          if length (fst st1) <? length (fst st)
          then Re.repeat step fuel (pred lo) (option_map pred hi) st1 else [])
          (step st))).
    { destruct hi as [[|n]|]; [destruct Hmore| |]; auto. }
    apply in_flat_map in Hin. destruct Hin as [st1 [H1 H2]].
    destruct (length (fst st1) <? length (fst st)); [|destruct H2].
    eapply IH; [|exact H2]. eapply Hstep; eauto.
  - destruct lo; [|destruct Hstop]. now destruct Hstop as [<-|[]].
Qed.

Lemma exec_captures (r : Re.regex) :
  respects P ic r ->
  forall st st', captures_ok P (snd st) -> In st' (Re.exec ic r st) ->
    captures_ok P (snd st').
Proof.
  induction r as [|c| | |a IHa b IHb|a IHa b IHb|a IHa lo hi|i a IHa];
    intros Hr st st' Hg Hin; cbn [Re.exec] in Hin; simpl in Hr.
  - now destruct Hin as [<-|[]].
  - apply read_inv in Hin. destruct Hin as [t [_ [_ ->]]]. exact Hg.
  - apply read_inv in Hin. destruct Hin as [t [_ [_ ->]]]. exact Hg.
  - apply read_inv in Hin. destruct Hin as [t [_ [_ ->]]]. exact Hg.
  - destruct Hr as [Ha Hb]. apply in_flat_map in Hin. destruct Hin as [st1 [H1 H2]].
    eapply IHb; [exact Hb| |exact H2]. eapply IHa; eauto.
  - destruct Hr as [Ha Hb]. apply in_app_or in Hin. destruct Hin as [Hin|Hin].
    + eapply IHa; eauto.
    + eapply IHb; eauto.
  - eapply repeat_captures; [|exact Hg|exact Hin]. intros; eapply IHa; eauto.
  - destruct Hr as [Hi Ha]. apply in_map_iff in Hin. destruct Hin as [st1 [<- H1]].
    simpl. apply captures_ok_cons.
    + destruct (exec_sound _ _ _ H1) as [u [Eu Mu]]. rewrite Eu, consumed_app. now apply Hi.
    + eapply IHa; eauto.
Qed.

(** *** Groups that are always set *)

Lemma repeat_keeps (i : nat) (step : Re.state -> list Re.state) :
  (forall st st', is_set i (snd st) -> In st' (step st) -> is_set i (snd st')) ->
  forall fuel lo hi st st',
    is_set i (snd st) -> In st' (Re.repeat step fuel lo hi st) -> is_set i (snd st').
Proof.
  intros Hstep. induction fuel as [|fuel IH]; intros lo hi st st' Hg Hin; [destruct Hin|].
  simpl in Hin. apply in_app_or in Hin. destruct Hin as [Hmore|Hstop].
  - assert (Hin : In st' (flat_map (fun st1 =>
          if length (fst st1) <? length (fst st)
          then Re.repeat step fuel (pred lo) (option_map pred hi) st1 else [])
          (step st))).
    { destruct hi as [[|n]|]; [destruct Hmore| |]; auto. }
    apply in_flat_map in Hin. destruct Hin as [st1 [H1 H2]].
    destruct (length (fst st1) <? length (fst st)); [|destruct H2].
    eapply IH; [|exact H2]. eapply Hstep; eauto.
  - destruct lo; [|destruct Hstop]. now destruct Hstop as [<-|[]].
Qed.

Lemma exec_keeps (i : nat) (r : Re.regex) :
  forall st st', is_set i (snd st) -> In st' (Re.exec ic r st) -> is_set i (snd st').
Proof.
  induction r as [|c| | |a IHa b IHb|a IHa b IHb|a IHa lo hi|j a IHa];
    intros st st' Hg Hin; cbn [Re.exec] in Hin.
  - now destruct Hin as [<-|[]].
  - apply read_inv in Hin. destruct Hin as [t [_ [_ E]]]. now rewrite E.
  - apply read_inv in Hin. destruct Hin as [t [_ [_ E]]]. now rewrite E.
  - apply read_inv in Hin. destruct Hin as [t [_ [_ E]]]. now rewrite E.
  - apply in_flat_map in Hin. destruct Hin as [st1 [H1 H2]]. eauto.
  - apply in_app_or in Hin. destruct Hin as [Hin|Hin]; eauto.
  - eapply repeat_keeps; [|exact Hg|exact Hin]. intros; eapply IHa; eauto.
  - apply in_map_iff in Hin. destruct Hin as [st1 [<- H1]].
    unfold is_set. simpl. destruct (Nat.eqb i j); [discriminate|]. eapply IHa; eauto.
Qed.

Lemma exec_defines (i : nat) (r : Re.regex) :
  In i (defines r) ->
  forall st st', In st' (Re.exec ic r st) -> is_set i (snd st').
Proof.
  induction r as [|c| | |a IHa b IHb|a IHa b IHb|a IHa lo hi|j a IHa];
    intros Hd st st' Hin; cbn [Re.exec] in Hin; simpl in Hd; try (now destruct Hd).
  - apply in_flat_map in Hin. destruct Hin as [st1 [H1 H2]].
    apply in_app_or in Hd. destruct Hd as [Hd|Hd].
    + eapply exec_keeps; [|exact H2]. eauto.
    + eauto.
  - destruct lo as [|lo]; [destruct Hd|].
    (* one round is made before the repetition may stop *)
    simpl in Hin. apply in_app_or in Hin. destruct Hin as [Hin|[]].
    assert (Hin' : In st' (flat_map (fun st1 =>
          if length (fst st1) <? length (fst st)
          then Re.repeat (Re.exec ic a) (length (fst st)) lo (option_map pred hi) st1 else [])
          (Re.exec ic a st))).
    { destruct hi as [[|n]|]; [destruct Hin| |]; auto. }
    apply in_flat_map in Hin'. destruct Hin' as [st1 [H1 H2]].
    destruct (length (fst st1) <? length (fst st)); [|destruct H2].
    eapply repeat_keeps; [|eapply IHa; eauto|exact H2].
    intros; eapply exec_keeps; eauto.
  - apply in_map_iff in Hin. destruct Hin as [st1 [<- H1]].
    unfold is_set. simpl. destruct (Nat.eqb i j) eqn:E; [discriminate|].
    destruct Hd as [->|Hd]; [now rewrite Nat.eqb_refl in E|]. eapply IHa; eauto.
Qed.

(** *** Search *)

Lemma search_regex_inv (r : Re.regex) (text : ustring) (g : Re.groups) :
  Re.search_regex ic r text = Some g ->
  exists prefix suffix rest,
    text = prefix ++ suffix /\ In (rest, g) (Re.exec ic (Re.Group 0 r) (suffix, [])).
Proof.
  induction text as [|t text IH]; cbn [Re.search_regex];
    match goal with
    | |- match ?e with _ => _ end = _ -> _ => destruct e as [|st l] eqn:E
    end.
  - intros H; discriminate H.
  - intros [= <-]. exists [], [], (fst st). split; [reflexivity|].
    pose proof (in_eq st l) as Hin. rewrite <- E in Hin.
    rewrite <- surjective_pairing. exact Hin.
  - intros H. destruct (IH H) as (prefix & suffix & rest & -> & Hin).
    now exists (t :: prefix), suffix, rest.
  - intros [= <-]. exists [], (t :: text), (fst st). split; [reflexivity|].
    pose proof (in_eq st l) as Hin. rewrite <- E in Hin.
    rewrite <- surjective_pairing. exact Hin.
Qed.

Lemma search_regex_captures (r : Re.regex) (text : ustring) (g : Re.groups) :
  respects P ic r -> (forall w, P 0 w) ->
  Re.search_regex ic r text = Some g -> captures_ok P g.
Proof.
  intros Hr H0 Hs. apply search_regex_inv in Hs.
  destruct Hs as (prefix & suffix & rest & _ & Hin).
  apply (exec_captures (Re.Group 0 r)) with (st := (suffix, [])) (st' := (rest, g)).
  - simpl. split; [intros; apply H0|exact Hr].
  - apply captures_ok_nil.
  - exact Hin.
Qed.

Lemma search_regex_defines (i : nat) (r : Re.regex) (text : ustring) (g : Re.groups) :
  In i (defines r) -> Re.search_regex ic r text = Some g -> is_set i g.
Proof.
  intros Hd Hs. apply search_regex_inv in Hs.
  destruct Hs as (prefix & suffix & rest & _ & Hin).
  apply (exec_defines i (Re.Group 0 r)) with (st := (suffix, [])) (st' := (rest, g)).
  - simpl. now right.
  - exact Hin.
Qed.

(** A match at any position makes the search succeed. *)
Lemma search_regex_some (r : Re.regex) (prefix suffix : ustring) (st : Re.state) :
  In st (Re.exec ic (Re.Group 0 r) (suffix, [])) ->
  Re.search_regex ic r (prefix ++ suffix) <> None.
Proof.
  intros Hin. induction prefix as [|t prefix IH].
  - destruct suffix as [|t suffix]; cbn [Re.search_regex app];
      match goal with
      | |- match ?e with _ => _ end <> _ => destruct e; [destruct Hin|discriminate]
      end.
  - cbn [Re.search_regex app].
    match goal with
    | |- match ?e with _ => _ end <> _ => destruct e; [exact IH|discriminate]
    end.
Qed.

(** *** The matcher finds every text of the language

    For patterns whose repeated parts are not nullable: the matcher never
    repeats a round that reads nothing. *)

Lemma nullable_false (r : Re.regex) (w : ustring) :
  matches ic r w -> nullable r = false -> w <> [].
Proof.
  induction 1 as [|c t Hl|t Ht|t Ht|a b u v Hu IHu Hv IHv|a b u Hu IHu|a b u Hu IHu
                  |a hi|a lo hi u v Hhi Hu IHu Hv IHv|i a u Hu IHu];
    cbn [nullable]; intros Hn; try discriminate.
  - apply andb_false_iff in Hn. intros E. apply app_eq_nil in E. destruct E as [-> ->].
    destruct Hn as [Hn|Hn]; [now apply IHu|now apply IHv].
  - apply orb_false_iff in Hn. now apply IHu.
  - apply orb_false_iff in Hn. now apply IHu.
  - apply orb_false_iff in Hn. destruct Hn as [_ Hn].
    intros E. apply app_eq_nil in E. destruct E as [-> _]. now apply IHu.
  - now apply IHu.
Qed.

Lemma repeat_fuel (step : Re.state -> list Re.state) :
  forall fuel1 fuel2 lo hi st,
    length (fst st) < fuel1 -> length (fst st) < fuel2 ->
    Re.repeat step fuel1 lo hi st = Re.repeat step fuel2 lo hi st.
Proof.
  induction fuel1 as [|fuel1 IH]; intros [|fuel2] lo hi st H1 H2; try lia.
  cbn [Re.repeat]. f_equal. destruct hi as [[|n]|]; [reflexivity| |];
    apply flat_map_ext; intros st';
    match goal with
    | |- context [if ?b then _ else _] => destruct b eqn:E
    end; try reflexivity; apply Nat.ltb_lt in E; apply IH;
    unfold ustring, char in *; lia.
Qed.

Lemma exec_complete (r : Re.regex) (w : ustring) :
  matches ic r w -> productive r = true ->
  forall rest g, exists g', In (rest, g') (Re.exec ic r (w ++ rest, g)).
Proof.
  induction 1 as [|c t Hl|t Ht|t Ht|a b u v Hu IHu Hv IHv|a b u Hu IHu|a b u Hu IHu
                  |a hi|a lo hi u v Hhi Hu IHu Hv IHv|i a u Hu IHu];
    cbn [productive]; intros Hp rest g.
  - exists g. now left.
  - exists g. cbn [Re.exec]. unfold Re.read. simpl. rewrite Hl. now left.
  - exists g. cbn [Re.exec]. unfold Re.read. simpl. rewrite Ht. now left.
  - exists g. cbn [Re.exec]. unfold Re.read. simpl. rewrite Ht. now left.
  - apply andb_true_iff in Hp. destruct Hp as [Ha Hb].
    destruct (IHu Ha (v ++ rest) g) as [g1 H1]. destruct (IHv Hb rest g1) as [g2 H2].
    exists g2. cbn [Re.exec]. rewrite <- app_assoc. apply in_flat_map. eauto.
  - apply andb_true_iff in Hp. destruct Hp as [Ha Hb].
    destruct (IHu Ha rest g) as [g1 H1]. exists g1. cbn [Re.exec]. apply in_or_app. now left.
  - apply andb_true_iff in Hp. destruct Hp as [Ha Hb].
    destruct (IHu Hb rest g) as [g1 H1]. exists g1. cbn [Re.exec]. apply in_or_app. now right.
  - exists g. cbn [Re.exec Re.repeat]. apply in_or_app. right. now left.
  - pose proof Hp as Hp'. apply andb_true_iff in Hp. destruct Hp as [Hn Ha].
    apply negb_true_iff in Hn.
    pose proof (nullable_false a u Hu Hn) as Hne.
    destruct (IHu Ha (v ++ rest) g) as [g1 H1].
    destruct (IHv Hp' rest g1) as [g2 H2].
    exists g2. cbn [Re.exec] in *. cbn [Re.repeat fst]. apply in_or_app. left.
    assert (Hlt : length (v ++ rest) < length ((u ++ v) ++ rest)).
    { rewrite <- app_assoc, (length_app u). destruct u; [contradiction|simpl; lia]. }
    assert (Hin : In (rest, g2)
              (flat_map
                 (fun st' : Re.state =>
                    if length (fst st') <? length ((u ++ v) ++ rest)
                    then Re.repeat (Re.exec ic a) (length ((u ++ v) ++ rest)) (pred lo)
                           (option_map pred hi) st'
                    else [])
                 (Re.exec ic a ((u ++ v) ++ rest, g)))).
    { apply in_flat_map. exists (v ++ rest, g1). split.
      - now rewrite <- app_assoc.
      - cbn [fst]. apply Nat.ltb_lt in Hlt. rewrite Hlt.
        apply Nat.ltb_lt in Hlt.
        rewrite (repeat_fuel (Re.exec ic a) _ (S (length (v ++ rest)))); cbn [fst];
          [exact H2|unfold ustring, char in *; lia|unfold ustring, char in *; lia]. }
    destruct hi as [[|n]|]; [now contradiction Hhi|exact Hin|exact Hin].
  - destruct (IHu Hp rest g) as [g1 H1].
    exists ((i, Re.consumed (u ++ rest) rest) :: g1). cbn [Re.exec].
    apply in_map_iff. exists (rest, g1). split; [reflexivity|exact H1].
Qed.

End MatcherSoundness.

(** ** The numerals the patterns capture are accepted by [float] *)

Lemma span_decimal_digits (a rest : ustring) :
  forallb Unicode.is_decimal a = true ->
  match rest with [] => True | c :: _ => Unicode.is_decimal c = false end ->
  Py.span_decimal (a ++ rest) = (a, rest).
Proof.
  intros Ha Hrest. induction a as [|c a IH]; simpl in *.
  - destruct rest as [|c rest]; [reflexivity|]. simpl. now rewrite Hrest.
  - apply andb_true_iff in Ha. destruct Ha as [Hc Ha]. now rewrite Hc, IH.
Qed.

Lemma float_digits (a : ustring) :
  forallb Unicode.is_decimal a = true -> a <> [] -> exists x, Py.float a = Ok x.
Proof.
  intros Ha Hne. unfold Py.float.
  pose proof (span_decimal_digits a [] Ha I) as E. rewrite app_nil_r in E. rewrite E.
  destruct a; [contradiction|]. simpl. eexists; reflexivity.
Qed.

Lemma float_fraction (a b : ustring) :
  forallb Unicode.is_decimal a = true -> a <> [] ->
  forallb Unicode.is_decimal b = true ->
  exists x, Py.float (a ++ chr "." :: b) = Ok x.
Proof.
  intros Ha Hne Hb. unfold Py.float.
  rewrite (span_decimal_digits a (chr "." :: b)); [|exact Ha|reflexivity].
  change (chr "." =? 46)%N with true. rewrite Hb.
  destruct a; [contradiction|]. simpl. eexists; reflexivity.
Qed.

Lemma replace_app (old : char) (new a b : ustring) :
  Py.replace old new (a ++ b) = Py.replace old new a ++ Py.replace old new b.
Proof. unfold Py.replace. apply flat_map_app. Qed.

Lemma digit_not (c d : char) :
  Unicode.is_decimal d = false -> Unicode.is_decimal c = true -> (c =? d)%N = false.
Proof.
  intros Hd Hc. destruct (N.eqb_spec c d) as [->|]; [congruence|reflexivity].
Qed.

Lemma replace_digits (a : ustring) :
  forallb Unicode.is_decimal a = true -> Py.replace 44%N [] a = a.
Proof.
  induction a as [|c a IH]; simpl; [reflexivity|].
  intros H. apply andb_true_iff in H. destruct H as [Hc Ha].
  rewrite (digit_not c 44%N); [|reflexivity|exact Hc]. simpl. now rewrite IH.
Qed.

(** Removing the commas from digits and commas leaves digits. *)
Lemma replace_grouped (a : ustring) :
  forallb (fun c => Unicode.is_decimal c || (c =? 44)%N) a = true ->
  forallb Unicode.is_decimal (Py.replace 44%N [] a) = true.
Proof.
  induction a as [|c a IH]; simpl; [reflexivity|].
  intros H. apply andb_true_iff in H. destruct H as [Hc Ha].
  destruct (c =? 44)%N eqn:E; simpl.
  - now apply IH.
  - rewrite orb_false_r in Hc. rewrite Hc. now apply IH.
Qed.

Section Shapes.

Variable ic : bool.

Lemma lit_uncased (c t : char) :
  Unicode.sre_iscased c = false -> Re.lit_matches ic c t = true -> t = c.
Proof.
  unfold Re.lit_matches. intros ->. rewrite andb_false_r. apply N.eqb_eq.
Qed.

(** A repetition reads only characters its body reads. *)
Lemma matches_repeat_forallb (p : char -> bool) (a : Re.regex) :
  (forall u, matches ic a u -> forallb p u = true) ->
  forall lo hi w, matches ic (Re.Repeat a lo hi) w -> forallb p w = true.
Proof.
  intros Ha lo hi w H. remember (Re.Repeat a lo hi) as r eqn:Er.
  revert lo hi Er. induction H; intros lo' hi' Er; try discriminate.
  - reflexivity.
  - injection Er as -> -> ->. rewrite forallb_app, (Ha _ H0). simpl.
    eapply IHmatches2. reflexivity.
Qed.

Lemma matches_digit (u : ustring) :
  matches ic Re.Digit u -> forallb Unicode.is_decimal u = true /\ u <> [].
Proof.
  intros H. inversion H as [| |t Ht| | | | | | |]; subst.
  simpl. rewrite Ht. split; [reflexivity|discriminate].
Qed.

Lemma matches_digits (lo : nat) (hi : option nat) (w : ustring) :
  matches ic (Re.Repeat Re.Digit lo hi) w -> forallb Unicode.is_decimal w = true.
Proof. apply matches_repeat_forallb. intros u H. now apply matches_digit. Qed.

Lemma matches_digits_nonempty (lo : nat) (hi : option nat) (w : ustring) :
  matches ic (Re.Repeat Re.Digit (S lo) hi) w -> w <> [].
Proof.
  intros H. inversion H; subst.
  match goal with Hd : matches ic Re.Digit _ |- _ => apply matches_digit in Hd; destruct Hd as [_ Hd] end.
  intros E. apply app_eq_nil in E. tauto.
Qed.

(** [\d{1,3}(?:,\d{3})*] and [\d+(?:,\d{3})*] *)
Lemma grouped_numeral_ok (lo : nat) (hi : option nat) (w : ustring) :
  matches ic
    (Re.Seq (Re.Repeat Re.Digit (S lo) hi)
       (Re.Repeat (Re.Seq (Re.Lit (chr ",")) (Re.Repeat Re.Digit 3 (Some 3))) 0 None)) w ->
  numeral_ok w.
Proof.
  change (chr ",") with 44%N.
  intros H. inversion H as [| | | |a b u v Hu Hv| | | | |]; subst.
  unfold numeral_ok. change (chr ",") with 44%N. rewrite replace_app.
  pose proof (matches_digits _ _ _ Hu) as Du.
  pose proof (matches_digits_nonempty _ _ _ Hu) as Nu.
  rewrite (replace_digits u Du).
  apply float_digits.
  - rewrite forallb_app, Du. simpl. apply replace_grouped.
    apply (matches_repeat_forallb
             (fun c => Unicode.is_decimal c || (c =? 44)%N)
             (Re.Seq (Re.Lit 44%N) (Re.Repeat Re.Digit 3 (Some 3)))) in Hv;
      [exact Hv|].
    intros x Hx. inversion Hx as [| | | |a' b' c d Hc Hd| | | | |]; subst.
    inversion Hc as [|c0 t Hl| | | | | | | |]; subst.
    apply lit_uncased in Hl; [|reflexivity]. subst.
    simpl. apply matches_digits in Hd. rewrite forallb_forall in Hd |- *.
    intros y Hy. now rewrite (Hd y Hy).
  - intros E. apply app_eq_nil in E. tauto.
Qed.

(** [\d+(?:\.\d+)?] *)
Lemma decimal_numeral_ok (w : ustring) :
  matches ic
    (Re.Seq (Re.Repeat Re.Digit 1 None)
       (Re.Repeat (Re.Seq (Re.Lit (chr ".")) (Re.Repeat Re.Digit 1 None)) 0 (Some 1))) w ->
  numeral_ok w.
Proof.
  change (chr ".") with 46%N.
  intros H. inversion H as [| | | |a b u v Hu Hv| | | | |]; subst.
  pose proof (matches_digits _ _ _ Hu) as Du.
  pose proof (matches_digits_nonempty _ _ _ Hu) as Nu.
  unfold numeral_ok. change (chr ",") with 44%N.
  inversion Hv as [| | | | | | |a hi|a lo hi x y Hhi Hx Hy|]; subst.
  - rewrite app_nil_r, (replace_digits u Du). now apply float_digits.
  - simpl in Hy. inversion Hy as [| | | | | | |a hi|a lo hi x' y' Hhi' _ _|]; subst;
      [|now contradiction Hhi'].
    rewrite app_nil_r.
    inversion Hx as [| | | |a' b' c d Hc Hd| | | | |]; subst.
    inversion Hc as [|c0 t Hl| | | | | | | |]; subst.
    apply lit_uncased in Hl; [|reflexivity]. subst.
    pose proof (matches_digits _ _ _ Hd) as Dd.
    rewrite !replace_app. cbn [Py.replace flat_map].
    change ((46 =? 44)%N) with false. cbn iota.
    fold (Py.replace 44%N [] d). rewrite (replace_digits u Du), (replace_digits d Dd).
    cbn [app]. now apply float_fraction.
Qed.

End Shapes.

(** ** Runs of the monadic code *)

Lemma add_lines_nil (w : world) : add_lines w [] = w.
Proof. destruct w. unfold add_lines. simpl. now rewrite app_nil_r. Qed.

Lemma add_lines_app (w : world) (l1 l2 : list ustring) :
  add_lines (add_lines w l1) l2 = add_lines w (l1 ++ l2).
Proof. unfold add_lines. simpl. now rewrite app_assoc. Qed.

Lemma yields_ret {A : Type} (a : A) : yields (ret a) (Ok a).
Proof. exists []. intros w. unfold ret. now rewrite add_lines_nil. Qed.

Lemma yields_raise {A : Type} (e : exn) : yields (@raise A e) (Raise e).
Proof. exists []. intros w. unfold raise. now rewrite add_lines_nil. Qed.

Lemma yields_lift {A : Type} (r : result A) : yields (lift r) r.
Proof. exists []. intros w. unfold lift. now rewrite add_lines_nil. Qed.

Lemma yields_print (line : ustring) : yields (print line) (Ok tt).
Proof. exists [line]. intros w. reflexivity. Qed.

Lemma yields_bind {A B : Type} (m : M A) (k : A -> M B) (a : A) (r : result B) :
  yields m (Ok a) -> yields (k a) r -> yields (bind m k) r.
Proof.
  intros [l1 H1] [l2 H2]. exists (l1 ++ l2). intros w.
  unfold bind. now rewrite H1, H2, add_lines_app.
Qed.

Lemma yields_bind_raise {A B : Type} (m : M A) (k : A -> M B) (e : exn) :
  yields m (Raise e) -> yields (bind m k) (Raise e).
Proof. intros [l H]. exists l. intros w. unfold bind. now rewrite H. Qed.

Lemma yields_fst {A : Type} (m : M A) (r : result A) (w : world) :
  yields m r -> fst (m w) = r.
Proof. intros [l H]. now rewrite H. Qed.

(** ** The keyword detectors *)

Lemma ustring_eqb_refl (a : ustring) : ustring_eqb a a = true.
Proof. unfold ustring_eqb. destruct (list_eq_dec N.eq_dec a a); congruence. Qed.

Lemma ustring_eqb_eq (a b : ustring) : ustring_eqb a b = true <-> a = b.
Proof.
  unfold ustring_eqb. destruct (list_eq_dec N.eq_dec a b); split; congruence.
Qed.

Lemma has_field_app (f : ustring) (l1 l2 : list entity) :
  has_field f (l1 ++ l2) = has_field f l1 || has_field f l2.
Proof. apply existsb_app. Qed.

Section KeywordFacts.

Variable field_name : ustring.
Variable display : ustring -> ustring.
Variable confidence_level : ustring.
Variable message : ustring.
Variable text_lower : ustring.

Lemma scan_keywords_yields (key : ustring) (keywords : list ustring) (entities : list entity) :
  yields
    (scan_keywords field_name display confidence_level message text_lower key keywords entities)
    (Ok (entities ++ ent field_name confidence_level
                       (if keyword_hit text_lower keywords then Some (display key) else None))).
Proof.
  induction keywords as [|keyword rest IH]; simpl.
  - rewrite app_nil_r. apply yields_ret.
  - unfold keyword_hit in *. simpl. destruct (Py.contains keyword text_lower); simpl.
    + eapply yields_bind; [apply yields_print|apply yields_ret].
    + exact IH.
Qed.

Lemma scan_table_yields (table : list (ustring * list ustring)) (entities : list entity) :
  has_field field_name entities = false ->
  yields
    (scan_table field_name display confidence_level message text_lower table entities)
    (Ok (entities ++ ent field_name confidence_level
                       (option_map display (first_keyword_hit text_lower table)))).
Proof.
  intros Hno. induction table as [|[key keywords] rest IH]; simpl.
  - rewrite app_nil_r. apply yields_ret.
  - eapply yields_bind; [apply scan_keywords_yields|].
    unfold first_keyword_hit. simpl.
    fold (has_field field_name
            (entities ++ ent field_name confidence_level
               (if keyword_hit text_lower keywords then Some (display key) else None))).
    rewrite has_field_app, Hno. destruct (keyword_hit text_lower keywords); simpl.
    + rewrite ustring_eqb_refl. simpl. apply yields_ret.
    + rewrite app_nil_r. exact IH.
Qed.

End KeywordFacts.

(** ** The pattern detectors *)

Lemma search_compiles (pattern text : ustring) (ic : bool) (e : exn) :
  Re.compile pattern <> None -> Re.search pattern text ic <> Raise e.
Proof. unfold Re.search. destruct (Re.compile pattern); [discriminate|contradiction]. Qed.

Section DetectorFacts.

Variable float : ustring -> result Py.float64.

Lemma to_rupees_yields (s ct : ustring) : yields (to_rupees float s ct) (rupees float s ct).
Proof.
  exists []. intros w. rewrite add_lines_nil. unfold rupees, to_rupees.
  repeat match goal with |- context [if ?b then _ else _] => destruct b end;
    unfold bind, lift, ret, raise; destruct (float s); reflexivity.
Qed.

Lemma numeral_of_yields (m : Re.groups) : yields (numeral_of m) (numeral m).
Proof.
  unfold numeral_of, numeral. destruct (Re.group m 1); [apply yields_ret|apply yields_raise].
Qed.

Lemma detect_amount_yields (patterns : list (ustring * ustring)) (text_lower : ustring)
    (entities : list entity) :
  Forall compiles patterns ->
  yields (detect_amount float patterns text_lower entities)
    match converted float text_lower patterns with
    | None => Ok entities
    | Some (Ok x) =>
        Ok (entities ++ [mkEntity (str "loan_amount") (format_rupees x) (str "high")])
    | Some (Raise e) => Raise e
    end.
Proof.
  unfold converted. induction 1 as [|[pattern ct] rest Hc _ IH]; cbn [detect_amount first_match].
  - apply yields_ret.
  - destruct (Re.search pattern text_lower true) as [[m|]|e] eqn:Es.
    + eapply yields_bind; [apply yields_lift|]. cbv beta iota.
      destruct (numeral m) as [s|e] eqn:En.
      * eapply yields_bind; [rewrite <- En; apply numeral_of_yields|].
        destruct (rupees float s ct) as [x|e] eqn:Er.
        -- eapply yields_bind; [rewrite <- Er; apply to_rupees_yields|].
           eapply yields_bind; [apply yields_print|apply yields_ret].
        -- apply yields_bind_raise. rewrite <- Er. apply to_rupees_yields.
      * apply yields_bind_raise. rewrite <- En. apply numeral_of_yields.
    + eapply yields_bind; [apply yields_lift|]. exact IH.
    + now apply search_compiles in Es.
Qed.

Lemma detect_income_yields (patterns : list (ustring * ustring)) (text_lower : ustring) :
  Forall compiles patterns ->
  yields (detect_income float patterns text_lower)
    match converted float text_lower patterns with
    | Some (Raise e) => Raise e
    | c => Ok (amount_text c)
    end.
Proof.
  unfold converted. induction 1 as [|[pattern ct] rest Hc _ IH]; cbn [detect_income first_match].
  - apply yields_ret.
  - destruct (Re.search pattern text_lower true) as [[m|]|e] eqn:Es.
    + eapply yields_bind; [apply yields_lift|]. cbv beta iota.
      destruct (numeral m) as [s|e] eqn:En.
      * eapply yields_bind; [rewrite <- En; apply numeral_of_yields|].
        destruct (rupees float s ct) as [x|e] eqn:Er.
        -- eapply yields_bind; [rewrite <- Er; apply to_rupees_yields|]. apply yields_ret.
        -- apply yields_bind_raise. rewrite <- Er. apply to_rupees_yields.
      * apply yields_bind_raise. rewrite <- En. apply numeral_of_yields.
    + eapply yields_bind; [apply yields_lift|]. exact IH.
    + now apply search_compiles in Es.
Qed.

End DetectorFacts.

Lemma combine_employment_yields (status income : option ustring) (entities : list entity) :
  yields (combine_employment status income entities)
    (Ok (entities ++ ent (str "employment_income") (str "medium")
                       (employment_value status income))).
Proof.
  unfold combine_employment, employment_value.
  destruct (truthy status || truthy income); simpl.
  - eapply yields_bind; [apply yields_print|apply yields_ret].
  - rewrite app_nil_r. apply yields_ret.
Qed.

Lemma detect_timeline_yields (patterns : list (ustring * ustring)) (text_lower : ustring)
    (entities : list entity) :
  Forall compiles patterns ->
  yields (detect_timeline patterns text_lower entities)
    (Ok (entities ++ ent (str "repayment_timeline") (str "high")
                       (option_map (fun mt => render_timeline (fst mt) (snd mt))
                          (first_match false text_lower patterns)))).
Proof.
  induction 1 as [|[pattern ty] rest Hc _ IH]; cbn [detect_timeline first_match].
  - rewrite app_nil_r. apply yields_ret.
  - destruct (Re.search pattern text_lower false) as [[m|]|e] eqn:Es.
    + eapply yields_bind; [apply yields_lift|]. cbv beta iota zeta.
      eapply yields_bind; [apply yields_print|apply yields_ret].
    + eapply yields_bind; [apply yields_lift|]. exact IH.
    + now apply search_compiles in Es.
Qed.

(** Every pattern of the three tables is in the fragment [Re.compile] reads. *)
Lemma amount_patterns_compile : Forall compiles amount_patterns.
Proof. repeat constructor; vm_compute; discriminate. Qed.

Lemma income_patterns_compile : Forall compiles income_patterns.
Proof. repeat constructor; vm_compute; discriminate. Qed.

Lemma timeline_patterns_compile : Forall compiles timeline_patterns.
Proof. repeat constructor; vm_compute; discriminate. Qed.

(** ** The extractor computes [extract_spec] *)

Lemma has_field_ent (f f' c : ustring) (o : option ustring) :
  ustring_eqb f f' = false -> has_field f' (ent f c o) = false.
Proof. intros H. destruct o; simpl; [now rewrite H|reflexivity]. Qed.

Theorem extract_with_yields (float : ustring -> result Py.float64) (text : ustring) :
  yields (extract_with float text) (extract_spec float text).
Proof.
  unfold extract_with, extract_spec. cbv zeta.
  set (tl := Py.lower text).
  eapply yields_bind; [apply scan_table_yields; reflexivity|]. cbn [app].
  eapply yields_bind.
  { apply scan_table_yields. now apply has_field_ent. }
  pose proof (detect_amount_yields float amount_patterns tl
                (ent (str "loan_type") (str "high")
                   (option_map loan_type_display (first_keyword_hit tl loan_types)) ++
                 ent (str "loan_purpose") (str "high")
                   (option_map purpose_display (first_keyword_hit tl purpose_keywords)))
                amount_patterns_compile) as Ha.
  pose proof (detect_income_yields float income_patterns tl income_patterns_compile) as Hi.
  destruct (converted float tl amount_patterns) as [[x|e]|].
  - eapply yields_bind; [exact Ha|].
    destruct (converted float tl income_patterns) as [[y|e]|];
      [|now apply yields_bind_raise|].
    + eapply yields_bind; [exact Hi|].
      eapply yields_bind; [apply combine_employment_yields|].
      eapply yields_bind; [apply detect_timeline_yields, timeline_patterns_compile|].
      eapply yields_bind.
      { apply scan_table_yields. rewrite !has_field_app, !has_field_ent; reflexivity. }
      eapply yields_bind; [apply yields_print|].
      rewrite <- !app_assoc. apply yields_ret.
    + eapply yields_bind; [exact Hi|].
      eapply yields_bind; [apply combine_employment_yields|].
      eapply yields_bind; [apply detect_timeline_yields, timeline_patterns_compile|].
      eapply yields_bind.
      { apply scan_table_yields. rewrite !has_field_app, !has_field_ent; reflexivity. }
      eapply yields_bind; [apply yields_print|].
      rewrite <- !app_assoc. apply yields_ret.
  - now apply yields_bind_raise.
  - eapply yields_bind; [exact Ha|].
    destruct (converted float tl income_patterns) as [[y|e]|];
      [|now apply yields_bind_raise|].
    + eapply yields_bind; [exact Hi|].
      eapply yields_bind; [apply combine_employment_yields|].
      eapply yields_bind; [apply detect_timeline_yields, timeline_patterns_compile|].
      eapply yields_bind.
      { apply scan_table_yields. rewrite !has_field_app, !has_field_ent; reflexivity. }
      eapply yields_bind; [apply yields_print|].
      rewrite <- !app_assoc. rewrite ?app_nil_r. apply yields_ret.
    + eapply yields_bind; [exact Hi|].
      eapply yields_bind; [apply combine_employment_yields|].
      eapply yields_bind; [apply detect_timeline_yields, timeline_patterns_compile|].
      eapply yields_bind.
      { apply scan_table_yields. rewrite !has_field_app, !has_field_ent; reflexivity. }
      eapply yields_bind; [apply yields_print|].
      rewrite <- !app_assoc. rewrite ?app_nil_r. apply yields_ret.
Qed.

(** ** The amount and income conversions never raise *)

Lemma rupees_ok (ct s : ustring) (x : Py.float64) :
  known_tag ct -> Py.float s = Ok x -> exists y, rupees Py.float s ct = Ok y.
Proof.
  intros Hk Hx. unfold rupees, to_rupees, bind, lift, ret.
  destruct Hk as [<-|[<-|[<-|[<-|[]]]]];
    match goal with
    | |- context [ustring_eqb ?a ?b] =>
        let v := eval vm_compute in (ustring_eqb a b) in
        change (ustring_eqb a b) with v
    end; cbv iota; repeat
    match goal with
    | |- context [ustring_eqb ?a ?b] =>
        let v := eval vm_compute in (ustring_eqb a b) in
        change (ustring_eqb a b) with v; cbv iota
    end; rewrite Hx; eexists; reflexivity.
Qed.

Lemma rupees_raise (float : ustring -> result Py.float64) (ct s : ustring) (e : exn) :
  known_tag ct -> float s = Raise e -> rupees float s ct = Raise e.
Proof.
  intros Hk Hx. unfold rupees, to_rupees, bind, lift, ret.
  destruct Hk as [<-|[<-|[<-|[<-|[]]]]];
    match goal with
    | |- context [ustring_eqb ?a ?b] =>
        let v := eval vm_compute in (ustring_eqb a b) in
        change (ustring_eqb a b) with v
    end; cbv iota; repeat
    match goal with
    | |- context [ustring_eqb ?a ?b] =>
        let v := eval vm_compute in (ustring_eqb a b) in
        change (ustring_eqb a b) with v; cbv iota
    end; rewrite Hx; reflexivity.
Qed.

(** The first match of a table of numeric patterns has a known tag and a
    numeral [float] accepts. *)
Lemma first_match_numeric (text_lower : ustring) (patterns : list (ustring * ustring))
    (m : Re.groups) (ct : ustring) :
  Forall numeric_pattern patterns ->
  first_match true text_lower patterns = Some (m, ct) ->
  known_tag ct /\ exists s x, numeral m = Ok s /\ Py.float s = Ok x.
Proof.
  intros H.
  induction H as [|[pattern ct'] rest [r [Hc [Hr [Hd Hk]]]] _ IH]; cbn [first_match].
  - discriminate.
  - simpl in Hc, Hk. unfold Re.search. rewrite Hc.
    destruct (Re.search_regex true r text_lower) as [g|] eqn:Es; [|exact IH].
    intros [= <- <-]. split; [exact Hk|].
    pose proof (search_regex_captures true numeral_group r text_lower g Hr) as Hcap.
    pose proof (search_regex_defines true 1 r text_lower g Hd Es) as Hset.
    unfold is_set in Hset. destruct (Re.lookup 1 g) as [w|] eqn:El; [|contradiction].
    assert (Hw : numeral_ok w).
    { apply (Hcap (fun w0 (E : 0 = 1) => match Nat.neq_0_succ 0 E with end) Es 1 w El).
      reflexivity. }
    destruct Hw as [x Hx].
    exists (Py.replace (chr ",") [] w), x. split; [|exact Hx].
    unfold numeral, Re.group. now rewrite El.
Qed.

Lemma converted_ok (text_lower : ustring) (patterns : list (ustring * ustring)) :
  Forall numeric_pattern patterns ->
  forall e, converted Py.float text_lower patterns <> Some (Raise e).
Proof.
  intros H e. unfold converted.
  destruct (first_match true text_lower patterns) as [[m ct]|] eqn:E; [|discriminate].
  destruct (first_match_numeric text_lower patterns m ct H E) as [Hk [s [x [-> Hx]]]].
  destruct (rupees_ok ct s x Hk Hx) as [y ->]. discriminate.
Qed.

Ltac numeric_leaf :=
  match goal with
  | |- forall w, matches _ _ w -> numeral_group 0 w => intros ? _ E; discriminate E
  | |- forall w, matches _ _ w -> numeral_group 1 w =>
      intros w Hw _;
      first [ exact (grouped_numeral_ok true _ _ w Hw)
            | exact (decimal_numeral_ok true w Hw) ]
  | |- True => exact I
  end.

Ltac numeric_pattern_tac :=
  eexists; split; [vm_compute; reflexivity|]; split; [|split];
  [ cbn [respects]; repeat split; numeric_leaf
  | cbn [defines app]; auto with datatypes
  | cbv [known_tag snd]; auto 6 with datatypes ].

Lemma amount_patterns_numeric : Forall numeric_pattern amount_patterns.
Proof. repeat constructor; numeric_pattern_tac. Qed.

Lemma income_patterns_numeric : Forall numeric_pattern income_patterns.
Proof. repeat constructor; numeric_pattern_tac. Qed.

(** ** The extractor with the built-in [float] *)

Lemma extract_fst (text : ustring) (w : world) :
  fst (extract_loan_entities text w) = extract_spec Py.float text.
Proof. apply yields_fst, extract_with_yields. Qed.

Lemma truthy_amount_text (c : option (result Py.float64)) :
  truthy (amount_text c) = is_some (amount_text c).
Proof. destruct c as [[x|e]|]; reflexivity. Qed.

Lemma truthy_status (text_lower : ustring) :
  truthy (detect_employment_status text_lower)
  = is_some (detect_employment_status text_lower).
Proof.
  unfold detect_employment_status.
  repeat match goal with |- context [if ?b then _ else _] => destruct b end; reflexivity.
Qed.

(** The detections of a run, field by field. *)
Lemma extract_spec_detections (text : ustring) :
  extract_spec Py.float text
  = Ok (detections
          (option_map loan_type_display (first_keyword_hit (Py.lower text) loan_types))
          (option_map purpose_display (first_keyword_hit (Py.lower text) purpose_keywords))
          (amount_text (converted Py.float (Py.lower text) amount_patterns))
          (employment_value (detect_employment_status (Py.lower text))
             (amount_text (converted Py.float (Py.lower text) income_patterns)))
          (timeline_of (Py.lower text))
          (option_map Py.capitalize
             (first_keyword_hit (Py.lower text) relationship_keywords))).
Proof.
  pose proof (converted_ok (Py.lower text) amount_patterns amount_patterns_numeric) as Ha.
  pose proof (converted_ok (Py.lower text) income_patterns income_patterns_numeric) as Hi.
  unfold extract_spec. cbv zeta.
  destruct (converted Py.float (Py.lower text) amount_patterns) as [[x|e]|];
    destruct (converted Py.float (Py.lower text) income_patterns) as [[y|e']|];
    try reflexivity; try (now contradiction (Ha e)); now contradiction (Hi e').
Qed.

Lemma is_some_converted (text_lower : ustring) (patterns : list (ustring * ustring)) :
  Forall numeric_pattern patterns ->
  is_some (amount_text (converted Py.float text_lower patterns))
  = is_some (first_match true text_lower patterns).
Proof.
  intros H. pose proof (converted_ok text_lower patterns H) as Hc. unfold converted in *.
  destruct (first_match true text_lower patterns) as [[m ct]|]; [|reflexivity].
  simpl.
  destruct (match numeral m with Ok s => rupees Py.float s ct | Raise e => Raise e end)
    as [x|e]; [reflexivity|now contradiction (Hc e)].
Qed.

(** The run returns one optional detection per field, and a field is there
    exactly when its detector finds something. *)
Lemma extract_detections (text : ustring) :
  exists o1 o2 o3 o4 o5 o6,
    extract_spec Py.float text = Ok (detections o1 o2 o3 o4 o5 o6)
    /\ is_some o1 = is_some (first_keyword_hit (Py.lower text) loan_types)
    /\ is_some o2 = is_some (first_keyword_hit (Py.lower text) purpose_keywords)
    /\ is_some o3 = is_some (first_match true (Py.lower text) amount_patterns)
    /\ is_some o4 = is_some (detect_employment_status (Py.lower text))
                    || is_some (first_match true (Py.lower text) income_patterns)
    /\ is_some o5 = is_some (first_match false (Py.lower text) timeline_patterns)
    /\ is_some o6 = is_some (first_keyword_hit (Py.lower text) relationship_keywords).
Proof.
  do 6 eexists. split; [apply extract_spec_detections|]. set (tl := Py.lower text).
  repeat split.
  - now destruct (first_keyword_hit tl loan_types).
  - now destruct (first_keyword_hit tl purpose_keywords).
  - apply is_some_converted, amount_patterns_numeric.
  - unfold employment_value. rewrite truthy_amount_text, truthy_status.
    rewrite <- (is_some_converted tl income_patterns income_patterns_numeric).
    now destruct (is_some (detect_employment_status tl)
                  || is_some (amount_text (converted Py.float tl income_patterns))).
  - unfold timeline_of. now destruct (first_match false tl timeline_patterns).
  - now destruct (first_keyword_hit tl relationship_keywords).
Qed.

Ltac all_detections :=
  intros o1 o2 o3 o4 o5 o6;
  destruct o1, o2, o3, o4, o5, o6.

Lemma detections_fields (o1 o2 o3 o4 o5 o6 : option ustring) :
  subsequence (map field (detections o1 o2 o3 o4 o5 o6)) field_order = true.
Proof. revert o1 o2 o3 o4 o5 o6. all_detections; vm_compute; reflexivity. Qed.


Lemma field_order_NoDup : NoDup field_order.
Proof.
  unfold field_order.
  repeat (constructor; [simpl; intros H; repeat destruct H as [H|H]; try discriminate H; exact H|]).
  constructor.
Qed.

Lemma subsequence_In (sub full : list ustring) (x : ustring) :
  subsequence sub full = true -> In x sub -> In x full.
Proof.
  revert sub. induction full as [|b full IH]; intros [|a sub] H Hin; try easy.
  simpl in H. destruct (ustring_eqb a b) eqn:E.
  - apply ustring_eqb_eq in E. subst. destruct Hin as [<-|Hin]; [now left|].
    right. now apply (IH sub).
  - right. now apply (IH (a :: sub)).
Qed.

Lemma subsequence_NoDup (sub full : list ustring) :
  subsequence sub full = true -> NoDup full -> NoDup sub.
Proof.
  revert sub. induction full as [|b full IH]; intros [|a sub] H Hnd; try constructor; try easy.
  - simpl in H. inversion Hnd as [|? ? Hb Hfull]; subst.
    destruct (ustring_eqb a b) eqn:E.
    + apply ustring_eqb_eq in E. subst. intros Hin. apply Hb.
      now apply (subsequence_In sub full).
    + assert (Hs : NoDup (a :: sub)) by now apply IH.
      now inversion Hs.
  - simpl in H. inversion Hnd as [|? ? Hb Hfull]; subst.
    destruct (ustring_eqb a b) eqn:E.
    + now apply IH.
    + assert (Hs : NoDup (a :: sub)) by now apply IH.
      now inversion Hs.
Qed.

Lemma round_half_even_integer (n : N) : Py.round_half_even n 1 = n.
Proof.
  unfold Py.round_half_even. rewrite N.div_1_r, N.mod_1_r. reflexivity.
Qed.


Lemma extract_spec_amount_raise (float : ustring -> result Py.float64) (text : ustring)
    (e : exn) :
  converted float (Py.lower text) amount_patterns = Some (Raise e) ->
  extract_spec float text = Raise e.
Proof. intros H. unfold extract_spec. cbv zeta. now rewrite H. Qed.

Lemma extract_spec_income_raise (float : ustring -> result Py.float64) (text : ustring)
    (e : exn) :
  (forall e', converted float (Py.lower text) amount_patterns <> Some (Raise e')) ->
  converted float (Py.lower text) income_patterns = Some (Raise e) ->
  extract_spec float text = Raise e.
Proof.
  intros Ha H. unfold extract_spec. cbv zeta. rewrite H.
  destruct (converted float (Py.lower text) amount_patterns) as [[x|e0]|];
    [reflexivity|now contradiction (Ha e0)|reflexivity].
Qed.

(** What the keys of the keyword tables are rendered as. *)
Example displayed_values :
  map (fun row => loan_type_display (fst row)) loan_types
  = [str "Personal Loan"; str "Home Loan"; str "Auto Loan"; str "Business Loan";
     str "Education Loan"]
  /\ map (fun row => purpose_display (fst row)) purpose_keywords
     = [str "Home Purchase"; str "Renovation"; str "Debt Consolidation";
        str "Business Expansion"; str "Education"; str "Vehicle Purchase"; str "Medical";
        str "Wedding"]
  /\ map (fun row => Py.capitalize (fst row)) relationship_keywords = [str "Yes"; str "No"].
Proof. split; [|split]; vm_compute; reflexivity. Qed.

(** ** The range pattern of the timeline never decides *)

Lemma years_pattern_compiles :
  Re.compile (str "(\d+)\s*(?:years?|yrs?)") = Some years_regex.
Proof. vm_compute. reflexivity. Qed.

Lemma range_pattern_compiles :
  Re.compile (str "(\d+)\s*to\s*(\d+)\s*(?:years?|yrs?)") = Some range_regex.
Proof. vm_compute. reflexivity. Qed.

(** A text of the range pattern ends with a text of the plain-years pattern:
    its second number, the blanks and the unit. *)
Lemma range_holds_years (w : ustring) :
  matches false range_regex w ->
  exists u v, w = u ++ v /\ matches false years_regex v.
Proof.
  unfold range_regex, years_regex. intros H.
  repeat match goal with
         | H : matches _ (Re.Seq _ _) _ |- _ => inversion H; subst; clear H
         end.
  match goal with
  | H6 : matches _ (Re.Group 2 _) ?d, H8 : matches _ year_unit ?f
    |- exists _ _, ?a ++ ?s1 ++ ?t ++ ?o ++ ?s2 ++ ?d ++ ?s3 ++ ?f = _ /\ _ =>
      exists (a ++ s1 ++ t ++ o ++ s2), (d ++ s3 ++ f); split;
      [ now rewrite <- !app_assoc
      | apply M_seq;
        [ apply M_group; inversion H6; subst; assumption
        | apply M_seq; assumption ] ]
  end.
Qed.

Lemma range_match_gives_years_match (text_lower : ustring) :
  Re.search_regex false range_regex text_lower <> None ->
  Re.search_regex false years_regex text_lower <> None.
Proof.
  destruct (Re.search_regex false range_regex text_lower) as [g|] eqn:E; [|contradiction].
  intros _. apply search_regex_inv in E.
  destruct E as (prefix & suffix & rest & -> & Hin).
  apply exec_sound in Hin. cbn [fst] in Hin. destruct Hin as (w & -> & Hw).
  inversion Hw as [| | | | | | | | |i a u Hr]; subst.
  destruct (range_holds_years w Hr) as (u & v & -> & Hv).
  destruct (exec_complete false (Re.Group 0 years_regex) v (M_group false 0 _ _ Hv)
              eq_refl rest []) as [g' Hin].
  replace (prefix ++ (u ++ v) ++ rest) with ((prefix ++ u) ++ (v ++ rest))
    by now rewrite <- !app_assoc.
  eapply search_regex_some. exact Hin.
Qed.

(** * The claims *)

(** C1. On "5 to 7 years" the claim wants the range "5-7 years".  The table
    [timeline_patterns] has the range pattern last, after the plain-years
    pattern, which finds "7 years" in the same text: the extractor returns
    that.  And so for every text: whenever the range pattern matches, the
    plain-years pattern matches too and is tried first, so the pattern that
    decides the timeline is never the range pattern. *)
Theorem range_input_yields_plain_years :
  (forall w,
     fst (extract_loan_entities (str "5 to 7 years") w)
     = Ok [mkEntity (str "repayment_timeline") (str "7 years") (str "high")])
  /\ (forall text_lower,
        match first_match false text_lower timeline_patterns with
        | Some (m, timeline_type) =>
            timeline_type = str "years" \/ timeline_type = str "months"
        | None => True
        end).
Proof.
  split.
  - intros w. rewrite extract_fst. vm_compute. reflexivity.
  - intros tl. unfold timeline_patterns. cbn [first_match]. unfold Re.search.
    rewrite years_pattern_compiles, range_pattern_compiles.
    destruct (Re.search_regex false years_regex tl) as [g|] eqn:Ey; [now left|].
    destruct (Re.compile (str "(\d+)\s*(?:months?|mos?)")) as [r|].
    + destruct (Re.search_regex false r tl); [now right|].
      pose proof (range_match_gives_years_match tl) as H.
      destruct (Re.search_regex false range_regex tl); [|exact I].
      exfalso. apply H; [discriminate|exact Ey].
    + pose proof (range_match_gives_years_match tl) as H.
      destruct (Re.search_regex false range_regex tl); [|exact I].
      exfalso. apply H; [discriminate|exact Ey].
Qed.

(** C2, as the claim states it: the six entities with loan_amount
    "₹1,000,000".  On that text the extractor returns a loan_amount entity
    with another value, so the list of the claim is not what it returns. *)
Lemma scenario_amount_is_not_ten_lakh :
  find (fun e => ustring_eqb (field e) (str "loan_amount"))
    match fst (extract_loan_entities
                 (str "I need a home loan of 10 lakh rupees for home purchase, I am self-employed earning 50k per month, for 5 years, and I have account in your bank")
                 empty_world) with
    | Ok es => es
    | Raise _ => []
    end
  = Some (mkEntity (str "loan_amount") (str "₹50,000") (str "high"))
  /\ fst (extract_loan_entities
           (str "I need a home loan of 10 lakh rupees for home purchase, I am self-employed earning 50k per month, for 5 years, and I have account in your bank")
           empty_world)
     <> Ok [ mkEntity (str "loan_type") (str "Home Loan") (str "high");
             mkEntity (str "loan_purpose") (str "Home Purchase") (str "high");
             mkEntity (str "loan_amount") (str "₹1,000,000") (str "high");
             mkEntity (str "employment_income") (str "Self-Employed | ₹50,000")
               (str "medium");
             mkEntity (str "repayment_timeline") (str "5 years") (str "high");
             mkEntity (str "bank_relationship") (str "Yes") (str "medium") ].
Proof. rewrite extract_fst. split; vm_compute; [reflexivity|discriminate]. Qed.

(** C2, amended.  On the scenario text the extractor returns exactly the
    six entities of the claim but for the loan amount, which is "₹50,000":
    the pattern for "k"/"thousand" comes before the pattern for "lakh" in
    [amount_patterns] and finds "50k". *)
Theorem scenario_entities (w : world) :
  fst (extract_loan_entities
         (str "I need a home loan of 10 lakh rupees for home purchase, I am self-employed earning 50k per month, for 5 years, and I have account in your bank")
         w)
  = Ok [ mkEntity (str "loan_type") (str "Home Loan") (str "high");
         mkEntity (str "loan_purpose") (str "Home Purchase") (str "high");
         mkEntity (str "loan_amount") (str "₹50,000") (str "high");
         mkEntity (str "employment_income") (str "Self-Employed | ₹50,000") (str "medium");
         mkEntity (str "repayment_timeline") (str "5 years") (str "high");
         mkEntity (str "bank_relationship") (str "Yes") (str "medium") ].
Proof. rewrite extract_fst. vm_compute. reflexivity. Qed.

(** C3. For every input, the entities the extractor returns hold at most one
    entity per field: the call returns a list, and no field name occurs
    twice in it. *)
Theorem at_most_one_entity_per_field (text : ustring) (w : world) :
  match fst (extract_loan_entities text w) with
  | Ok es => NoDup (map field es)
  | Raise _ => False
  end.
Proof.
  rewrite extract_fst.
  destruct (extract_detections text) as (o1 & o2 & o3 & o4 & o5 & o6 & -> & _).
  eapply subsequence_NoDup; [apply detections_fields|apply field_order_NoDup].
Qed.


(** The empty text, and a text no detector recognises, give no entity. *)
Example nothing_recognised (w : world) :
  fst (extract_loan_entities [] w) = Ok []
  /\ fst (extract_loan_entities (str "Good morning, what is the weather like?") w) = Ok [].
Proof. rewrite !extract_fst. split; vm_compute; reflexivity. Qed.




(** C7, as the claim states it, at the text "50k" with a [float] that rejects
    every numeral: the thousand pattern matches, the numeral "50" is
    rejected, and the call does not return a list without a loan_amount
    entity: it raises the error of [float]. *)
Lemma rejected_numeral_is_not_skipped :
  let reject := fun _ : ustring => @Raise Py.float64 ValueError in
  first_match true (Py.lower (str "50k")) amount_patterns
  = Some ([(0, str "50k"); (1, str "50")], str "thousand")
  /\ reject (str "50") = Raise ValueError
  /\ fst (extract_with reject (str "50k") empty_world) = Raise ValueError
  /\ ~ (exists es,
          fst (extract_with reject (str "50k") empty_world) = Ok es
          /\ has_field (str "loan_amount") es = false).
Proof.
  cbv zeta. split; [|split; [|split]].
  - vm_compute. reflexivity.
  - reflexivity.
  - rewrite (yields_fst _ _ _ (extract_with_yields _ _)). vm_compute. reflexivity.
  - intros [es [H _]].
    rewrite (yields_fst _ _ _ (extract_with_yields _ _)) in H.
    vm_compute in H. discriminate H.
Qed.

(** C7, amended.  The numerals the amount and income patterns capture are
    always accepted by [float], and the extractor has no handler for a
    numeral that is not: with any [float] that rejects the numeral of the
    first matching amount pattern the call raises the error of [float]; so
    it does for the numeral of the first matching income pattern, when the
    amount detection has not raised before. *)
Theorem unparseable_numeral_propagates (text : ustring) (m : Re.groups) (ct : ustring) :
  (first_match true (Py.lower text) amount_patterns = Some (m, ct) ->
   (exists s x, numeral m = Ok s /\ Py.float s = Ok x)
   /\ (forall float w s e,
         numeral m = Ok s -> float s = Raise e ->
         fst (extract_with float text w) = Raise e))
  /\ (first_match true (Py.lower text) income_patterns = Some (m, ct) ->
      (exists s x, numeral m = Ok s /\ Py.float s = Ok x)
      /\ (forall float w s e,
            numeral m = Ok s -> float s = Raise e ->
            (forall e', converted float (Py.lower text) amount_patterns
                        <> Some (Raise e')) ->
            fst (extract_with float text w) = Raise e)).
Proof.
  split; intros Hm.
  - destruct (first_match_numeric _ _ _ _ amount_patterns_numeric Hm) as [Hk Hs].
    split; [exact Hs|]. intros float w s e Hn Hf.
    rewrite (yields_fst _ _ _ (extract_with_yields _ _)).
    apply extract_spec_amount_raise. unfold converted. rewrite Hm, Hn.
    now rewrite (rupees_raise float ct s e Hk Hf).
  - destruct (first_match_numeric _ _ _ _ income_patterns_numeric Hm) as [Hk Hs].
    split; [exact Hs|]. intros float w s e Hn Hf Ha.
    rewrite (yields_fst _ _ _ (extract_with_yields _ _)).
    apply extract_spec_income_raise; [exact Ha|]. unfold converted. rewrite Hm, Hn.
    now rewrite (rupees_raise float ct s e Hk Hf).
Qed.

(** C7, amended, at the text "50k" and at the text "7k salary 50k". *)
Lemma unparseable_numeral_witness :
  (first_match true (Py.lower (str "50k")) amount_patterns
   = Some ([(0, str "50k"); (1, str "50")], str "thousand")
   /\ (exists s x, numeral [(0, str "50k"); (1, str "50")] = Ok s /\ Py.float s = Ok x)
   /\ fst (extract_with (fun _ => Raise ValueError) (str "50k") empty_world)
      = Raise ValueError)
  /\ (first_match true (Py.lower (str "7k salary 50k")) income_patterns
      = Some ([(0, str "salary 50k"); (1, str "50")], str "thousand")
      /\ fst (extract_with
                (fun s => if ustring_eqb s (str "50") then Raise ValueError
                          else Py.float s)
                (str "7k salary 50k") empty_world)
         = Raise ValueError).
Proof.
  split.
  - assert (E : first_match true (Py.lower (str "50k")) amount_patterns
                = Some ([(0, str "50k"); (1, str "50")], str "thousand"))
      by (vm_compute; reflexivity).
    destruct (proj1 (unparseable_numeral_propagates (str "50k") _ _) E) as [Hs Hr].
    split; [exact E|]. split; [exact Hs|].
    apply (Hr (fun _ => Raise ValueError) empty_world (str "50"));
      vm_compute; reflexivity.
  - assert (E : first_match true (Py.lower (str "7k salary 50k")) income_patterns
                = Some ([(0, str "salary 50k"); (1, str "50")], str "thousand"))
      by (vm_compute; reflexivity).
    destruct (proj2 (unparseable_numeral_propagates (str "7k salary 50k") _ _) E)
      as [_ Hr].
    split; [exact E|].
    apply (Hr (fun s => if ustring_eqb s (str "50") then Raise ValueError
                        else Py.float s)
              empty_world (str "50")).
    + vm_compute. reflexivity.
    + vm_compute. reflexivity.
    + intros e'. vm_compute. discriminate.
Defined.

(** C8. Every entity of every result carries the confidence "high" or
    "medium", never "low": "high" for loan_type, loan_purpose, loan_amount
    and repayment_timeline, "medium" for employment_income and
    bank_relationship. *)
Theorem confidence_high_or_medium (text : ustring) (w : world) :
  match fst (extract_loan_entities text w) with
  | Ok es =>
      Forall
        (fun e =>
           confidence e <> str "low"
           /\ ((In (field e) [str "loan_type"; str "loan_purpose"; str "loan_amount";
                              str "repayment_timeline"]
                /\ confidence e = str "high")
               \/ (In (field e) [str "employment_income"; str "bank_relationship"]
                   /\ confidence e = str "medium")))
        es
  | Raise _ => False
  end.
Proof.
  rewrite extract_fst.
  destruct (extract_detections text) as (o1 & o2 & o3 & o4 & o5 & o6 & -> & _).
  unfold detections. repeat rewrite Forall_app.
  repeat split;
    match goal with
    | |- Forall _ (ent _ _ ?o) =>
        destruct o; constructor; [|constructor]; cbn [field confidence]; split;
        [ vm_compute; discriminate
        | first [ left; split; [cbn [In]; auto 6|reflexivity]
                | right; split; [cbn [In]; auto 6|reflexivity] ] ]
    end.
Qed.

(** C9. The extractor is deterministic and stateless: the entities depend on
    the text alone (the same from any two worlds, and the same again in the
    world a first call leaves behind), and a call changes nothing but the
    standard output, to which it adds lines that depend on the text alone. *)
Theorem extract_deterministic_stateless (text : ustring) :
  (forall w1 w2,
     fst (extract_loan_entities text w1) = fst (extract_loan_entities text w2))
  /\ (forall w,
        fst (extract_loan_entities text (snd (extract_loan_entities text w)))
        = fst (extract_loan_entities text w))
  /\ (exists lines, forall w,
        snd (extract_loan_entities text w) = add_lines w lines).
Proof.
  destruct (extract_with_yields Py.float text) as [lines H].
  fold (extract_loan_entities text) in H.
  repeat split.
  - intros w1 w2. now rewrite !extract_fst.
  - intros w. now rewrite !extract_fst.
  - exists lines. intros w. now rewrite H.
Qed.

(** The phrases of the end-to-end scenario in the opposite order: the entities
    still come in the order of the detectors. *)
Example reversed_phrases_same_order (w : world) :
  match fst (extract_loan_entities
               (str "I have account in your bank, for 5 years, earning 50k, home purchase with a home loan")
               w) with
  | Ok es => map field es = field_order
  | Raise _ => False
  end.
Proof. rewrite extract_fst. vm_compute. reflexivity. Qed.

(** C10. The entities of a result come in the order of the detectors,
    loan_type, loan_purpose, loan_amount, employment_income,
    repayment_timeline, bank_relationship, whatever the order of the phrases
    in the text: the field names of the result are a subsequence of that
    list. *)
Theorem entities_in_detector_order (text : ustring) (w : world) :
  match fst (extract_loan_entities text w) with
  | Ok es => subsequence (map field es) field_order = true
  | Raise _ => False
  end.
Proof.
  rewrite extract_fst.
  destruct (extract_detections text) as (o1 & o2 & o3 & o4 & o5 & o6 & -> & _).
  apply detections_fields.
Qed.

(** * More on the extractor *)

(** ** Substrings *)

Lemma startswith_iff (p s : ustring) :
  Py.startswith p s = true <-> exists b, s = p ++ b.
Proof.
  revert s. induction p as [|a p IH]; intros s; simpl.
  - split; [intros _; now exists s|reflexivity].
  - destruct s as [|c s].
    + split; [discriminate|intros [b H]; discriminate H].
    + rewrite andb_true_iff, N.eqb_eq, IH. split.
      * intros [-> [b ->]]. now exists b.
      * intros [b H]. injection H as -> ->. split; [reflexivity|now exists b].
Qed.

Lemma contains_iff (p s : ustring) :
  Py.contains p s = true <-> exists a b, s = a ++ p ++ b.
Proof.
  induction s as [|c s IH]; simpl.
  - rewrite orb_false_r, startswith_iff. split.
    + intros [b H]. now exists [], b.
    + intros (a & b & H). destruct a; [now exists b|discriminate H].
  - rewrite orb_true_iff, startswith_iff, IH. split.
    + intros [[b H]|(a & b & H)]; [now exists [], b|].
      exists (c :: a), b. now rewrite H.
    + intros (a & b & H). destruct a as [|c' a]; [left; now exists b|].
      right. injection H as -> ->. now exists a, b.
Qed.

Lemma contains_trans (p q s : ustring) :
  Py.contains p q = true -> Py.contains q s = true -> Py.contains p s = true.
Proof.
  rewrite !contains_iff. intros (a & b & ->) (a' & b' & ->).
  exists (a' ++ a), (b ++ b'). now rewrite <- !app_assoc.
Qed.

Lemma keyword_hit_intro (text_lower keyword : ustring) (keywords : list ustring) :
  In keyword keywords -> Py.contains keyword text_lower = true ->
  keyword_hit text_lower keywords = true.
Proof. intros Hin Hc. apply existsb_exists. now exists keyword. Qed.

(** ** The entity of each field *)

Lemma entity_of_detections (o1 o2 o3 o4 o5 o6 : option ustring) :
  let es := detections o1 o2 o3 o4 o5 o6 in
  entity_of (str "loan_type") es
  = option_map (fun v => mkEntity (str "loan_type") v (str "high")) o1
  /\ entity_of (str "loan_purpose") es
     = option_map (fun v => mkEntity (str "loan_purpose") v (str "high")) o2
  /\ entity_of (str "loan_amount") es
     = option_map (fun v => mkEntity (str "loan_amount") v (str "high")) o3
  /\ entity_of (str "employment_income") es
     = option_map (fun v => mkEntity (str "employment_income") v (str "medium")) o4
  /\ entity_of (str "repayment_timeline") es
     = option_map (fun v => mkEntity (str "repayment_timeline") v (str "high")) o5
  /\ entity_of (str "bank_relationship") es
     = option_map (fun v => mkEntity (str "bank_relationship") v (str "medium")) o6.
Proof.
  revert o1 o2 o3 o4 o5 o6. all_detections;
    (split; [|split; [|split; [|split; [|split]]]]); reflexivity.
Qed.

(** A run of the extractor, as the detections of its six fields. *)
Lemma extract_run (text : ustring) (w : world) :
  extract_loan_entities text w
  = (Ok (detections
           (option_map loan_type_display (first_keyword_hit (Py.lower text) loan_types))
           (option_map purpose_display
              (first_keyword_hit (Py.lower text) purpose_keywords))
           (amount_text (converted Py.float (Py.lower text) amount_patterns))
           (employment_value (detect_employment_status (Py.lower text))
              (amount_text (converted Py.float (Py.lower text) income_patterns)))
           (timeline_of (Py.lower text))
           (option_map Py.capitalize
              (first_keyword_hit (Py.lower text) relationship_keywords))),
     snd (extract_loan_entities text w)).
Proof.
  rewrite <- extract_spec_detections, <- (extract_fst text w). apply surjective_pairing.
Qed.

Lemma option_map_first_hit {A : Type} (display : ustring -> A) (text_lower : ustring)
    (table : list (ustring * list ustring)) :
  option_map display (first_keyword_hit text_lower table)
  = option_map (fun row => display (fst row))
      (find (fun row => keyword_hit text_lower (snd row)) table).
Proof.
  unfold first_keyword_hit.
  now destruct (find (fun row => keyword_hit text_lower (snd row)) table).
Qed.

(** ** An income pattern holds an amount pattern *)

Section PatternTails.

Variable ic : bool.

Lemma seq4_tail (a b c d t : Re.regex) (w : ustring) :
  matches ic (Re.Seq a (Re.Seq b (Re.Seq c (Re.Seq d t)))) w ->
  exists u v, w = u ++ v /\ matches ic t v.
Proof.
  intros H.
  inversion H as [| | | |a1 b1 u1 v1 Ha H1| | | | |]; subst; clear H.
  inversion H1 as [| | | |a2 b2 u2 v2 Hb H2| | | | |]; subst; clear H1.
  inversion H2 as [| | | |a3 b3 u3 v3 Hc H3| | | | |]; subst; clear H2.
  inversion H3 as [| | | |a4 b4 u4 v4 Hd H4| | | | |]; subst; clear H3.
  exists (u1 ++ u2 ++ u3 ++ u4), v4. split; [now rewrite <- !app_assoc|exact H4].
Qed.

(** When every text of [r] ends with a text of [t], [t] is found wherever
    [r] is. *)
Lemma search_tail (r t : Re.regex) (text : ustring) :
  (forall w, matches ic r w -> exists u v, w = u ++ v /\ matches ic t v) ->
  productive t = true ->
  Re.search_regex ic r text <> None -> Re.search_regex ic t text <> None.
Proof.
  intros Htail Hp.
  destruct (Re.search_regex ic r text) as [g|] eqn:E; [|contradiction].
  intros _. apply search_regex_inv in E.
  destruct E as (prefix & suffix & rest & -> & Hin).
  apply exec_sound in Hin. cbn [fst] in Hin. destruct Hin as (w & -> & Hw).
  inversion Hw as [| | | | | | | | |i a u Hr]; subst.
  destruct (Htail w Hr) as (u & v & -> & Hv).
  destruct (exec_complete ic (Re.Group 0 t) v (M_group ic 0 _ _ Hv) Hp rest [])
    as [g' Hin].
  replace (prefix ++ (u ++ v) ++ rest) with ((prefix ++ u) ++ (v ++ rest))
    by now rewrite <- !app_assoc.
  eapply search_regex_some. exact Hin.
Qed.

End PatternTails.

Lemma income_patterns_extend : Forall2 income_extends income_patterns amount_patterns.
Proof.
  unfold income_patterns, amount_patterns.
  repeat (constructor;
          [ do 5 eexists; split; [vm_compute; reflexivity|];
            split; vm_compute; reflexivity | ]).
  constructor.
Qed.

Lemma first_match_extends (text_lower : ustring)
    (incomes amounts : list (ustring * ustring)) :
  Forall2 income_extends incomes amounts ->
  first_match true text_lower incomes <> None ->
  first_match true text_lower amounts <> None.
Proof.
  induction 1 as [|[pi ti] [pa ta] incomes amounts Hx Hrest IH]; [intros H; exact H|].
  destruct Hx as (a & b & c & d & t & Ei & Ea & Hp). cbn [fst] in Ei, Ea.
  cbn [first_match]. unfold Re.search. rewrite Ei, Ea.
  destruct (Re.search_regex true t text_lower) as [g|] eqn:Et; [discriminate|].
  destruct (Re.search_regex true (Re.Seq a (Re.Seq b (Re.Seq c (Re.Seq d t)))) text_lower)
    as [g|] eqn:Er; [|exact IH].
  exfalso.
  apply (search_tail true _ t text_lower (seq4_tail true a b c d t) Hp);
    [rewrite Er; discriminate|exact Et].
Qed.

(** ** The timeline value *)




(** ** Digits and lower-casing *)

Lemma to_decimal_outside (lo hi c : N) (blocks : list N) :
  forallb (fun b => (hi <? b)%N || (b + 10 <=? lo)%N) blocks = true ->
  (lo <= c <= hi)%N ->
  find (fun b => (b <=? c)%N && (c <? b + 10)%N) blocks = None.
Proof.
  intros Hall Hc. induction blocks as [|b blocks IH]; [reflexivity|].
  simpl in Hall. apply andb_true_iff in Hall. destruct Hall as [Hb Hrest].
  simpl. replace ((b <=? c)%N && (c <? b + 10)%N) with false; [now apply IH|].
  symmetry. apply andb_false_iff. apply orb_true_iff in Hb.
  destruct Hb as [Hb|Hb].
  - left. apply N.ltb_lt in Hb. apply N.leb_gt. lia.
  - right. apply N.leb_le in Hb. apply N.ltb_ge. lia.
Qed.

Lemma not_decimal_in_range (lo hi c : N) :
  forallb (fun b => (hi <? b)%N || (b + 10 <=? lo)%N) Unicode.decimal_blocks = true ->
  (lo <= c <= hi)%N -> Unicode.is_decimal c = false.
Proof.
  intros Hall Hc. unfold Unicode.is_decimal, Unicode.to_decimal.
  now rewrite (to_decimal_outside lo hi c _ Hall Hc).
Qed.

Lemma lookup_lower_decimal (c : char) (tbl : list (N * N * N * N)) :
  forallb row_clear tbl = true ->
  Unicode.is_decimal (Unicode.lookup_lower c tbl) = Unicode.is_decimal c.
Proof.
  induction tbl as [|row tbl IH]; [reflexivity|].
  simpl. intros H. apply andb_true_iff in H. destruct H as [Hrow Hrest].
  destruct (Unicode.row_lower c row) as [t|] eqn:E; [|now apply IH].
  destruct row as [[[start count] stride] target]. unfold Unicode.row_lower in E.
  destruct ((start <=? c)%N && (c <=? start + (count - 1) * stride)%N
            && ((c - start) mod stride =? 0)%N) eqn:Hin; [|discriminate E].
  injection E as <-.
  apply andb_true_iff in Hin. destruct Hin as [Hin _].
  apply andb_true_iff in Hin. destruct Hin as [H1 H2].
  apply N.leb_le in H1, H2.
  unfold row_clear in Hrow. apply andb_true_iff in Hrow. destruct Hrow as [Hs Ht].
  rewrite (not_decimal_in_range _ _ c Hs) by lia.
  apply (not_decimal_in_range _ _ _ Ht). lia.
Qed.

Lemma tolower_decimal (c : char) :
  Unicode.is_decimal (Unicode.tolower c) = Unicode.is_decimal c.
Proof. apply lookup_lower_decimal. vm_compute. reflexivity. Qed.

Lemma lower_ucs4_digit (before after : ustring) (c : char) :
  has_digit (Py.lower_ucs4 before c after) = Unicode.is_decimal c.
Proof.
  unfold Py.lower_ucs4. destruct (c =? 931)%N eqn:E931.
  - apply N.eqb_eq in E931. subst c. unfold Py.handle_capital_sigma.
    match goal with |- context [if ?b then _ else _] => destruct b end; reflexivity.
  - unfold Unicode.tolower_full. destruct (c =? 304)%N eqn:E304.
    + apply N.eqb_eq in E304. subst c. reflexivity.
    + unfold has_digit. simpl. now rewrite orb_false_r, tolower_decimal.
Qed.

Lemma has_digit_app (a b : ustring) : has_digit (a ++ b) = has_digit a || has_digit b.
Proof. apply existsb_app. Qed.

Lemma lower_from_digit (before s : ustring) :
  has_digit (Py.lower_from before s) = has_digit s.
Proof.
  revert before. induction s as [|c s IH]; intros before; [reflexivity|].
  simpl. now rewrite has_digit_app, lower_ucs4_digit, IH.
Qed.

Lemma lower_digit (s : ustring) : has_digit (Py.lower s) = has_digit s.
Proof. apply lower_from_digit. Qed.

(** ** Patterns that need a digit *)

Lemma needs_digit_sound (ic : bool) (r : Re.regex) (w : ustring) :
  matches ic r w -> needs_digit r = true -> has_digit w = true.
Proof.
  induction 1 as [|c t Hl|t Hd|t Hs|a b u v Ha IHa Hb IHb|a b u Ha IHa|a b u Hb IHb
                  |a hi|a lo hi u v Hhi Ha IHa Hv IHv|i a u Ha IHa];
    cbn [needs_digit]; try discriminate.
  - intros _. unfold has_digit. simpl. now rewrite Hd.
  - rewrite has_digit_app. intros H. apply orb_true_iff in H. apply orb_true_iff.
    destruct H as [H|H]; [left|right]; auto.
  - rewrite andb_true_iff. intros [H _]. auto.
  - rewrite andb_true_iff. intros [_ H]. auto.
  - destruct lo as [|lo]; [discriminate|]. intros H.
    rewrite has_digit_app. rewrite (IHa H). reflexivity.
  - exact IHa.
Qed.

Lemma search_regex_digit (ic : bool) (r : Re.regex) (text : ustring) :
  needs_digit r = true -> has_digit text = false -> Re.search_regex ic r text = None.
Proof.
  intros Hn Ht. destruct (Re.search_regex ic r text) as [g|] eqn:E; [|reflexivity].
  apply search_regex_inv in E. destruct E as (prefix & suffix & rest & -> & Hin).
  apply exec_sound in Hin. cbn [fst] in Hin. destruct Hin as (w & -> & Hw).
  inversion Hw as [| | | | | | | | |i a u Hr]; subst.
  pose proof (needs_digit_sound ic r w Hr Hn) as Hd.
  rewrite !has_digit_app, Hd, orb_true_r in Ht. discriminate Ht.
Qed.

Lemma first_match_digit (ic : bool) (text_lower : ustring)
    (patterns : list (ustring * ustring)) :
  Forall digit_pattern patterns -> has_digit text_lower = false ->
  first_match ic text_lower patterns = None.
Proof.
  intros Hall Ht. induction Hall as [|[p t] rest (r & Er & Hn) _ IH]; [reflexivity|].
  cbn [fst] in Er. cbn [first_match]. unfold Re.search.
  now rewrite Er, (search_regex_digit ic r text_lower Hn Ht).
Qed.

Ltac digit_patterns :=
  repeat (constructor; [eexists; split; vm_compute; reflexivity|]); constructor.

Lemma amount_patterns_digit : Forall digit_pattern amount_patterns.
Proof. unfold amount_patterns. digit_patterns. Qed.

Lemma income_patterns_digit : Forall digit_pattern income_patterns.
Proof. unfold income_patterns. digit_patterns. Qed.

Lemma timeline_patterns_digit : Forall digit_pattern timeline_patterns.
Proof. unfold timeline_patterns. digit_patterns. Qed.

(** ** Whole-number figures *)

Lemma reduce_pow2 (n : N) (k : nat) : Py.reduce (n * 2 ^ N.of_nat k) k = Py.Finite n 0.
Proof.
  induction k as [|k IH].
  - simpl. now rewrite N.mul_1_r.
  - cbn [Py.reduce]. rewrite Nat2N.inj_succ, N.pow_succ_r'.
    replace (n * (2 * 2 ^ N.of_nat k))%N with (2 * (n * 2 ^ N.of_nat k))%N by lia.
    rewrite N.even_mul. cbn [N.even orb].
    replace (2 * (n * 2 ^ N.of_nat k))%N with ((n * 2 ^ N.of_nat k) * 2)%N by lia.
    rewrite N.div_mul by discriminate. exact IH.
Qed.

Lemma floor_log2_integer (n : N) :
  (0 < n)%N -> Py.floor_log2 n 1 = Z.of_N (N.log2 n).
Proof.
  intros Hn. unfold Py.floor_log2. change (N.log2 1) with 0%N.
  rewrite Z.sub_0_r.
  replace (0 <=? Z.of_N (N.log2 n))%Z with true by (symmetry; apply Z.leb_le; lia).
  rewrite N2Z.id, N.mul_1_l.
  replace (n <? 2 ^ N.log2 n)%N with false; [reflexivity|].
  symmetry. apply N.ltb_ge. now apply N.log2_spec.
Qed.

(** An integer below 2^53 is a binary64 value. *)
Lemma of_ratio_integer (n : N) : (n < 2 ^ 53)%N -> Py.of_ratio n 1 = Py.Finite n 0.
Proof.
  intros Hn. unfold Py.of_ratio. destruct (n =? 0)%N eqn:E0.
  - apply N.eqb_eq in E0. now subst.
  - apply N.eqb_neq in E0. assert (Hpos : (0 < n)%N) by lia.
    rewrite (floor_log2_integer n Hpos).
    assert (Hlog : (N.log2 n < 53)%N) by (apply N.log2_lt_pow2; assumption).
    set (e := Z.of_N (N.log2 n)).
    assert (He : (0 <= e < 53)%Z) by (unfold e; lia).
    replace (1023 <? e)%Z with false by (symmetry; apply Z.ltb_ge; lia).
    replace (Z.max e (-1022)) with e by lia.
    replace (e =? 1023)%Z with false by (symmetry; apply Z.eqb_neq; lia).
    cbn [andb]. rewrite N.mul_1_l.
    destruct (0 <=? e - 52)%Z eqn:Eq.
    + apply Z.leb_le in Eq. replace (e - 52)%Z with 0%Z by lia.
      change (2 ^ Z.to_N 0)%N with 1%N.
      now rewrite round_half_even_integer, N.mul_1_r.
    + apply Z.leb_gt in Eq. rewrite round_half_even_integer.
      replace (Z.to_N (- (e - 52))) with (N.of_nat (Z.to_nat (- (e - 52)))) by lia.
      apply reduce_pow2.
Qed.

Lemma float_digit_run (ds : ustring) :
  digit_run ds -> Py.float ds = Ok (Py.of_ratio (Py.digits_value ds) 1).
Proof.
  intros [Hne Hd]. unfold Py.float.
  pose proof (span_decimal_digits ds [] Hd I) as E. rewrite app_nil_r in E. rewrite E.
  destruct ds; [contradiction|reflexivity].
Qed.

Lemma fmul_integers (n m : N) :
  (n * m < 2 ^ 53)%N -> Py.fmul (Py.Finite n 0) (Py.Finite m 0) = Py.Finite (n * m) 0.
Proof. intros H. cbn [Py.fmul]. now apply of_ratio_integer. Qed.

(** * Properties of the extractor *)

Lemma employment_value_status (text_lower : ustring) :
  employment_value (detect_employment_status text_lower) None
  = detect_employment_status text_lower.
Proof.
  unfold detect_employment_status.
  repeat match goal with |- context [if ?b then _ else _] => destruct b end; reflexivity.
Qed.

Lemma employment_value_unemployed (c : option (result Py.float64)) :
  employment_value (Some (str "Unemployed")) (amount_text c)
  = Some match amount_text c with
         | Some income => str "Unemployed | " ++ income
         | None => str "Unemployed"
         end.
Proof. destruct c as [[x|e]|]; reflexivity. Qed.

Lemma amount_text_some (text_lower : ustring) (patterns : list (ustring * ustring)) :
  Forall numeric_pattern patterns ->
  is_some (first_match true text_lower patterns) = true ->
  exists v, amount_text (converted Py.float text_lower patterns) = Some v.
Proof.
  intros Hp H. rewrite <- (is_some_converted text_lower patterns Hp) in H.
  destruct (amount_text (converted Py.float text_lower patterns)) as [v|];
    [now exists v|discriminate H].
Qed.

Lemma amount_text_none (text_lower : ustring) (patterns : list (ustring * ustring)) :
  first_match true text_lower patterns = None ->
  amount_text (converted Py.float text_lower patterns) = None.
Proof. intros H. unfold converted. now rewrite H. Qed.

(** X1. The three keyword fields report the first row of their table, in the
    order the rows are written, one of whose keywords occurs in the
    lower-cased text: the loan type (personal, home, auto, business,
    education), the purpose and the bank relationship (yes before no) are
    those of that row, whatever rows after it have keywords in the text
    too. *)
Theorem keyword_fields_report_first_row (text : ustring) (w : world) :
  exists es w',
    extract_loan_entities text w = (Ok es, w')
    /\ entity_of (str "loan_type") es
       = option_map
           (fun row => mkEntity (str "loan_type") (loan_type_display (fst row)) (str "high"))
           (find (fun row => existsb (fun keyword => Py.contains keyword (Py.lower text))
                               (snd row))
              loan_types)
    /\ entity_of (str "loan_purpose") es
       = option_map
           (fun row => mkEntity (str "loan_purpose") (purpose_display (fst row)) (str "high"))
           (find (fun row => existsb (fun keyword => Py.contains keyword (Py.lower text))
                               (snd row))
              purpose_keywords)
    /\ entity_of (str "bank_relationship") es
       = option_map
           (fun row => mkEntity (str "bank_relationship") (Py.capitalize (fst row))
                         (str "medium"))
           (find (fun row => existsb (fun keyword => Py.contains keyword (Py.lower text))
                               (snd row))
              relationship_keywords).
Proof.
  eexists _, _. split; [apply extract_run|].
  match goal with
  | |- context [detections ?o1 ?o2 ?o3 ?o4 ?o5 ?o6] =>
      destruct (entity_of_detections o1 o2 o3 o4 o5 o6) as (E1 & E2 & _ & _ & _ & E6)
  end.
  cbv zeta in E1, E2, E6. rewrite E1, E2, E6. rewrite !option_map_first_hit.
  unfold keyword_hit.
  split; [|split];
    match goal with
    | |- context [find ?f ?t] => destruct (find f t); reflexivity
    end.
Qed.

(** X2. "Unemployed" wins over "Employed": when the lower-cased text holds
    an unemployed keyword and no self-employed keyword, the status is
    "Unemployed" and the employment_income entity reads "Unemployed", alone or
    followed by the income; and this although, for every unemployed keyword
    but "am not employee", the text then holds an employed keyword as well
    ("unemployed" holds "employed", "no job" holds "job", ...). *)
Theorem unemployed_wins_over_employed (text : ustring) (w : world) (keyword : ustring) :
  In keyword unemployed_keywords ->
  Py.contains keyword (Py.lower text) = true ->
  existsb (fun k => Py.contains k (Py.lower text)) self_employed_keywords = false ->
  detect_employment_status (Py.lower text) = Some (str "Unemployed")
  /\ (keyword <> str "am not employee" ->
      existsb (fun k => Py.contains k (Py.lower text)) employed_keywords = true)
  /\ exists es w' v,
       extract_loan_entities text w = (Ok es, w')
       /\ entity_of (str "employment_income") es
          = Some (mkEntity (str "employment_income") v (str "medium"))
       /\ (v = str "Unemployed" \/ exists income, v = str "Unemployed | " ++ income).
Proof.
  intros Hin Hc Hself.
  assert (Hs : detect_employment_status (Py.lower text) = Some (str "Unemployed")).
  { unfold detect_employment_status. rewrite Hself.
    pose proof (keyword_hit_intro (Py.lower text) keyword unemployed_keywords Hin Hc) as H.
    unfold keyword_hit in H. now rewrite H. }
  split; [exact Hs|]. split.
  - intros Hk.
    assert (He : exists k, In k employed_keywords /\ Py.contains k keyword = true).
    { unfold unemployed_keywords in Hin. cbn [In] in Hin.
      destruct Hin as [<-|[<-|[<-|[<-|[<-|[<-|[]]]]]]].
      - exists (str "employed"). split; [cbn; auto|vm_compute; reflexivity].
      - exists (str "employed"). split; [cbn; auto|vm_compute; reflexivity].
      - exists (str "working"). split; [cbn; auto|vm_compute; reflexivity].
      - exists (str "job"). split; [cbn; auto|vm_compute; reflexivity].
      - exists (str "job"). split; [cbn; auto|vm_compute; reflexivity].
      - now contradiction Hk. }
    destruct He as (k & Hk_in & Hk_c).
    apply (keyword_hit_intro (Py.lower text) k employed_keywords Hk_in).
    exact (contains_trans k keyword (Py.lower text) Hk_c Hc).
  - eexists _, _, _. split; [apply extract_run|].
    match goal with
    | |- context [detections ?o1 ?o2 ?o3 ?o4 ?o5 ?o6] =>
        destruct (entity_of_detections o1 o2 o3 o4 o5 o6) as (_ & _ & _ & E4 & _ & _)
    end.
    cbv zeta in E4. rewrite E4, Hs, employment_value_unemployed. cbn [option_map].
    split; [reflexivity|].
    destruct (amount_text (converted Py.float (Py.lower text) income_patterns))
      as [income|]; [right; now exists income|now left].
Qed.

(** X2 at "I am unemployed": "employed" occurs in the text too. *)
Lemma unemployed_witness :
  (In (str "unemployed") unemployed_keywords
   /\ Py.contains (str "unemployed") (Py.lower (str "I am unemployed")) = true
   /\ existsb (fun k => Py.contains k (Py.lower (str "I am unemployed")))
        self_employed_keywords = false)
  /\ (detect_employment_status (Py.lower (str "I am unemployed")) = Some (str "Unemployed")
      /\ (str "unemployed" <> str "am not employee" ->
          existsb (fun k => Py.contains k (Py.lower (str "I am unemployed")))
            employed_keywords = true)
      /\ exists es w' v,
           extract_loan_entities (str "I am unemployed") empty_world = (Ok es, w')
           /\ entity_of (str "employment_income") es
              = Some (mkEntity (str "employment_income") v (str "medium"))
           /\ (v = str "Unemployed" \/ exists income, v = str "Unemployed | " ++ income)).
Proof.
  split.
  - split; [left; reflexivity|split; vm_compute; reflexivity].
  - apply (unemployed_wins_over_employed (str "I am unemployed") empty_world
             (str "unemployed")).
    + left. reflexivity.
    + vm_compute. reflexivity.
    + vm_compute. reflexivity.
Defined.

(** X3. An income figure is always read as a loan amount too: every income
    pattern ends with the amount pattern of the same rank, so whenever an
    income pattern matches the lower-cased text an amount pattern matches as
    well, and the result holds a loan_amount entity beside the
    employment_income entity, even when the text speaks of an income only. *)
Theorem income_figure_gives_loan_amount (text : ustring) (w : world) :
  is_some (first_match true (Py.lower text) income_patterns) = true ->
  is_some (first_match true (Py.lower text) amount_patterns) = true
  /\ exists es w' amount income,
       extract_loan_entities text w = (Ok es, w')
       /\ entity_of (str "loan_amount") es
          = Some (mkEntity (str "loan_amount") amount (str "high"))
       /\ entity_of (str "employment_income") es
          = Some (mkEntity (str "employment_income") income (str "medium")).
Proof.
  intros Hi.
  assert (Ha : is_some (first_match true (Py.lower text) amount_patterns) = true).
  { pose proof (first_match_extends (Py.lower text) _ _ income_patterns_extend) as H.
    destruct (first_match true (Py.lower text) income_patterns); [|discriminate Hi].
    destruct (first_match true (Py.lower text) amount_patterns); [reflexivity|].
    exfalso. apply H; [discriminate|reflexivity]. }
  split; [exact Ha|].
  destruct (amount_text_some _ _ amount_patterns_numeric Ha) as [amount Eamount].
  destruct (amount_text_some _ _ income_patterns_numeric Hi) as [income Eincome].
  eexists _, _, amount, _. split; [apply extract_run|].
  match goal with
  | |- context [detections ?o1 ?o2 ?o3 ?o4 ?o5 ?o6] =>
      destruct (entity_of_detections o1 o2 o3 o4 o5 o6) as (_ & _ & E3 & E4 & _ & _)
  end.
  cbv zeta in E3, E4. rewrite E3, E4, Eamount, Eincome. split; [reflexivity|].
  unfold employment_value.
  replace (truthy (Some income)) with true.
  - rewrite orb_true_r. reflexivity.
  - rewrite <- Eincome, truthy_amount_text, Eincome. reflexivity.
Qed.

(** X3 at a text that states a salary and no loan amount. *)
Lemma income_figure_witness :
  is_some (first_match true (Py.lower (str "my salary is 50k per month")) income_patterns)
  = true
  /\ (is_some (first_match true (Py.lower (str "my salary is 50k per month"))
                 amount_patterns) = true
      /\ exists es w' amount income,
           extract_loan_entities (str "my salary is 50k per month") empty_world
           = (Ok es, w')
           /\ entity_of (str "loan_amount") es
              = Some (mkEntity (str "loan_amount") amount (str "high"))
           /\ entity_of (str "employment_income") es
              = Some (mkEntity (str "employment_income") income (str "medium"))).
Proof.
  split; [vm_compute; reflexivity|].
  apply (income_figure_gives_loan_amount (str "my salary is 50k per month") empty_world).
  vm_compute. reflexivity.
Defined.


(** X5. Figures are digits: a text without any decimal digit (numbers
    spelled out in words, say) yields no loan amount and no repayment
    timeline, and its employment_income entity, if any, is the employment
    status alone. *)
Theorem no_digit_no_figure (text : ustring) (w : world) :
  existsb Unicode.is_decimal text = false ->
  exists es w',
    extract_loan_entities text w = (Ok es, w')
    /\ entity_of (str "loan_amount") es = None
    /\ entity_of (str "repayment_timeline") es = None
    /\ entity_of (str "employment_income") es
       = option_map (fun status => mkEntity (str "employment_income") status (str "medium"))
           (detect_employment_status (Py.lower text)).
Proof.
  intros Hd. fold (has_digit text) in Hd. rewrite <- lower_digit in Hd.
  eexists _, _. split; [apply extract_run|].
  match goal with
  | |- context [detections ?o1 ?o2 ?o3 ?o4 ?o5 ?o6] =>
      destruct (entity_of_detections o1 o2 o3 o4 o5 o6) as (_ & _ & E3 & E4 & E5 & _)
  end.
  cbv zeta in E3, E4, E5. rewrite E3, E4, E5.
  rewrite (amount_text_none _ _
             (first_match_digit true _ _ amount_patterns_digit Hd)).
  rewrite (amount_text_none _ _
             (first_match_digit true _ _ income_patterns_digit Hd)).
  unfold timeline_of.
  rewrite (first_match_digit false _ _ timeline_patterns_digit Hd).
  rewrite employment_value_status. auto.
Qed.

(** X5 at a text that spells its numbers. *)
Lemma no_digit_witness :
  existsb Unicode.is_decimal
    (str "I am employed and need fifty thousand rupees for five years") = false
  /\ exists es w',
       extract_loan_entities
         (str "I am employed and need fifty thousand rupees for five years") empty_world
       = (Ok es, w')
       /\ entity_of (str "loan_amount") es = None
       /\ entity_of (str "repayment_timeline") es = None
       /\ entity_of (str "employment_income") es
          = option_map
              (fun status => mkEntity (str "employment_income") status (str "medium"))
              (detect_employment_status
                 (Py.lower
                    (str "I am employed and need fifty thousand rupees for five years"))).
Proof.
  split; [vm_compute; reflexivity|].
  apply (no_digit_no_figure
           (str "I am employed and need fifty thousand rupees for five years") empty_world).
  vm_compute. reflexivity.
Defined.

(** X6. Whole-number figures are exact below 2^53: a run of decimal digits
    whose value times the scale of its tag (1, 1,000, 100,000, 10,000,000)
    stays below 2^53 converts to exactly that product and is rendered as "₹"
    and the product with thousands separators; above, binary64 rounding sets
    in (2^53 + 1 rupees come out as 2^53). *)
Theorem whole_figures_are_exact (digits tag : ustring) (scale : N) :
  digits <> [] ->
  forallb Unicode.is_decimal digits = true ->
  In (tag, scale) [(str "direct", 1%N); (str "thousand", 1000%N); (str "lakh", 100000%N);
                   (str "crore", 10000000%N)] ->
  (Py.digits_value digits * scale < 2 ^ 53)%N ->
  rupees Py.float digits tag = Ok (Py.Finite (Py.digits_value digits * scale) 0)
  /\ format_rupees (Py.Finite (Py.digits_value digits * scale) 0)
     = str "₹" ++ Py.group_thousands (Py.repr_int (Py.digits_value digits * scale)).
Proof.
  intros Hne Hd Htag Hlt. split.
  - assert (Hf : Py.float digits = Ok (Py.of_ratio (Py.digits_value digits) 1))
      by (apply float_digit_run; now split).
    assert (Hscale : (0 < scale)%N).
    { cbn [In] in Htag.
      destruct Htag as [E|[E|[E|[E|[]]]]]; injection E as _ <-; reflexivity. }
    assert (Hn : (Py.digits_value digits < 2 ^ 53)%N) by nia.
    rewrite (of_ratio_integer _ Hn) in Hf.
    unfold rupees, to_rupees. cbn [In] in Htag.
    destruct Htag as [E|[E|[E|[E|[]]]]]; injection E as <- <-.
    + cbn. rewrite Hf. now rewrite N.mul_1_r.
    + change (ustring_eqb (str "thousand") (str "direct")) with false.
      change (ustring_eqb (str "thousand") (str "thousand")) with true.
      cbv iota. unfold bind, lift, ret. rewrite Hf. cbn [fst].
      change (Py.float_of_int 1000) with (Py.Finite 1000 0).
      now rewrite fmul_integers.
    + change (ustring_eqb (str "lakh") (str "direct")) with false.
      change (ustring_eqb (str "lakh") (str "thousand")) with false.
      change (ustring_eqb (str "lakh") (str "lakh")) with true.
      cbv iota. unfold bind, lift, ret. rewrite Hf. cbn [fst].
      change (Py.float_of_int 100000) with (Py.Finite 100000 0).
      now rewrite fmul_integers.
    + change (ustring_eqb (str "crore") (str "direct")) with false.
      change (ustring_eqb (str "crore") (str "thousand")) with false.
      change (ustring_eqb (str "crore") (str "lakh")) with false.
      change (ustring_eqb (str "crore") (str "crore")) with true.
      cbv iota. unfold bind, lift, ret. rewrite Hf. cbn [fst].
      change (Py.float_of_int 10000000) with (Py.Finite 10000000 0).
      now rewrite fmul_integers.
  - unfold format_rupees, Py.format_comma_0f.
    change (2 ^ N.of_nat 0)%N with 1%N. now rewrite round_half_even_integer.
Qed.

(** X6 at "75 lakh", and the rounding just above 2^53. *)
Lemma whole_figures_witness :
  (str "75" <> []
   /\ forallb Unicode.is_decimal (str "75") = true
   /\ In (str "lakh", 100000%N)
        [(str "direct", 1%N); (str "thousand", 1000%N); (str "lakh", 100000%N);
         (str "crore", 10000000%N)]
   /\ (Py.digits_value (str "75") * 100000 < 2 ^ 53)%N)
  /\ (rupees Py.float (str "75") (str "lakh")
      = Ok (Py.Finite (Py.digits_value (str "75") * 100000) 0)
      /\ format_rupees (Py.Finite (Py.digits_value (str "75") * 100000) 0)
         = str "₹" ++ Py.group_thousands
                        (Py.repr_int (Py.digits_value (str "75") * 100000)))
  /\ format_rupees (Py.Finite (Py.digits_value (str "75") * 100000) 0) = str "₹7,500,000"
  /\ rupees Py.float (str "9007199254740993") (str "direct")
     = Ok (Py.Finite 9007199254740992 0).
Proof.
  split; [|split; [|split]].
  - split; [discriminate|split; [reflexivity|split; [cbn; auto|vm_compute; reflexivity]]].
  - apply (whole_figures_are_exact (str "75") (str "lakh") 100000%N).
    + discriminate.
    + reflexivity.
    + cbn; auto.
    + vm_compute. reflexivity.
  - vm_compute. reflexivity.
  - vm_compute. reflexivity.
Defined.

(** * Facts about the handlers *)

(** ** Files *)

Lemma item_store_same (path : ustring) (f : file) (fs : filesystem) :
  item path (store path f fs) = Some f.
Proof.
  induction fs as [|[p g] fs IH]; simpl.
  - now rewrite ustring_eqb_refl.
  - destruct (ustring_eqb p path) eqn:E; simpl; rewrite E; [reflexivity|exact IH].
Qed.

Lemma item_store_other (path path' : ustring) (f : file) (fs : filesystem) :
  path' <> path -> item path' (store path f fs) = item path' fs.
Proof.
  intros Hne. induction fs as [|[p g] fs IH]; simpl.
  - destruct (ustring_eqb path path') eqn:E; [|reflexivity].
    apply ustring_eqb_eq in E. now subst.
  - destruct (ustring_eqb p path) eqn:E; simpl.
    + apply ustring_eqb_eq in E. subst p.
      destruct (ustring_eqb path path') eqn:E'; [|reflexivity].
      apply ustring_eqb_eq in E'. now subst.
    + now rewrite IH.
Qed.

Lemma store_store (path : ustring) (f g : file) (fs : filesystem) :
  store path f (store path g fs) = store path f fs.
Proof.
  induction fs as [|[p h] fs IH]; simpl.
  - now rewrite ustring_eqb_refl.
  - destruct (ustring_eqb p path) eqn:E; simpl; rewrite E; [reflexivity|now rewrite IH].
Qed.

(** ** States *)

Lemma quiet_refl (s : server) : quiet s s.
Proof. unfold quiet, like. auto. Qed.

Lemma like_trans (d d' : filesystem) (a a' : option (list (list pyvalue)))
    (s s1 s2 : server) :
  like d a s s1 -> like d' a' s1 s2 -> like d' a' s s2.
Proof.
  unfold like. intros (D & A & K & N & F) (D' & A' & K' & N' & F').
  repeat split; congruence.
Qed.

Lemma like_quiet (d : filesystem) (a : option (list (list pyvalue))) (s s1 s2 : server) :
  like d a s s1 -> quiet s1 s2 -> like d a s s2.
Proof.
  intros H Q. pose proof (like_trans _ _ _ _ _ _ _ H Q) as H'.
  destruct H as (D & A & _). now rewrite D, A in H'.
Qed.

Lemma quiet_console (lines : list ustring) (s : server) : quiet s (IO.set_console lines s).
Proof. unfold quiet, like. cbn. auto. Qed.

(** ** Runs that return *)

Section Runs.

Variable rt : runtime.

Lemma leads_ret {A : Type} (a : A) (s : server) (P : A -> server -> Prop) :
  P a s -> leads (IO.ret a) s P.
Proof. intros H. now exists a, s. Qed.

Lemma leads_bind {A B : Type} (m : IO.t A) (k : A -> IO.t B) (s : server)
    (P : B -> server -> Prop) :
  leads m s (fun a s1 => leads (k a) s1 P) -> leads (IO.bind m k) s P.
Proof.
  intros (a & s1 & E & b & s2 & E' & H). exists b, s2. split; [|exact H].
  unfold IO.bind. now rewrite E.
Qed.

Lemma leads_try {A : Type} (body : IO.t A) (handler : exception -> IO.t A) (s : server)
    (P : A -> server -> Prop) :
  leads body s P -> leads (IO.try_except body handler) s P.
Proof.
  intros (a & s' & E & H). exists a, s'. split; [|exact H].
  unfold IO.try_except. now rewrite E.
Qed.

Lemma leads_weaken {A : Type} (m : IO.t A) (s : server) (P Q : A -> server -> Prop) :
  leads m s P -> (forall a s', P a s' -> Q a s') -> leads m s Q.
Proof. intros (a & s' & E & H) HPQ. exists a, s'. auto. Qed.

Lemma leads_print (line : ustring) (s : server) (P : unit -> server -> Prop) :
  (forall s', quiet s s' -> P tt s') -> leads (IO.print line) s P.
Proof.
  intros H. eexists tt, _. split; [reflexivity|]. apply H, quiet_console.
Qed.

Lemma leads_lift {A : Type} (o : outcome A) (a : A) (s : server)
    (P : A -> server -> Prop) :
  o = Done a -> P a s -> leads (IO.lift o) s P.
Proof. intros -> H. now exists a, s. Qed.

Lemma leads_attempt (s : server) (P : unit -> server -> Prop) :
  fate s = [] -> P tt s -> leads IO.attempt s P.
Proof. intros Hf H. exists tt, s. split; [|exact H]. unfold IO.attempt. now rewrite Hf. Qed.

Lemma leads_now (s : server) (P : datetime -> server -> Prop) :
  P (now s) s -> leads datetime_now s P.
Proof. intros H. now exists (now s), s. Qed.

Lemma leads_save (audio_file : file_storage) (filepath : ustring) (s : server)
    (P : unit -> server -> Prop) :
  fate s = [] ->
  (forall s',
     like (store filepath (mkFile (stream audio_file) (now s)) (disk s)) (applications s)
       s s' ->
     P tt s') ->
  leads (save audio_file filepath) s P.
Proof.
  intros Hf H. eexists tt, _. split.
  - unfold save, open_truncate, write_bytes, IO.bind, IO.attempt, IO.modify.
    rewrite Hf. cbn. rewrite Hf. cbn. rewrite item_store_same, store_store. reflexivity.
  - apply H. unfold like. cbn. auto.
Qed.

Lemma leads_getsize (path : ustring) (f : file) (s : server) (P : N -> server -> Prop) :
  fate s = [] -> item path (disk s) = Some f ->
  P (N.of_nat (length (content f))) s -> leads (getsize rt path) s P.
Proof.
  intros Hf Hi H. eexists _, s. split; [|exact H].
  unfold getsize, IO.bind, IO.attempt, IO.get. now rewrite Hf, Hi.
Qed.

Lemma leads_getctime (path : ustring) (f : file) (s : server)
    (P : datetime -> server -> Prop) :
  fate s = [] -> item path (disk s) = Some f ->
  P (changed f) s -> leads (getctime rt path) s P.
Proof.
  intros Hf Hi H. eexists _, s. split; [|exact H].
  unfold getctime, IO.bind, IO.attempt, IO.get. now rewrite Hf, Hi.
Qed.

Lemma leads_transcribe_audio (filepath : ustring) (f : file) (s : server)
    (P : ustring -> server -> Prop) :
  fate s = [] -> item filepath (disk s) = Some f ->
  (forall s', quiet s s' -> P (transcript_of (whisper rt (api_key s) (content f))) s') ->
  leads (transcribe_audio rt filepath) s P.
Proof.
  intros Hf Hi H.
  unfold leads, transcribe_audio, IO.try_except, read_bytes, IO.bind, IO.attempt, IO.get,
    IO.lift.
  rewrite Hf, Hi. cbn.
  destruct (whisper rt (api_key s) (content f)) as [t|e] eqn:E.
  - exists t, s. split; [reflexivity|]. apply H, quiet_refl.
  - unfold transcript_of, failure_text in H.
    destruct (is_api_error e); [|destruct (is_authentication_error e)];
      (eexists _, _; split; [reflexivity|exact (H _ (quiet_console _ _))]).
Qed.

(** The extractor, called from a handler: its entities, and its lines on
    the console. *)
Lemma leads_extract (text : ustring) (s : server) (P : list entity -> server -> Prop) :
  (forall entities s',
     (forall w, fst (extract_loan_entities text w) = Ok entities) ->
     quiet s s' -> P entities s') ->
  leads (call rt (extract_loan_entities text)) s P.
Proof.
  intros H.
  destruct (extract_with_yields Py.float text) as [lines Hy].
  fold (extract_loan_entities text) in Hy.
  pose proof (extract_spec_detections text) as E. rewrite E in Hy.
  eexists _, _. split.
  - unfold call. rewrite Hy. reflexivity.
  - apply H.
    + intros w. now rewrite Hy.
    + unfold quiet, like. cbn. auto.
Qed.

Lemma leads_print_entities (entities : list entity) (s : server)
    (P : unit -> server -> Prop) :
  (forall s', quiet s s' -> P tt s') -> leads (print_entities entities) s P.
Proof.
  revert s. induction entities as [|e entities IH]; intros s H.
  - apply leads_ret, H, quiet_refl.
  - cbn [print_entities]. apply leads_bind, leads_print. intros s1 Q1.
    apply IH. intros s2 Q2. apply H. exact (like_quiet _ _ _ _ _ Q1 Q2).
Qed.

End Runs.

(** One more step of a run: the state it leaves, against the first one. *)
Ltac step :=
  let s' := fresh "s" in
  let Q := fresh "Q" in
  intros s' Q;
  match goal with
  | H : like _ _ _ _ |- _ =>
      apply (like_trans _ _ _ _ _ _ _ H) in Q;
      rewrite ?(proj1 H), ?(proj1 (proj2 H)) in Q; clear H
  end.

(** The parts of the current state, read in the first one. *)
Ltac back :=
  match goal with
  | H : like _ _ _ _ |- _ =>
      rewrite ?(proj1 H), ?(proj1 (proj2 H)), ?(proj1 (proj2 (proj2 H))),
        ?(proj1 (proj2 (proj2 (proj2 H)))), ?(proj2 (proj2 (proj2 (proj2 H))))
  end.

(** ** Runs that may raise *)










(** ** The upload folder *)

Lemma strip_prefix_some (p s r : ustring) : strip_prefix p s = Some r -> s = p ++ r.
Proof.
  revert s. induction p as [|a p IH]; intros s; simpl.
  - now intros [= ->].
  - destruct s as [|b s]; [discriminate|].
    destruct (a =? b)%N eqn:E; [|discriminate].
    apply N.eqb_eq in E. subst b. intros H. now rewrite (IH s H).
Qed.

Lemma strip_prefix_app (p r : ustring) : strip_prefix p (p ++ r) = Some r.
Proof. induction p as [|a p IH]; simpl; [reflexivity|]. now rewrite N.eqb_refl. Qed.

Lemma item_in {A : Type} (key : ustring) (v : A) (d : list (ustring * A)) :
  In (key, v) d -> exists v', item key d = Some v'.
Proof.
  induction d as [|[k u] d IH]; [intros []|]. simpl.
  destruct (ustring_eqb k key) eqn:E; [intros _; now exists u|].
  intros [H|H]; [|now apply IH].
  injection H as -> _. now rewrite ustring_eqb_refl in E.
Qed.

Lemma in_store (path : ustring) (f : file) (fs : filesystem) : In (path, f) (store path f fs).
Proof.
  induction fs as [|[p g] fs IH]; simpl; [now left|].
  destruct (ustring_eqb p path) eqn:E.
  - apply ustring_eqb_eq in E. subst. now left.
  - right. exact IH.
Qed.

Lemma no_slash_start (name : ustring) :
  existsb (N.eqb 47) name = false -> Py.startswith (str "/") name = false.
Proof.
  destruct name as [|c name]; [reflexivity|]. simpl.
  intros H. apply orb_false_iff in H. destruct H as [H _]. now rewrite H.
Qed.

Lemma upload_path (name : ustring) :
  Py.startswith (str "/") name = false ->
  path_join UPLOAD_FOLDER name = str "uploads/" ++ name.
Proof. intros H. unfold path_join. now rewrite H. Qed.

(** Every name of the listing is a file of the folder. *)
Lemma names_in_plain (name : ustring) (fs : filesystem) :
  In name (names_in UPLOAD_FOLDER fs) ->
  existsb (N.eqb 47) name = false /\ In (str "uploads/" ++ name) (map fst fs).
Proof.
  unfold names_in. rewrite in_flat_map. intros ([p f] & Hin & Hname). cbn [fst] in Hname.
  destruct (strip_prefix (UPLOAD_FOLDER ++ str "/") p) as [nm|] eqn:E; [|destruct Hname].
  destruct (existsb (N.eqb 47) nm) eqn:Es; [destruct Hname|].
  destruct (Py.is_nil nm); [destruct Hname|].
  destruct Hname as [->|[]]. split; [exact Es|].
  apply strip_prefix_some in E. subst p.
  apply in_map_iff. now exists (UPLOAD_FOLDER ++ str "/" ++ name, f).
Qed.

Lemma names_in_item (name : ustring) (fs : filesystem) :
  In name (names_in UPLOAD_FOLDER fs) ->
  exists f, item (path_join UPLOAD_FOLDER name) fs = Some f.
Proof.
  intros Hin. destruct (names_in_plain name fs Hin) as [Es Hp].
  rewrite (upload_path name (no_slash_start name Es)).
  apply in_map_iff in Hp. destruct Hp as ([p f] & Ep & Hp). cbn [fst] in Ep. subst p.
  exact (item_in _ _ _ Hp).
Qed.

(** A file saved in the folder under a plain name is in the listing. *)
Lemma names_in_store (name : ustring) (f : file) (fs : filesystem) :
  existsb (N.eqb 47) name = false -> name <> [] ->
  In name (names_in UPLOAD_FOLDER (store (str "uploads/" ++ name) f fs)).
Proof.
  intros Hs Hne. unfold names_in. rewrite in_flat_map.
  exists (str "uploads/" ++ name, f). split; [apply in_store|]. cbn [fst].
  change (UPLOAD_FOLDER ++ str "/") with (str "uploads/").
  rewrite strip_prefix_app, Hs. destruct name; [contradiction|]. now left.
Qed.

Lemma endswith_app (a suffix : ustring) : endswith suffix (a ++ suffix) = true.
Proof. unfold endswith. rewrite rev_app_distr. apply startswith_iff. now exists (rev a). Qed.

Section Listing.

Variable rt : runtime.

Lemma leads_collect_recordings (files : list ustring) (recordings : list pyvalue)
    (s : server) (P : list pyvalue -> server -> Prop) :
  fate s = [] ->
  (forall name, In name files ->
     exists f, item (path_join UPLOAD_FOLDER name) (disk s) = Some f) ->
  P (recordings
     ++ map (recording_entry (disk s)) (filter (endswith (str ".wav")) files)) s ->
  leads (collect_recordings rt files recordings) s P.
Proof.
  intros Hf. revert recordings. induction files as [|file files IH]; intros recordings Hin H.
  - cbn in H. rewrite app_nil_r in H. now apply leads_ret.
  - cbn [collect_recordings filter] in *.
    destruct (endswith (str ".wav") file).
    + destruct (Hin file (or_introl eq_refl)) as [f Hitem].
      apply leads_bind, (leads_getsize rt _ f _ _ Hf Hitem).
      apply leads_bind, (leads_getctime rt _ f _ _ Hf Hitem).
      apply IH; [intros name Hn; apply Hin; now right|].
      cbn [map] in H. unfold recording_entry at 1 in H. rewrite Hitem in H.
      now rewrite <- app_assoc.
    + apply IH; [intros name Hn; apply Hin; now right|exact H].
Qed.

Lemma leads_get_recordings (s : server) :
  fate s = [] ->
  leads (get_recordings rt) s
    (fun r s' =>
       s' = s
       /\ r = mkResponse
                [(str "count",
                  VInt (Z.of_nat
                          (length (filter (endswith (str ".wav"))
                                     (names_in UPLOAD_FOLDER (disk s))))));
                 (str "recordings",
                  VList (map (recording_entry (disk s))
                           (filter (endswith (str ".wav"))
                              (names_in UPLOAD_FOLDER (disk s)))))] 200).
Proof.
  intros Hf. unfold get_recordings. apply leads_try.
  apply leads_bind. unfold listdir.
  apply leads_bind, (leads_attempt _ _ Hf).
  apply leads_bind. eexists s, s. split; [reflexivity|].
  apply leads_ret.
  apply leads_bind, leads_collect_recordings;
    [exact Hf|intros name Hn; now apply names_in_item|].
  apply leads_ret. cbn [app]. rewrite length_map. auto.
Qed.

End Listing.

(** * Properties of the handlers *)

Lemma recording_path_join (t : datetime) :
  path_join UPLOAD_FOLDER (str "recording_" ++ strftime_compact t ++ str ".wav")
  = recording_path t.
Proof. reflexivity. Qed.

(** X7. A request without an "audio" part, or whose audio part has an empty
    file name, is answered with status 400 and success False, and nothing
    else happens: no file is written and no input or output operation is
    attempted. *)
Theorem upload_without_audio_is_rejected (rt : runtime) (request : request) (s : server)
    (files : list (ustring * file_storage)) :
  request_files request = Done files ->
  item (str "audio") files = None
  \/ (exists audio_file,
        item (str "audio") files = Some audio_file /\ filename audio_file = []) ->
  exists s',
    upload_audio rt request s
    = (Done (mkResponse
               [(str "error",
                 VStr (match item (str "audio") files with
                       | None => str "No audio file provided"
                       | Some _ => str "Empty file"
                       end));
                (str "success", VBool false)] 400), s')
    /\ disk s' = disk s /\ applications s' = applications s /\ fate s' = fate s.
Proof.
  intros Hfiles Hbad.
  unfold upload_audio, IO.try_except, IO.bind, IO.print, IO.modify, IO.lift.
  rewrite Hfiles. cbn -[str item].
  destruct Hbad as [Hnone|(audio_file & Hsome & Hname)].
  - rewrite Hnone. eexists. split; [reflexivity|]. cbn. auto.
  - rewrite Hsome, Hname. eexists. split; [reflexivity|]. cbn. auto.
Qed.

(** X7 at a request with no part at all. *)
Lemma upload_without_audio_witness :
  (request_files (mkRequest (Done []) (Done VNone)) = Done []
   /\ (item (str "audio") (@nil (ustring * file_storage)) = None
       \/ (exists audio_file,
             item (str "audio") (@nil (ustring * file_storage)) = Some audio_file
             /\ filename audio_file = [])))
  /\ exists s',
       upload_audio (sample_runtime (Done [])) (mkRequest (Done []) (Done VNone))
         sample_server
       = (Done (mkResponse
                  [(str "error",
                    VStr (match item (str "audio") (@nil (ustring * file_storage)) with
                          | None => str "No audio file provided"
                          | Some _ => str "Empty file"
                          end));
                   (str "success", VBool false)] 400), s')
       /\ disk s' = disk sample_server /\ applications s' = applications sample_server
       /\ fate s' = fate sample_server.
Proof.
  split; [split; [reflexivity|left; reflexivity]|].
  apply (upload_without_audio_is_rejected (sample_runtime (Done []))
           (mkRequest (Done []) (Done VNone)) sample_server []).
  - reflexivity.
  - left. reflexivity.
Defined.

(** A successful upload, step by step. *)
Lemma upload_leads (rt : runtime) (request : request) (s : server)
    (files : list (ustring * file_storage)) (audio_file : file_storage) :
  request_files request = Done files ->
  item (str "audio") files = Some audio_file ->
  filename audio_file <> [] ->
  fate s = [] ->
  exists entities,
    (forall w,
       fst (extract_loan_entities
              (transcript_of (whisper rt (api_key s) (stream audio_file))) w)
       = Ok entities)
    /\ leads (upload_audio rt request) s
         (fun r s' =>
            r = upload_response (now s) audio_file
                  (transcript_of (whisper rt (api_key s) (stream audio_file))) entities
            /\ like (store (recording_path (now s)) (mkFile (stream audio_file) (now s))
                       (disk s)) (applications s) s s').
Proof.
  intros Hfiles Haudio Hname Hfate.
  assert (Hn : ustring_eqb (filename audio_file) [] = false).
  { destruct (ustring_eqb (filename audio_file) []) eqn:E; [|reflexivity].
    apply ustring_eqb_eq in E. contradiction. }
  destruct (extract_detections (transcript_of (whisper rt (api_key s) (stream audio_file))))
    as (o1 & o2 & o3 & o4 & o5 & o6 & E & _).
  exists (detections o1 o2 o3 o4 o5 o6). split.
  { intros w. now rewrite extract_fst. }
  pose proof (quiet_refl s) as H. unfold quiet in H.
  unfold upload_audio. apply leads_try.
  apply leads_bind, leads_print. step.
  apply leads_bind, leads_print. step.
  apply leads_bind, (leads_lift _ _ _ _ Hfiles).
  rewrite Haudio, Hn.
  apply leads_bind, leads_now. back. rewrite recording_path_join.
  apply leads_bind, leads_save; [back; exact Hfate|]. back. step.
  apply leads_bind, (leads_getsize rt _ (mkFile (stream audio_file) (now s)));
    [back; exact Hfate|back; apply item_store_same|].
  apply leads_bind, leads_print. step.
  apply leads_bind, leads_print. step.
  apply leads_bind, (leads_transcribe_audio rt _ (mkFile (stream audio_file) (now s)));
    [back; exact Hfate|back; apply item_store_same|].
  back. cbn [content]. step.
  apply leads_bind, leads_print. step.
  apply leads_bind, leads_print. step.
  apply leads_bind, leads_extract. intros entities s' He.
  assert (entities = detections o1 o2 o3 o4 o5 o6) as ->.
  { pose proof (He empty_world) as He'. rewrite extract_fst, E in He'. congruence. }
  clear He. revert s'. step.
  apply leads_bind, leads_print. step.
  apply leads_bind, leads_print_entities. step.
  apply leads_bind, leads_print. step.
  apply leads_bind, leads_print. step.
  apply leads_ret. split; [reflexivity|assumption].
Qed.

(** X8. When the request has an audio part with a file name and no input or
    output operation fails, the upload is answered with status 200 and
    success True: the bytes are saved as uploads/recording_<time>.wav, named
    after the clock alone (the file name the client sent is not used); the
    transcription is the text of the service or, when the service raises,
    the text of the failure, which is then treated as a transcript like any
    other; and the entities are those the extractor returns for it. *)
Theorem upload_saves_transcribes_extracts (rt : runtime) (request : request) (s : server)
    (files : list (ustring * file_storage)) (audio_file : file_storage) :
  request_files request = Done files ->
  item (str "audio") files = Some audio_file ->
  filename audio_file <> [] ->
  fate s = [] ->
  exists entities s',
    (forall w,
       fst (extract_loan_entities
              (transcript_of (whisper rt (api_key s) (stream audio_file))) w)
       = Ok entities)
    /\ upload_audio rt request s
       = (Done (mkResponse
                  [(str "message", VStr (str "Audio uploaded and transcribed successfully"));
                   (str "filename",
                    VStr (str "recording_" ++ strftime_compact (now s) ++ str ".wav"));
                   (str "size", VStr (size_kb (N.of_nat (length (stream audio_file)))));
                   (str "transcription",
                    VStr (transcript_of (whisper rt (api_key s) (stream audio_file))));
                   (str "entities", VList (map entity_value entities));
                   (str "success", VBool true)] 200), s')
    /\ disk s'
       = store (str "uploads/recording_" ++ strftime_compact (now s) ++ str ".wav")
           (mkFile (stream audio_file) (now s)) (disk s)
    /\ applications s' = applications s.
Proof.
  intros Hfiles Haudio Hname Hfate.
  destruct (upload_leads rt request s files audio_file Hfiles Haudio Hname Hfate)
    as (entities & He & r & s' & Hrun & -> & Hdisk & Happ & _).
  exists entities, s'. split; [exact He|]. split; [exact Hrun|]. split; [exact Hdisk|].
  exact Happ.
Qed.

(** X8 at an upload the service transcribes as a loan enquiry. *)
Lemma upload_witness :
  (request_files sample_upload
   = Done [(str "audio", mkFileStorage (str "voice.webm") [82; 73; 70; 70]%N)]
   /\ item (str "audio")
        [(str "audio", mkFileStorage (str "voice.webm") [82; 73; 70; 70]%N)]
      = Some (mkFileStorage (str "voice.webm") [82; 73; 70; 70]%N)
   /\ filename (mkFileStorage (str "voice.webm") [82; 73; 70; 70]%N) <> []
   /\ fate sample_server = [])
  /\ (exists entities s',
        (forall w,
           fst (extract_loan_entities
                  (transcript_of
                     (whisper (sample_runtime (Done (str "I need a home loan for 5 years")))
                        (api_key sample_server)
                        (stream (mkFileStorage (str "voice.webm") [82; 73; 70; 70]%N))))
                  w)
           = Ok entities)
        /\ upload_audio (sample_runtime (Done (str "I need a home loan for 5 years")))
             sample_upload sample_server
           = (Done (mkResponse
                      [(str "message",
                        VStr (str "Audio uploaded and transcribed successfully"));
                       (str "filename",
                        VStr (str "recording_" ++ strftime_compact (now sample_server)
                              ++ str ".wav"));
                       (str "size",
                        VStr (size_kb
                                (N.of_nat
                                   (length
                                      (stream (mkFileStorage (str "voice.webm")
                                                 [82; 73; 70; 70]%N))))));
                       (str "transcription",
                        VStr (transcript_of
                                (whisper
                                   (sample_runtime
                                      (Done (str "I need a home loan for 5 years")))
                                   (api_key sample_server)
                                   (stream (mkFileStorage (str "voice.webm")
                                              [82; 73; 70; 70]%N)))));
                       (str "entities", VList (map entity_value entities));
                       (str "success", VBool true)] 200), s')
        /\ disk s'
           = store (str "uploads/recording_" ++ strftime_compact (now sample_server)
                    ++ str ".wav")
               (mkFile (stream (mkFileStorage (str "voice.webm") [82; 73; 70; 70]%N))
                  (now sample_server))
               (disk sample_server)
        /\ applications s' = applications sample_server)
  /\ fst (upload_audio (sample_runtime (Done (str "I need a home loan for 5 years")))
            sample_upload sample_server)
     = Done (mkResponse
               [(str "message", VStr (str "Audio uploaded and transcribed successfully"));
                (str "filename", VStr (str "recording_20240517_093015.wav"));
                (str "size", VStr (str "0.00 KB"));
                (str "transcription", VStr (str "I need a home loan for 5 years"));
                (str "entities",
                 VList [VDict [(str "field", VStr (str "loan_type"));
                               (str "value", VStr (str "Home Loan"));
                               (str "confidence", VStr (str "high"))];
                        VDict [(str "field", VStr (str "repayment_timeline"));
                               (str "value", VStr (str "5 years"));
                               (str "confidence", VStr (str "high"))]]);
                (str "success", VBool true)] 200).
Proof.
  split; [|split].
  - split; [reflexivity|split; [reflexivity|split; [discriminate|reflexivity]]].
  - apply (upload_saves_transcribes_extracts
             (sample_runtime (Done (str "I need a home loan for 5 years")))
             sample_upload sample_server
             [(str "audio", mkFileStorage (str "voice.webm") [82; 73; 70; 70]%N)]
             (mkFileStorage (str "voice.webm") [82; 73; 70; 70]%N)).
    + reflexivity.
    + reflexivity.
    + discriminate.
    + reflexivity.
  - vm_compute. reflexivity.
Defined.



(** ** Recordings *)

Lemma uint_digits_no_slash (d : Decimal.uint) :
  existsb (N.eqb 47) (Py.uint_digits d) = false.
Proof. induction d; simpl; auto. Qed.

Lemma zero_pad_no_slash (width : nat) (n : N) :
  existsb (N.eqb 47) (zero_pad width n) = false.
Proof.
  unfold zero_pad. rewrite existsb_app. unfold Py.repr_int.
  rewrite uint_digits_no_slash, orb_false_r.
  induction (width - length (Py.uint_digits (N.to_uint n))); simpl; auto.
Qed.

Lemma recording_name_plain (t : datetime) :
  existsb (N.eqb 47) (recording_name t) = false /\ recording_name t <> [].
Proof.
  split; [|discriminate].
  unfold recording_name, strftime_compact. rewrite !existsb_app, !zero_pad_no_slash.
  unfold Py.repr_int. rewrite uint_digits_no_slash. reflexivity.
Qed.

Lemma recording_name_wav (t : datetime) : endswith (str ".wav") (recording_name t) = true.
Proof.
  unfold recording_name. rewrite app_assoc. apply endswith_app.
Qed.

(** X11. When no operation fails, [get_recordings] answers 200 with exactly
    the files of the upload folder whose names end in ".wav", in the order
    [os.listdir] gives them, each with its name, its size in KB with two
    decimals and its change time; "count" is their number; files of other
    names (applications.csv, say) are left out; and the call changes
    nothing, not even the console. *)
Theorem recordings_are_the_wav_files (rt : runtime) (s : server) :
  fate s = [] ->
  exists names,
    names = filter (endswith (str ".wav")) (names_in UPLOAD_FOLDER (disk s))
    /\ get_recordings rt s
       = (Done (mkResponse
                  [(str "count", VInt (Z.of_nat (length names)));
                   (str "recordings", VList (map (recording_entry (disk s)) names))] 200),
          s)
    /\ Forall
         (fun name =>
            endswith (str ".wav") name = true
            /\ exists f,
                 item (str "uploads/" ++ name) (disk s) = Some f
                 /\ recording_entry (disk s) name
                    = VDict [(str "filename", VStr name);
                             (str "size", VStr (size_kb (N.of_nat (length (content f)))));
                             (str "created", VStr (strftime_readable (changed f)))])
         names.
Proof.
  intros Hf. eexists. split; [reflexivity|]. split.
  - destruct (leads_get_recordings rt s Hf) as (r & s' & E & -> & ->). exact E.
  - apply Forall_forall. intros name Hin. apply filter_In in Hin.
    destruct Hin as [Hin Hwav]. split; [exact Hwav|].
    destruct (names_in_item name (disk s) Hin) as [f Hitem].
    exists f. unfold recording_entry. rewrite Hitem. split; [|reflexivity].
    rewrite <- Hitem. f_equal. symmetry. apply upload_path, no_slash_start.
    exact (proj1 (names_in_plain name (disk s) Hin)).
Qed.

(** X11 at a folder with a recording and the applications file. *)
Lemma recordings_witness :
  fate (mkServer [] [] [(str "uploads/a.wav", mkFile [1; 2; 3]%N (mkDatetime 2024 1 2 3 4 5 0));
                        (str "uploads/applications.csv",
                         mkFile [4]%N (mkDatetime 2024 1 2 3 4 6 0))]
          (mkDatetime 2024 1 2 3 4 7 0) None []) = []
  /\ get_recordings (mkRuntime (fun _ _ => Done []) (fun _ => []) (fun _ => [])
                       (fun _ => mkException false false [])
                       (fun _ _ => mkException false false [])
                       (fun _ => mkException false false []))
       (mkServer [] [] [(str "uploads/a.wav",
                         mkFile [1; 2; 3]%N (mkDatetime 2024 1 2 3 4 5 0));
                        (str "uploads/applications.csv",
                         mkFile [4]%N (mkDatetime 2024 1 2 3 4 6 0))]
          (mkDatetime 2024 1 2 3 4 7 0) None [])
     = (Done (mkResponse
                [(str "count", VInt 1);
                 (str "recordings",
                  VList [VDict [(str "filename", VStr (str "a.wav"));
                                (str "size", VStr (str "0.00 KB"));
                                (str "created", VStr (str "2024-01-02 03:04:05"))]])] 200),
        mkServer [] [] [(str "uploads/a.wav",
                         mkFile [1; 2; 3]%N (mkDatetime 2024 1 2 3 4 5 0));
                        (str "uploads/applications.csv",
                         mkFile [4]%N (mkDatetime 2024 1 2 3 4 6 0))]
          (mkDatetime 2024 1 2 3 4 7 0) None []).
Proof.
  split; [reflexivity|].
  destruct (recordings_are_the_wav_files
              (mkRuntime (fun _ _ => Done []) (fun _ => []) (fun _ => [])
                 (fun _ => mkException false false [])
                 (fun _ _ => mkException false false [])
                 (fun _ => mkException false false []))
              (mkServer [] [] [(str "uploads/a.wav",
                                mkFile [1; 2; 3]%N (mkDatetime 2024 1 2 3 4 5 0));
                               (str "uploads/applications.csv",
                                mkFile [4]%N (mkDatetime 2024 1 2 3 4 6 0))]
                 (mkDatetime 2024 1 2 3 4 7 0) None [])
              eq_refl) as (names & -> & E & _).
  rewrite E. vm_compute. reflexivity.
Defined.

(** X12. An upload shows in the listing: after a successful upload, a
    listing with no failing operation holds an entry for the recording, under
    the name the upload has answered and with the size of the bytes sent. *)
Theorem uploaded_recording_is_listed (rt : runtime) (request : request) (s : server)
    (files : list (ustring * file_storage)) (audio_file : file_storage) :
  request_files request = Done files ->
  item (str "audio") files = Some audio_file ->
  filename audio_file <> [] ->
  fate s = [] ->
  exists r1 s1 r2 s2 name recordings created,
    upload_audio rt request s = (Done r1, s1)
    /\ item (str "filename") (body r1) = Some (VStr name)
    /\ get_recordings rt s1 = (Done r2, s2)
    /\ status r2 = 200%N
    /\ item (str "recordings") (body r2) = Some (VList recordings)
    /\ In (VDict [(str "filename", VStr name);
                  (str "size", VStr (size_kb (N.of_nat (length (stream audio_file)))));
                  (str "created", VStr created)])
         recordings.
Proof.
  intros Hfiles Haudio Hname Hfate.
  destruct (upload_leads rt request s files audio_file Hfiles Haudio Hname Hfate)
    as (entities & _ & r1 & s1 & Hrun & -> & Hdisk & _ & _ & _ & Hfate1).
  rewrite Hfate in Hfate1.
  destruct (leads_get_recordings rt s1 Hfate1) as (r2 & s2 & Hlist & -> & ->).
  exists (upload_response (now s) audio_file
            (transcript_of (whisper rt (api_key s) (stream audio_file))) entities),
    s1.
  eexists _, s1, (recording_name (now s)), _, (strftime_readable (now s)).
  split; [exact Hrun|]. split; [reflexivity|]. split; [exact Hlist|].
  split; [reflexivity|]. split; [reflexivity|].
  destruct (recording_name_plain (now s)) as [Hplain Hne].
  apply in_map_iff. exists (recording_name (now s)). split.
  - unfold recording_entry.
    rewrite (upload_path _ (no_slash_start _ Hplain)), Hdisk.
    fold (recording_path (now s)). rewrite item_store_same. reflexivity.
  - apply filter_In. split; [|apply recording_name_wav].
    rewrite Hdisk. exact (names_in_store _ _ _ Hplain Hne).
Qed.

(** X12 at the upload of four bytes into an empty folder. *)
Lemma uploaded_recording_witness :
  (request_files sample_upload
   = Done [(str "audio", mkFileStorage (str "voice.webm") [82; 73; 70; 70]%N)]
   /\ item (str "audio")
        [(str "audio", mkFileStorage (str "voice.webm") [82; 73; 70; 70]%N)]
      = Some (mkFileStorage (str "voice.webm") [82; 73; 70; 70]%N)
   /\ filename (mkFileStorage (str "voice.webm") [82; 73; 70; 70]%N) <> []
   /\ fate sample_server = [])
  /\ (exists r1 s1 r2 s2 name recordings created,
        upload_audio (sample_runtime (Done [])) sample_upload sample_server = (Done r1, s1)
        /\ item (str "filename") (body r1) = Some (VStr name)
        /\ get_recordings (sample_runtime (Done [])) s1 = (Done r2, s2)
        /\ status r2 = 200%N
        /\ item (str "recordings") (body r2) = Some (VList recordings)
        /\ In (VDict [(str "filename", VStr name);
                      (str "size",
                       VStr (size_kb
                               (N.of_nat
                                  (length
                                     (stream (mkFileStorage (str "voice.webm")
                                                [82; 73; 70; 70]%N))))));
                      (str "created", VStr created)])
             recordings)
  /\ fst (get_recordings (sample_runtime (Done []))
            (snd (upload_audio (sample_runtime (Done [])) sample_upload sample_server)))
     = Done (mkResponse
               [(str "count", VInt 1);
                (str "recordings",
                 VList [VDict [(str "filename", VStr (str "recording_20240517_093015.wav"));
                               (str "size", VStr (str "0.00 KB"));
                               (str "created", VStr (str "2024-05-17 09:30:15"))]])] 200).
Proof.
  split; [|split].
  - split; [reflexivity|split; [reflexivity|split; [discriminate|reflexivity]]].
  - apply (uploaded_recording_is_listed (sample_runtime (Done [])) sample_upload
             sample_server
             [(str "audio", mkFileStorage (str "voice.webm") [82; 73; 70; 70]%N)]
             (mkFileStorage (str "voice.webm") [82; 73; 70; 70]%N)).
    + reflexivity.
    + reflexivity.
    + discriminate.
    + reflexivity.
  - vm_compute. reflexivity.
Defined.

(** ** The names of the recordings *)

Lemma below (P : N -> bool) (k : nat) :
  forallb (fun i => P (N.of_nat i)) (seq 0 k) = true ->
  forall n, (n < N.of_nat k)%N -> P n = true.
Proof.
  intros H n Hn. rewrite forallb_forall in H.
  rewrite <- (N2Nat.id n). apply H. apply in_seq. lia.
Qed.

Lemma two_digits (n : N) :
  (n < 100)%N -> length (zero_pad 2 n) = 2 /\ Py.digits_value (zero_pad 2 n) = n.
Proof.
  intros Hn.
  pose proof (below (fun n => Nat.eqb (length (zero_pad 2 n)) 2
                              && (Py.digits_value (zero_pad 2 n) =? n)%N) 100) as H.
  cbv beta in H. specialize (H ltac:(vm_compute; reflexivity) n Hn).
  apply andb_true_iff in H. destruct H as [H1 H2].
  split; [now apply Nat.eqb_eq|now apply N.eqb_eq].
Qed.

Lemma uint_digits_inj (d1 d2 : Decimal.uint) :
  Py.uint_digits d1 = Py.uint_digits d2 -> d1 = d2.
Proof.
  revert d2. induction d1; intros d2 H; destruct d2; simpl in H;
    try discriminate H; try reflexivity; injection H as H; f_equal; auto.
Qed.

Lemma repr_int_inj (n m : N) : Py.repr_int n = Py.repr_int m -> n = m.
Proof.
  intros H. apply uint_digits_inj in H.
  rewrite <- (DecimalN.Unsigned.of_to n), <- (DecimalN.Unsigned.of_to m).
  now rewrite H.
Qed.

Lemma app_inj_length {A : Type} (a a' b b' : list A) :
  length a = length a' -> a ++ b = a' ++ b' -> a = a' /\ b = b'.
Proof.
  revert a'. induction a as [|x a IH]; intros [|x' a'] Hl H; try discriminate Hl.
  - now split.
  - injection H as -> H. injection Hl as Hl. destruct (IH a' Hl H) as [-> ->]. now split.
Qed.

Lemma app_inj_length_tail {A : Type} (a a' b b' : list A) :
  length b = length b' -> a ++ b = a' ++ b' -> a = a' /\ b = b'.
Proof.
  intros Hl H. apply app_inj_length; [|exact H].
  apply (f_equal (@length A)) in H. rewrite !length_app in H. lia.
Qed.

Lemma valid_bounds (t : datetime) :
  valid_datetime t = true ->
  (year t < 10000 /\ month t < 100 /\ day t < 100 /\ hour t < 100 /\ minute t < 100
   /\ second t < 100)%N.
Proof.
  unfold valid_datetime. rewrite !andb_true_iff, !N.leb_le, !N.ltb_lt. lia.
Qed.

Lemma strftime_compact_inj (t1 t2 : datetime) :
  valid_datetime t1 = true -> valid_datetime t2 = true ->
  strftime_compact t1 = strftime_compact t2 -> same_second t1 t2.
Proof.
  intros V1 V2 H. apply valid_bounds in V1, V2.
  destruct V1 as (Y1 & M1 & D1 & h1 & m1 & c1), V2 as (Y2 & M2 & D2 & h2 & m2 & c2).
  destruct (two_digits _ M1) as [LM1 VM1], (two_digits _ M2) as [LM2 VM2].
  destruct (two_digits _ D1) as [LD1 VD1], (two_digits _ D2) as [LD2 VD2].
  destruct (two_digits _ h1) as [Lh1 Vh1], (two_digits _ h2) as [Lh2 Vh2].
  destruct (two_digits _ m1) as [Lm1 Vm1], (two_digits _ m2) as [Lm2 Vm2].
  destruct (two_digits _ c1) as [Lc1 Vc1], (two_digits _ c2) as [Lc2 Vc2].
  unfold strftime_compact in H.
  apply app_inj_length_tail in H;
    [|rewrite !length_app; cbn [length str]; unfold ustring, char in *; simpl; lia].
  destruct H as [HY H].
  apply app_inj_length in H; [|congruence]. destruct H as [HM H].
  apply app_inj_length in H; [|congruence]. destruct H as [HD H].
  apply app_inj_length in H; [|reflexivity]. destruct H as [_ H].
  apply app_inj_length in H; [|congruence]. destruct H as [Hh H].
  apply app_inj_length in H; [|congruence]. destruct H as [Hm Hc].
  unfold same_second.
  apply repr_int_inj in HY.
  rewrite <- VM1, <- VM2, HM, <- VD1, <- VD2, HD, <- Vh1, <- Vh2, Hh.
  rewrite <- Vm1, <- Vm2, Hm, <- Vc1, <- Vc2, Hc.
  repeat split; (reflexivity || exact HY).
Qed.

Lemma strftime_compact_same (t1 t2 : datetime) :
  same_second t1 t2 -> strftime_compact t1 = strftime_compact t2.
Proof.
  intros (Y & M & D & h & m & c). unfold strftime_compact. now rewrite Y, M, D, h, m, c.
Qed.

Lemma map_fst_store (path : ustring) (f g : file) (fs : filesystem) :
  item path fs = Some g -> map fst (store path f fs) = map fst fs.
Proof.
  induction fs as [|[p h] fs IH]; [discriminate|]. simpl.
  destruct (ustring_eqb p path) eqn:E; [reflexivity|].
  intros H. simpl. now rewrite IH.
Qed.

(** X13. The name of a recording is unique up to the second, no further:
    for two times a [datetime] can hold, the names
    recording_<YYYYmmdd_HHMMSS>.wav are equal exactly when the times lie in the
    same second. *)
Theorem recording_names_unique_up_to_second (t1 t2 : datetime) :
  valid_datetime t1 = true -> valid_datetime t2 = true ->
  (str "recording_" ++ strftime_compact t1 ++ str ".wav"
   = str "recording_" ++ strftime_compact t2 ++ str ".wav"
   <-> year t1 = year t2 /\ month t1 = month t2 /\ day t1 = day t2
       /\ hour t1 = hour t2 /\ minute t1 = minute t2 /\ second t1 = second t2).
Proof.
  intros V1 V2. split.
  - intros H. apply app_inv_head in H. apply app_inv_tail in H.
    exact (strftime_compact_inj t1 t2 V1 V2 H).
  - intros H. now rewrite (strftime_compact_same t1 t2 H).
Qed.

(** X13 at two times of one second and two times a second apart. *)
Lemma recording_names_witness :
  (valid_datetime (mkDatetime 2024 5 17 9 30 15 120000) = true
   /\ valid_datetime (mkDatetime 2024 5 17 9 30 15 980000) = true)
  /\ (str "recording_" ++ strftime_compact (mkDatetime 2024 5 17 9 30 15 120000)
      ++ str ".wav"
      = str "recording_" ++ strftime_compact (mkDatetime 2024 5 17 9 30 15 980000)
        ++ str ".wav"
      <-> 2024%N = 2024%N /\ 5%N = 5%N /\ 17%N = 17%N /\ 9%N = 9%N /\ 30%N = 30%N
          /\ 15%N = 15%N)
  /\ str "recording_" ++ strftime_compact (mkDatetime 2024 5 17 9 30 15 120000)
     ++ str ".wav"
     = str "recording_20240517_093015.wav".
Proof.
  split; [split; reflexivity|]. split.
  - apply (recording_names_unique_up_to_second
             (mkDatetime 2024 5 17 9 30 15 120000) (mkDatetime 2024 5 17 9 30 15 980000));
      reflexivity.
  - vm_compute. reflexivity.
Defined.

(** X14. Two uploads in the same second collide: the second one is saved
    under the same name as the first, answers 200 like the first, and
    overwrites it: afterwards the file holds the bytes of the second upload,
    and the folder has no more files than after the first. *)
Theorem uploads_of_one_second_collide (rt : runtime) (request1 request2 : request)
    (s : server) (files1 files2 : list (ustring * file_storage))
    (audio1 audio2 : file_storage) (t2 : datetime) :
  request_files request1 = Done files1 ->
  item (str "audio") files1 = Some audio1 ->
  filename audio1 <> [] ->
  request_files request2 = Done files2 ->
  item (str "audio") files2 = Some audio2 ->
  filename audio2 <> [] ->
  fate s = [] ->
  same_second t2 (now s) ->
  exists r1 s1 r2 s2 name,
    upload_audio rt request1 s = (Done r1, s1)
    /\ upload_audio rt request2 (set_now t2 s1) = (Done r2, s2)
    /\ status r1 = 200%N /\ status r2 = 200%N
    /\ item (str "filename") (body r1) = Some (VStr name)
    /\ item (str "filename") (body r2) = Some (VStr name)
    /\ item (str "uploads/" ++ name) (disk s1) = Some (mkFile (stream audio1) (now s))
    /\ item (str "uploads/" ++ name) (disk s2) = Some (mkFile (stream audio2) t2)
    /\ map fst (disk s2) = map fst (disk s1).
Proof.
  intros Hf1 Ha1 Hn1 Hf2 Ha2 Hn2 Hfate Hsame.
  destruct (upload_leads rt request1 s files1 audio1 Hf1 Ha1 Hn1 Hfate)
    as (entities1 & _ & r1 & s1 & Hrun1 & -> & Hdisk1 & _ & _ & _ & Hfate1).
  assert (Hfate1' : fate (set_now t2 s1) = []) by (cbn; congruence).
  destruct (upload_leads rt request2 (set_now t2 s1) files2 audio2 Hf2 Ha2 Hn2 Hfate1')
    as (entities2 & _ & r2 & s2 & Hrun2 & -> & Hdisk2 & _).
  cbn [now disk set_now] in Hdisk2.
  assert (Hpath : recording_path t2 = recording_path (now s))
    by (unfold recording_path, recording_name;
        now rewrite (strftime_compact_same _ _ Hsame)).
  rewrite Hpath in Hdisk2.
  eexists _, s1, _, s2, (recording_name (now s)).
  split; [exact Hrun1|]. split; [exact Hrun2|].
  split; [reflexivity|]. split; [reflexivity|]. split; [reflexivity|].
  split.
  - cbn [body upload_response item]. cbn [now set_now].
    unfold recording_name. now rewrite (strftime_compact_same _ _ Hsame).
  - fold (recording_path (now s)). rewrite Hdisk2, Hdisk1.
    split; [apply item_store_same|]. split; [apply item_store_same|].
    apply (map_fst_store _ _ (mkFile (stream audio1) (now s))), item_store_same.
Qed.

(** X14 at two uploads 0.86 seconds apart. *)
Lemma uploads_collide_witness :
  (request_files sample_upload
   = Done [(str "audio", mkFileStorage (str "voice.webm") [82; 73; 70; 70]%N)]
   /\ item (str "audio")
        [(str "audio", mkFileStorage (str "voice.webm") [82; 73; 70; 70]%N)]
      = Some (mkFileStorage (str "voice.webm") [82; 73; 70; 70]%N)
   /\ filename (mkFileStorage (str "voice.webm") [82; 73; 70; 70]%N) <> []
   /\ request_files (mkRequest (Done [(str "audio", mkFileStorage (str "b") [1; 2]%N)])
                       (Done VNone))
      = Done [(str "audio", mkFileStorage (str "b") [1; 2]%N)]
   /\ item (str "audio") [(str "audio", mkFileStorage (str "b") [1; 2]%N)]
      = Some (mkFileStorage (str "b") [1; 2]%N)
   /\ filename (mkFileStorage (str "b") [1; 2]%N) <> []
   /\ fate sample_server = []
   /\ same_second (mkDatetime 2024 5 17 9 30 15 980000) (now sample_server))
  /\ exists r1 s1 r2 s2 name,
       upload_audio (sample_runtime (Done [])) sample_upload sample_server = (Done r1, s1)
       /\ upload_audio (sample_runtime (Done []))
            (mkRequest (Done [(str "audio", mkFileStorage (str "b") [1; 2]%N)])
               (Done VNone))
            (set_now (mkDatetime 2024 5 17 9 30 15 980000) s1)
          = (Done r2, s2)
       /\ status r1 = 200%N /\ status r2 = 200%N
       /\ item (str "filename") (body r1) = Some (VStr name)
       /\ item (str "filename") (body r2) = Some (VStr name)
       /\ item (str "uploads/" ++ name) (disk s1)
          = Some (mkFile (stream (mkFileStorage (str "voice.webm") [82; 73; 70; 70]%N))
                    (now sample_server))
       /\ item (str "uploads/" ++ name) (disk s2)
          = Some (mkFile (stream (mkFileStorage (str "b") [1; 2]%N))
                    (mkDatetime 2024 5 17 9 30 15 980000))
       /\ map fst (disk s2) = map fst (disk s1).
Proof.
  split.
  - split; [reflexivity|]. split; [reflexivity|]. split; [discriminate|].
    split; [reflexivity|]. split; [reflexivity|]. split; [discriminate|].
    split; [reflexivity|]. unfold same_second. cbn. auto 10.
  - apply (uploads_of_one_second_collide (sample_runtime (Done [])) sample_upload
             (mkRequest (Done [(str "audio", mkFileStorage (str "b") [1; 2]%N)])
                (Done VNone))
             sample_server
             [(str "audio", mkFileStorage (str "voice.webm") [82; 73; 70; 70]%N)]
             [(str "audio", mkFileStorage (str "b") [1; 2]%N)]
             (mkFileStorage (str "voice.webm") [82; 73; 70; 70]%N)
             (mkFileStorage (str "b") [1; 2]%N)
             (mkDatetime 2024 5 17 9 30 15 980000)).
    + reflexivity.
    + reflexivity.
    + discriminate.
    + reflexivity.
    + reflexivity.
    + discriminate.
    + reflexivity.
    + unfold same_second. cbn. auto 10.
Defined.

(** ** Submissions, step by step *)

Section Submission.

Variable rt : runtime.
















End Submission.

(** ** Submissions *)


Lemma applications_csv_text : applications_csv = str "uploads/applications.csv".
Proof. vm_compute. reflexivity. Qed.

Lemma applications_csv_join :
  path_join UPLOAD_FOLDER (str "applications.csv") = applications_csv.
Proof. reflexivity. Qed.



(** X16. A body that cannot be read, or that is neither an object nor
    false (a number, a non-empty string or list, true), is answered with
    status 500 and the text of the exception, for the wrong type the text of
    the AttributeError of [data.get]; nothing is written and no input or
    output operation is attempted. *)
Theorem unusable_body_is_a_500 (rt : runtime) (request : request) (s : server) :
  (forall e,
     request_json request = Fail e ->
     exists s',
       submit_application rt request s
       = (Done (mkResponse [(str "success", VBool false); (str "error", VStr (message e))]
                  500), s')
       /\ disk s' = disk s /\ applications s' = applications s /\ fate s' = fate s)
  /\ (forall data,
        request_json request = Done data ->
        py_truthy data = true ->
        (forall items, data <> VDict items) ->
        exists s',
          submit_application rt request s
          = (Done (mkResponse
                     [(str "success", VBool false);
                      (str "error",
                       VStr (str "'" ++ type_name data
                             ++ str "' object has no attribute 'get'"))] 500), s')
          /\ disk s' = disk s /\ applications s' = applications s /\ fate s' = fate s).
Proof.
  split.
  - intros e He.
    unfold submit_application, IO.try_except, IO.bind, IO.lift. rewrite He.
    eexists. split; [reflexivity|]. cbn. auto.
  - intros data Hd Ht Hn.
    unfold submit_application, IO.try_except, IO.bind at 1, IO.lift. rewrite Hd.
    unfold IO.bind at 1, datetime_now, IO.bind at 1, IO.get, IO.ret.
    unfold IO.bind at 1, field_or_empty at 1. rewrite Ht.
    destruct data as [| | | | |items|items];
      try (eexists; split; [reflexivity|]; cbn; auto).
    now contradiction (Hn items).
Qed.


(** ** What a handler leaves alone *)

Section Keeps.

Variable R : server -> server -> Prop.
Hypothesis R_refl : forall s, R s s.
Hypothesis R_trans : forall s1 s2 s3, R s1 s2 -> R s2 s3 -> R s1 s3.

Lemma keeps_ret {A : Type} (a : A) : keeps R (IO.ret a).
Proof. intros s. apply R_refl. Qed.

Lemma keeps_raise {A : Type} (e : exception) : keeps R (@IO.raise A e).
Proof. intros s. apply R_refl. Qed.

Lemma keeps_lift {A : Type} (o : outcome A) : keeps R (IO.lift o).
Proof. intros s. apply R_refl. Qed.

Lemma keeps_get : keeps R IO.get.
Proof. intros s. apply R_refl. Qed.

Lemma keeps_bind {A B : Type} (m : IO.t A) (k : A -> IO.t B) :
  keeps R m -> (forall a, keeps R (k a)) -> keeps R (IO.bind m k).
Proof.
  intros Hm Hk s. unfold IO.bind. specialize (Hm s).
  destruct (m s) as [[a|e] s1]; cbn [snd] in *; [|exact Hm].
  exact (R_trans _ _ _ Hm (Hk a s1)).
Qed.

Lemma keeps_try {A : Type} (body : IO.t A) (handler : exception -> IO.t A) :
  keeps R body -> (forall e, keeps R (handler e)) -> keeps R (IO.try_except body handler).
Proof.
  intros Hb Hh s. unfold IO.try_except. specialize (Hb s).
  destruct (body s) as [[a|e] s1]; cbn [snd] in *; [exact Hb|].
  exact (R_trans _ _ _ Hb (Hh e s1)).
Qed.

End Keeps.

Lemma keeps_weaken {A : Type} (R R' : server -> server -> Prop) (m : IO.t A) :
  (forall s s', R s s' -> R' s s') -> keeps R m -> keeps R' m.
Proof. intros H Hm s. apply H, Hm. Qed.

(** *** The relations *)

Lemma untouched_refl (s : server) : untouched s s.
Proof. unfold untouched. auto. Qed.

Lemma untouched_trans (s1 s2 s3 : server) :
  untouched s1 s2 -> untouched s2 s3 -> untouched s1 s3.
Proof. unfold untouched. intros (D & A & N & K) (D' & A' & N' & K'). repeat split; congruence. Qed.

Lemma same_files_refl (s : server) : same_files s s.
Proof. unfold same_files. auto. Qed.

Lemma same_files_trans (s1 s2 s3 : server) :
  same_files s1 s2 -> same_files s2 s3 -> same_files s1 s3.
Proof. unfold same_files. intros (D & N & K) (D' & N' & K'). repeat split; congruence. Qed.

Lemma only_file_refl (path : ustring) (s : server) : only_file path s s.
Proof. unfold only_file. auto. Qed.

Lemma only_file_trans (path : ustring) (s1 s2 s3 : server) :
  only_file path s1 s2 -> only_file path s2 s3 -> only_file path s1 s3.
Proof.
  unfold only_file. intros (D & A & N & K) (D' & A' & N' & K'). repeat split; try congruence.
  intros p Hp. now rewrite (D' p Hp), (D p Hp).
Qed.

Lemma grown_refl (path : ustring) (s : server) : grown path s s.
Proof.
  unfold grown. repeat split; auto. intros f Hf. exists f, []. now rewrite app_nil_r.
Qed.

Lemma grown_trans (path : ustring) (s1 s2 s3 : server) :
  grown path s1 s2 -> grown path s2 s3 -> grown path s1 s3.
Proof.
  unfold grown. intros (D & G & N & K) (D' & G' & N' & K'). repeat split; try congruence.
  - intros p Hp. now rewrite (D' p Hp), (D p Hp).
  - intros f Hf. destruct (G f Hf) as (f1 & more1 & Hf1 & E1).
    destruct (G' f1 Hf1) as (f2 & more2 & Hf2 & E2).
    exists f2, (more1 ++ more2). split; [exact Hf2|]. now rewrite E2, E1, app_assoc.
Qed.

Lemma untouched_same_files (s s' : server) : untouched s s' -> same_files s s'.
Proof. unfold untouched, same_files. tauto. Qed.

Lemma untouched_only_file (path : ustring) (s s' : server) :
  untouched s s' -> only_file path s s'.
Proof. unfold untouched, only_file. intros (D & A & N & K). rewrite D. auto. Qed.

Lemma same_files_grown (path : ustring) (s s' : server) :
  same_files s s' -> grown path s s'.
Proof.
  unfold same_files, grown. intros (D & N & K). rewrite D. repeat split; auto.
  intros f Hf. exists f, []. now rewrite app_nil_r.
Qed.

(** *** The operations *)

Section Operations.

Variable rt : runtime.

Lemma print_untouched (line : ustring) : keeps untouched (IO.print line).
Proof. intros s. unfold untouched. cbn. auto. Qed.

Lemma attempt_untouched : keeps untouched IO.attempt.
Proof.
  intros s. unfold IO.attempt, untouched.
  destruct (fate s) as [|[e|] rest]; cbn; auto.
Qed.

Lemma datetime_now_untouched : keeps untouched datetime_now.
Proof. intros s. apply untouched_refl. Qed.

Lemma path_exists_untouched (path : ustring) : keeps untouched (path_exists path).
Proof. intros s. apply untouched_refl. Qed.

Lemma read_bytes_untouched (path : ustring) : keeps untouched (read_bytes rt path).
Proof.
  unfold read_bytes.
  apply (keeps_bind _ untouched_trans); [apply attempt_untouched|]. intros _.
  apply (keeps_bind _ untouched_trans); [apply (keeps_get _ untouched_refl)|]. intros s0.
  destruct (item path (disk s0));
    [apply (keeps_ret _ untouched_refl)|apply (keeps_raise _ untouched_refl)].
Qed.

Lemma getsize_untouched (path : ustring) : keeps untouched (getsize rt path).
Proof.
  unfold getsize.
  apply (keeps_bind _ untouched_trans); [apply attempt_untouched|]. intros _.
  apply (keeps_bind _ untouched_trans); [apply (keeps_get _ untouched_refl)|]. intros s0.
  destruct (item path (disk s0));
    [apply (keeps_ret _ untouched_refl)|apply (keeps_raise _ untouched_refl)].
Qed.

Lemma getctime_untouched (path : ustring) : keeps untouched (getctime rt path).
Proof.
  unfold getctime.
  apply (keeps_bind _ untouched_trans); [apply attempt_untouched|]. intros _.
  apply (keeps_bind _ untouched_trans); [apply (keeps_get _ untouched_refl)|]. intros s0.
  destruct (item path (disk s0));
    [apply (keeps_ret _ untouched_refl)|apply (keeps_raise _ untouched_refl)].
Qed.

Lemma listdir_untouched (folder : ustring) : keeps untouched (listdir folder).
Proof.
  unfold listdir.
  apply (keeps_bind _ untouched_trans); [apply attempt_untouched|]. intros _.
  apply (keeps_bind _ untouched_trans); [apply (keeps_get _ untouched_refl)|]. intros s0.
  apply (keeps_ret _ untouched_refl).
Qed.

Lemma call_untouched (text : ustring) : keeps untouched (call rt (extract_loan_entities text)).
Proof.
  intros s. destruct (leads_extract rt text s (fun _ s' => quiet s s'))
    as (entities & s' & E & D & A & K & N & F); [auto|].
  rewrite E. unfold untouched. cbn. auto.
Qed.

Lemma print_entities_untouched (entities : list entity) :
  keeps untouched (print_entities entities).
Proof.
  induction entities as [|e entities IH]; [apply (keeps_ret _ untouched_refl)|].
  cbn [print_entities].
  apply (keeps_bind _ untouched_trans); [apply print_untouched|]. intros _. exact IH.
Qed.

Lemma transcribe_audio_untouched (filepath : ustring) :
  keeps untouched (transcribe_audio rt filepath).
Proof.
  unfold transcribe_audio. apply (keeps_try _ untouched_trans).
  - apply (keeps_bind _ untouched_trans); [apply read_bytes_untouched|]. intros bytes.
    apply (keeps_bind _ untouched_trans); [apply (keeps_get _ untouched_refl)|]. intros s0.
    apply (keeps_bind _ untouched_trans); [apply (keeps_lift _ untouched_refl)|]. intros t.
    apply (keeps_ret _ untouched_refl).
  - intros e.
    destruct (is_api_error e); [|destruct (is_authentication_error e)];
      (apply (keeps_bind _ untouched_trans); [apply print_untouched|]; intros _;
       apply (keeps_ret _ untouched_refl)).
Qed.

(** Writing *)

Lemma only_file_store (path : ustring) (f : file) (s s' : server) :
  disk s' = store path f (disk s) -> applications s' = applications s ->
  now s' = now s -> api_key s' = api_key s -> only_file path s s'.
Proof.
  intros D A N K. unfold only_file. rewrite D. repeat split; auto.
  intros p Hp. now apply item_store_other.
Qed.

Lemma open_truncate_only (path : ustring) : keeps (only_file path) (open_truncate path).
Proof.
  intros s. unfold open_truncate, IO.bind, IO.attempt, IO.modify.
  destruct (fate s) as [|[e|] rest]; cbn.
  - eapply only_file_store; reflexivity.
  - apply untouched_only_file. unfold untouched. cbn. auto.
  - eapply only_file_store; reflexivity.
Qed.

Lemma write_bytes_only (path : ustring) (bytes : list N) :
  keeps (only_file path) (write_bytes path bytes).
Proof.
  intros s. unfold write_bytes, IO.bind, IO.attempt, IO.modify.
  destruct (fate s) as [|[e|] rest]; cbn.
  - eapply only_file_store; reflexivity.
  - apply untouched_only_file. unfold untouched. cbn. auto.
  - eapply only_file_store; reflexivity.
Qed.

Lemma save_only (audio_file : file_storage) (path : ustring) :
  keeps (only_file path) (save audio_file path).
Proof.
  unfold save. apply (keeps_bind _ (only_file_trans path)); [apply open_truncate_only|].
  intros _. apply write_bytes_only.
Qed.

Lemma grown_store (path : ustring) (f : file) (s s' : server) :
  disk s' = store path f (disk s) -> now s' = now s -> api_key s' = api_key s ->
  (forall g, item path (disk s) = Some g -> exists more, content f = content g ++ more) ->
  grown path s s'.
Proof.
  intros D N K G. unfold grown. rewrite D. repeat split; auto.
  - intros p Hp. now apply item_store_other.
  - intros g Hg. destruct (G g Hg) as [more E]. exists f, more.
    split; [apply item_store_same|exact E].
Qed.

Lemma write_bytes_grown (path : ustring) (bytes : list N) :
  keeps (grown path) (write_bytes path bytes).
Proof.
  intros s. unfold write_bytes, IO.bind, IO.attempt, IO.modify.
  destruct (fate s) as [|[e|] rest]; cbn.
  - eapply grown_store; try reflexivity. intros g Hg. rewrite Hg. now exists bytes.
  - apply same_files_grown. unfold same_files. cbn. auto.
  - eapply grown_store; try reflexivity. cbn. intros g Hg. rewrite Hg. now exists bytes.
Qed.

Lemma open_append_grown (path : ustring) : keeps (grown path) (open_append path).
Proof.
  intros s. unfold open_append, IO.bind, IO.attempt, IO.modify.
  destruct (fate s) as [|[e|] rest]; cbn.
  - destruct (item path (disk s)) eqn:E; [apply grown_refl|].
    eapply grown_store; try reflexivity. intros g Hg. congruence.
  - apply same_files_grown. unfold same_files. cbn. auto.
  - destruct (item path (disk s)) eqn:E.
    + apply same_files_grown. unfold same_files. cbn. auto.
    + eapply grown_store; try reflexivity. cbn. intros g Hg. congruence.
Qed.

Lemma writerow_only (path : ustring) (row : list pyvalue) :
  keeps (only_file path) (writerow rt path row).
Proof.
  unfold writerow. destruct (existsb is_surrogate _);
    [apply (keeps_raise _ (only_file_refl path))|apply write_bytes_only].
Qed.

Lemma writerow_grown (path : ustring) (row : list pyvalue) :
  keeps (grown path) (writerow rt path row).
Proof.
  unfold writerow. destruct (existsb is_surrogate _);
    [apply (keeps_raise _ (grown_refl path))|apply write_bytes_grown].
Qed.

(** The header is written into a file that was not there. *)
Lemma ensure_csv_header_grown (path : ustring) (hs : list ustring) :
  keeps (grown path) (_ensure_csv_header rt path hs).
Proof.
  intros s. unfold _ensure_csv_header, path_exists, IO.bind at 1 2, IO.get, IO.ret.
  destruct (item path (disk s)) as [f|] eqn:E; cbn [negb]; [apply grown_refl|].
  assert (H : keeps (only_file path)
                (IO.try_except
                   (IO.bind (open_truncate path)
                      (fun _ =>
                         IO.bind (writerow rt path (map VStr hs))
                           (fun _ => IO.print (str "✓ Created CSV with headers: " ++ path))))
                   (fun e => IO.print (str "✗ Failed to create CSV: " ++ message e)))).
  { apply (keeps_try _ (only_file_trans path)).
    - apply (keeps_bind _ (only_file_trans path)); [apply open_truncate_only|]. intros _.
      apply (keeps_bind _ (only_file_trans path)); [apply writerow_only|]. intros _.
      apply (keeps_weaken _ _ _ (untouched_only_file path)), print_untouched.
    - intros e. apply (keeps_weaken _ _ _ (untouched_only_file path)), print_untouched. }
  destruct (H s) as (D & A & N & K). unfold grown. repeat split; auto.
  intros f Hf. congruence.
Qed.

(** The database does not touch the files. *)

Lemma db_create_table_files : keeps same_files db_create_table.
Proof.
  intros s. unfold db_create_table, IO.bind, IO.attempt, IO.modify.
  destruct (fate s) as [|[e|] rest]; cbn; destruct (applications s); unfold same_files;
    cbn; auto.
Qed.

Lemma db_commit_files (pending : list (list pyvalue)) : keeps same_files (db_commit pending).
Proof.
  intros s. unfold db_commit, IO.bind, IO.attempt, IO.modify.
  destruct (fate s) as [|[e|] rest]; cbn; destruct (applications s); unfold same_files;
    cbn; auto.
Qed.

Lemma db_insert_files (row : list pyvalue) : keeps same_files (db_insert rt row).
Proof.
  unfold db_insert.
  apply (keeps_bind _ same_files_trans); [apply (keeps_get _ same_files_refl)|]. intros s0.
  destruct (applications s0); [|apply (keeps_raise _ same_files_refl)].
  destruct (first_unbindable 0 row) as [[i v]|]; [apply (keeps_raise _ same_files_refl)|].
  apply (keeps_bind _ same_files_trans);
    [apply (keeps_weaken _ _ _ untouched_same_files), attempt_untouched|].
  intros _. apply (keeps_ret _ same_files_refl).
Qed.

Lemma ensure_db_files (db_path : ustring) : keeps same_files (_ensure_db db_path).
Proof.
  unfold _ensure_db, db_connect, db_close.
  apply (keeps_bind _ same_files_trans).
  - apply (keeps_try _ same_files_trans).
    + apply (keeps_bind _ same_files_trans);
        [apply (keeps_weaken _ _ _ untouched_same_files), attempt_untouched|].
      intros _. apply (keeps_ret _ same_files_refl).
    + intros e. apply (keeps_bind _ same_files_trans);
        [apply (keeps_weaken _ _ _ untouched_same_files), print_untouched|].
      intros _. apply (keeps_ret _ same_files_refl).
  - intros [|]; [|apply (keeps_ret _ same_files_refl)].
    apply (keeps_bind _ same_files_trans).
    + apply (keeps_try _ same_files_trans).
      * apply (keeps_bind _ same_files_trans); [apply db_create_table_files|].
        intros _. apply db_commit_files.
      * intros e. apply (keeps_weaken _ _ _ untouched_same_files), print_untouched.
    + intros _. apply (keeps_try _ same_files_trans).
      * apply (keeps_weaken _ _ _ untouched_same_files), attempt_untouched.
      * intros _. apply (keeps_ret _ same_files_refl).
Qed.

Lemma record_row_untouched (record : list (ustring * pyvalue)) (hs : list ustring) :
  keeps untouched (record_row record hs).
Proof.
  induction hs as [|h hs IH]; [apply (keeps_ret _ untouched_refl)|].
  cbn [record_row]. destruct (item h record); [|apply (keeps_raise _ untouched_refl)].
  apply (keeps_bind _ untouched_trans); [exact IH|]. intros row.
  apply (keeps_ret _ untouched_refl).
Qed.

Lemma field_or_empty_untouched (data : pyvalue) (key : ustring) :
  keeps untouched (field_or_empty data key).
Proof.
  unfold field_or_empty. destruct (py_truthy data); [|apply (keeps_ret _ untouched_refl)].
  destruct data; first [apply (keeps_ret _ untouched_refl)|apply (keeps_raise _ untouched_refl)].
Qed.

Lemma collect_recordings_untouched (files : list ustring) (recordings : list pyvalue) :
  keeps untouched (collect_recordings rt files recordings).
Proof.
  revert recordings. induction files as [|file files IH]; intros recordings;
    [apply (keeps_ret _ untouched_refl)|].
  cbn [collect_recordings]. destruct (endswith (str ".wav") file); [|apply IH].
  apply (keeps_bind _ untouched_trans); [apply getsize_untouched|]. intros size.
  apply (keeps_bind _ untouched_trans); [apply getctime_untouched|]. intros created.
  apply IH.
Qed.

End Operations.

Lemma keeps_grown_steps {A B : Type} (path : ustring) (m : IO.t A) (k : A -> IO.t B) :
  keeps untouched m -> (forall a, keeps (grown path) (k a)) ->
  keeps (grown path) (IO.bind m k).
Proof.
  intros Hm Hk. apply (keeps_bind _ (grown_trans path)); [|exact Hk].
  apply (keeps_weaken _ _ _ (fun s s' H => same_files_grown path s s'
                                             (untouched_same_files s s' H))), Hm.
Qed.

Lemma submit_application_grown (rt : runtime) (request : request) :
  keeps (grown applications_csv) (submit_application rt request).
Proof.
  unfold submit_application. rewrite applications_csv_join.
  apply (keeps_try _ (grown_trans _)).
  - apply keeps_grown_steps; [apply (keeps_lift _ untouched_refl)|]. intros data.
    apply keeps_grown_steps; [apply datetime_now_untouched|]. intros t.
    do 8 (apply keeps_grown_steps; [apply field_or_empty_untouched|]; intros ?).
    apply (keeps_bind _ (grown_trans _)); [apply ensure_csv_header_grown|]. intros _.
    apply (keeps_bind _ (grown_trans _)); [apply open_append_grown|]. intros _.
    apply keeps_grown_steps; [apply record_row_untouched|]. intros row.
    apply (keeps_bind _ (grown_trans _)); [apply writerow_grown|]. intros _.
    apply keeps_grown_steps; [apply print_untouched|]. intros _.
    apply (keeps_bind _ (grown_trans _)); [|intros db_saved; apply (keeps_ret _ (grown_refl _))].
    apply (keeps_weaken _ _ _ (same_files_grown _)).
    apply (keeps_try _ same_files_trans).
    + apply (keeps_bind _ same_files_trans); [apply ensure_db_files|]. intros _.
      apply (keeps_bind _ same_files_trans);
        [apply (keeps_weaken _ _ _ untouched_same_files), attempt_untouched|]. intros _.
      apply (keeps_bind _ same_files_trans);
        [apply (keeps_weaken _ _ _ untouched_same_files), record_row_untouched|].
      intros values.
      apply (keeps_bind _ same_files_trans); [apply db_insert_files|]. intros pending.
      apply (keeps_bind _ same_files_trans); [apply db_commit_files|]. intros _.
      apply (keeps_bind _ same_files_trans);
        [apply (keeps_weaken _ _ _ untouched_same_files), attempt_untouched|]. intros _.
      apply (keeps_bind _ same_files_trans);
        [apply (keeps_weaken _ _ _ untouched_same_files), print_untouched|]. intros _.
      apply (keeps_ret _ same_files_refl).
    + intros e. apply (keeps_bind _ same_files_trans);
        [apply (keeps_weaken _ _ _ untouched_same_files), print_untouched|]. intros _.
      apply (keeps_ret _ same_files_refl).
  - intros e. apply keeps_grown_steps; [apply print_untouched|]. intros _.
    apply (keeps_ret _ (grown_refl _)).
Qed.

(** X17. A submission never loses what is saved, whatever its body and
    whatever fails on the way: afterwards the recordings and all other files
    but applications.csv and the database (uploads/applications.db and what
    SQLite keeps beside it) are as they were, and applications.csv, if it was
    there, has its bytes of before followed by what the call has added. *)
Theorem submission_only_appends (rt : runtime) (request : request) (s : server) :
  (forall path,
     path <> str "uploads/applications.csv" ->
     strip_prefix (str "uploads/applications.db") path = None ->
     item path (disk (snd (submit_application rt request s))) = item path (disk s))
  /\ (forall f,
        item (str "uploads/applications.csv") (disk s) = Some f ->
        exists f' more,
          item (str "uploads/applications.csv")
            (disk (snd (submit_application rt request s))) = Some f'
          /\ content f' = content f ++ more).
Proof.
  destruct (submit_application_grown rt request s) as (D & G & _).
  rewrite applications_csv_text in D, G. split; [|exact G].
  intros path H _. exact (D path H).
Qed.

Lemma upload_frame_refl (s : server) : upload_frame s s.
Proof. apply only_file_refl. Qed.

Lemma upload_frame_trans (s1 s2 s3 : server) :
  upload_frame s1 s2 -> upload_frame s2 s3 -> upload_frame s1 s3.
Proof.
  unfold upload_frame. intros H1 H2.
  assert (N : now s2 = now s1) by (destruct H1 as (_ & _ & N & _); exact N).
  rewrite N in H2. exact (only_file_trans _ _ _ _ H1 H2).
Qed.

Lemma untouched_upload_frame (s s' : server) : untouched s s' -> upload_frame s s'.
Proof. apply untouched_only_file. Qed.

Lemma keeps_now_bind {B : Type} (R : server -> server -> Prop) (k : datetime -> IO.t B) :
  (forall s, R s (snd (k (now s) s))) -> keeps R (IO.bind datetime_now k).
Proof. intros H s. exact (H s). Qed.

Lemma upload_audio_frame (rt : runtime) (request : request) :
  keeps upload_frame (upload_audio rt request).
Proof.
  assert (Hu : forall (A : Type) (m : IO.t A), keeps untouched m -> keeps upload_frame m)
    by (intros A m; apply keeps_weaken, untouched_upload_frame).
  unfold upload_audio. apply (keeps_try _ upload_frame_trans).
  - apply (keeps_bind _ upload_frame_trans); [apply Hu, print_untouched|]. intros _.
    apply (keeps_bind _ upload_frame_trans); [apply Hu, print_untouched|]. intros _.
    apply (keeps_bind _ upload_frame_trans); [apply Hu, (keeps_lift _ untouched_refl)|].
    intros files.
    destruct (item (str "audio") files) as [audio_file|].
    + destruct (ustring_eqb (filename audio_file) []).
      * apply (keeps_bind _ upload_frame_trans); [apply Hu, print_untouched|]. intros _.
        apply (keeps_ret _ upload_frame_refl).
      * apply keeps_now_bind. intros s0. rewrite recording_path_join.
        unfold upload_frame. generalize (now s0). intros t. revert s0.
        assert (Ho : forall (A : Type) (m : IO.t A),
                  keeps untouched m -> keeps (only_file (recording_path t)) m)
          by (intros A m; apply keeps_weaken, untouched_only_file).
        apply (keeps_bind _ (only_file_trans _)); [apply save_only|]. intros _.
        apply (keeps_bind _ (only_file_trans _)); [apply Ho, getsize_untouched|].
        intros file_size.
        apply (keeps_bind _ (only_file_trans _)); [apply Ho, print_untouched|]. intros _.
        apply (keeps_bind _ (only_file_trans _)); [apply Ho, print_untouched|]. intros _.
        apply (keeps_bind _ (only_file_trans _)); [apply Ho, transcribe_audio_untouched|].
        intros transcription.
        apply (keeps_bind _ (only_file_trans _)); [apply Ho, print_untouched|]. intros _.
        apply (keeps_bind _ (only_file_trans _)); [apply Ho, print_untouched|]. intros _.
        apply (keeps_bind _ (only_file_trans _)); [apply Ho, call_untouched|].
        intros entities.
        apply (keeps_bind _ (only_file_trans _)); [apply Ho, print_untouched|]. intros _.
        apply (keeps_bind _ (only_file_trans _)); [apply Ho, print_entities_untouched|].
        intros _.
        apply (keeps_bind _ (only_file_trans _)); [apply Ho, print_untouched|]. intros _.
        apply (keeps_bind _ (only_file_trans _)); [apply Ho, print_untouched|]. intros _.
        apply (keeps_ret _ (only_file_refl _)).
    + apply (keeps_bind _ upload_frame_trans); [apply Hu, print_untouched|]. intros _.
      apply (keeps_ret _ upload_frame_refl).
  - intros e. apply (keeps_bind _ upload_frame_trans); [apply Hu, print_untouched|].
    intros _. apply (keeps_ret _ upload_frame_refl).
Qed.

Lemma get_recordings_untouched (rt : runtime) : keeps untouched (get_recordings rt).
Proof.
  unfold get_recordings. apply (keeps_try _ untouched_trans).
  - apply (keeps_bind _ untouched_trans); [apply listdir_untouched|]. intros files.
    apply (keeps_bind _ untouched_trans); [apply collect_recordings_untouched|].
    intros recordings. apply (keeps_ret _ untouched_refl).
  - intros e. apply (keeps_bind _ untouched_trans); [apply print_untouched|]. intros _.
    apply (keeps_ret _ untouched_refl).
Qed.

(** X18. An upload changes no file but the recording it saves, and a
    listing changes no file at all, whatever the request and whatever fails on
    the way: after [upload_audio] every path other than
    uploads/recording_<time>.wav holds what it held, and the applications
    table is as it was; after [get_recordings] the files and the table are as
    they were. *)
Theorem uploads_and_listings_touch_nothing_else (rt : runtime) (request : request)
    (s : server) :
  ((forall path,
      path <> str "uploads/recording_" ++ strftime_compact (now s) ++ str ".wav" ->
      item path (disk (snd (upload_audio rt request s))) = item path (disk s))
   /\ applications (snd (upload_audio rt request s)) = applications s)
  /\ disk (snd (get_recordings rt s)) = disk s
  /\ applications (snd (get_recordings rt s)) = applications s.
Proof.
  destruct (upload_audio_frame rt request s) as (D & A & _).
  destruct (get_recordings_untouched rt s) as (D' & A' & _).
  split; [split; [exact D|exact A]|]. split; [exact D'|exact A'].
Qed.
